(** * Event router and Munshi telemetry pipeline: a shallow embedding

    Source files embedded here:
    - [src/event_driven_services/event_router.service.js]: the handler
      registry, the middleware chain, the RabbitMQ publisher bindings and
      the listener installed by [_initialize_router];
    - [src/event_driven_services/munshi.service.js]: envelope construction,
      stack-trace parsing and the queue / HTTP / delayed-retry decision tree;
    - [src/_core_app_connectivities/rabbitmq.js]: [sendToRabbitMQ] with its
      retry loop, and [RetryQMessage];
    - [src/_core_app_connectivities/memcache.js]: the report throttle, the
      failover state and its transitions, [getFromMemcache] and the reports
      it hands to Munshi.

    JavaScript values are modelled first, then the router, Munshi and the
    two connectors; the lemmas and the statements of the specification come
    after them, and further properties of the same code last.

    Conventions.  Numbers (priorities, timeouts, lifetimes, clock readings)
    are integers.  A missing ([undefined]) field or argument is [None].  A
    string is a sequence of one-byte characters.  Keys of the registries are
    own properties.  The lines that the registry methods themselves print on
    the console are not recorded; those of the listener and of the Munshi
    functions are. *)

From Stdlib Require Import ZArith Ascii String Lia.
From stdpp Require Import base numbers option list gmap strings pretty sorting.

Local Open Scope Z_scope.

(** ** JavaScript values and completions *)

#[local] Set Warnings "-register-all".

(** Plain data as it travels through the router and into the envelopes. *)
Inductive jsval : Type :=
  | JUndefined
  | JNull
  | JBool (b : bool)
  | JNum (n : Z)
  | JStr (s : string)
  | JArr (items : list jsval)
  | JObj (fields : list (string * jsval)).

Definition js_object : Type := list (string * jsval).

(** What a [throw] or a rejected promise carries: an [Error] with its
    message, [undefined] or [null], or some other value without a [message]
    property (a string, a number).  The source reads [.message] of the
    values it catches, which is itself a [TypeError] when the value is
    [undefined] or [null]. *)
Inductive js_thrown : Type :=
  | ErrorObject (message : string)
  | NullishValue
  | OtherValue.

(** A synchronous completion: normal return or an exception. *)
Inductive completion (A : Type) : Type :=
  | Returned (a : A)
  | Thrown (e : js_thrown).
Arguments Returned {A} a.
Arguments Thrown {A} e.

#[global] Instance completion_ret : MRet completion := fun A a => Returned a.

#[global] Instance completion_bind : MBind completion := fun A B k c =>
  match c with
  | Returned a => k a
  | Thrown e => Thrown e
  end.

(** [try { c } catch (e) { h e }] *)
Definition try_catch {A} (c : completion A) (h : js_thrown -> completion A)
  : completion A :=
  match c with
  | Returned a => Returned a
  | Thrown e => h e
  end.

(** [e.message] for a caught value [e]. *)
Definition read_message (e : js_thrown) : completion (option string) :=
  match e with
  | ErrorObject m => Returned (Some m)
  | NullishValue =>
      Thrown (ErrorObject "Cannot read properties of undefined (reading 'message')")
  | OtherValue => Returned None
  end.

(** [x || d] on an optional number: [undefined], [null] and [0] are falsy. *)
Definition or_num (x : option Z) (d : Z) : Z :=
  match x with
  | Some n => if n =? 0 then d else n
  | None => d
  end.

(** [x || null] on an optional number. *)
Definition or_null (x : option Z) : option Z :=
  match x with
  | Some n => if n =? 0 then None else Some n
  | None => None
  end.

(** [x || d] on an optional string: the empty string is falsy. *)
Definition or_str (x : option string) (d : string) : string :=
  match x with
  | Some "" => d
  | Some s => s
  | None => d
  end.

(** [x || null] on an optional string. *)
Definition or_str_null (x : option string) : option string :=
  match x with
  | Some "" => None
  | Some s => Some s
  | None => None
  end.

(** Truthiness of an optional number, as tested by [if (handler.timeout)]. *)
Definition truthy_num (x : option Z) : bool :=
  match x with
  | Some n => negb (n =? 0)
  | None => false
  end.

(** Template interpolation of a possibly missing string. *)
Definition show (x : option string) : string :=
  match x with
  | Some s => s
  | None => "undefined"
  end.

(** ** The router: [class event_router] *)

Module Router.

(** Function objects are compared by reference ([handler.fn !== handler_fn]);
    a reference is a natural number here. *)
Definition fn_id : Type := nat.
Bind Scope nat_scope with fn_id.

(** One entry of [this.handlers[event_id]]. *)
Record handler : Type := Handler {
  fn : fn_id;
  priority : Z;
  timeout : option Z;
  name : string
}.

#[global] Instance handler_eq_dec : EqDecision handler.
Proof. solve_decision. Defined.

(** One entry of [this.rabbitmq_publishers]. *)
Record publisher : Type := Publisher {
  queue_name : string;
  options : js_object
}.

(** The [options] argument of [register_handler]. *)
Record handler_options : Type := HandlerOptions {
  opt_priority : option Z;
  opt_timeout : option Z;
  opt_name : option string
}.

(** [LOG_LEVELS] *)
Definition LOG_ERROR : Z := 0.
Definition LOG_WARN : Z := 1.
Definition LOG_INFO : Z := 2.
Definition LOG_DEBUG : Z := 3.

(** The fields set by the constructor. *)
Record router : Type := Router {
  handlers : gmap string (list handler);
  rabbitmq_publishers : gmap string publisher;
  middlewares : list fn_id;
  log_level : Z
}.

Definition new_router : router :=
  {| handlers := ∅; rabbitmq_publishers := ∅; middlewares := [];
     log_level := LOG_INFO |}.

Definition set_handlers (r : router) (h : gmap string (list handler)) : router :=
  {| handlers := h; rabbitmq_publishers := rabbitmq_publishers r;
     middlewares := middlewares r; log_level := log_level r |}.

Definition set_publishers (r : router) (p : gmap string publisher) : router :=
  {| handlers := handlers r; rabbitmq_publishers := p;
     middlewares := middlewares r; log_level := log_level r |}.

Definition set_middlewares (r : router) (m : list fn_id) : router :=
  {| handlers := handlers r; rabbitmq_publishers := rabbitmq_publishers r;
     middlewares := m; log_level := log_level r |}.

(** [this.handlers[event_id] || []] *)
Definition handlers_of (r : router) (event_id : string) : list handler :=
  default [] (handlers r !! event_id).

(** [register_handler(event_id, handler_fn, options = {})].  The argument
    [handler_fn] is a function reference, so the [typeof] test passes; the
    entry is pushed at the end of the array of [event_id], which is created
    when missing. *)
Definition register_handler (r : router) (event_id : string) (handler_fn : fn_id)
    (opts : handler_options) : completion router :=
  if decide (event_id = "") then
    Thrown (ErrorObject "Event ID must be a non-empty string")
  else
    let existing := handlers_of r event_id in
    let entry :=
      {| fn := handler_fn;
         priority := or_num (opt_priority opts) 10;
         timeout := or_null (opt_timeout opts);
         name := or_str (opt_name opts)
                   (event_id +:+ "_handler_" +:+ pretty (length existing + 1)%nat) |} in
    Returned (set_handlers r (<[event_id := existing ++ [entry]]> (handlers r))).

(** [unregister_handler(event_id, handler_fn)]: [handler_fn] is [None] when
    the caller passes no function. *)
Definition unregister_handler (r : router) (event_id : string)
    (handler_fn : option fn_id) : router :=
  match handlers r !! event_id with
  | None => r
  | Some registered =>
      match handler_fn with
      | Some f =>
          set_handlers r
            (<[event_id := filter (fun h => fn h ≠ f) registered]> (handlers r))
      | None =>
          set_handlers r (delete event_id (handlers r))
      end
  end.

(** [register_rabbitmq_publisher(event_id, queue_name, options = {})] *)
Definition register_rabbitmq_publisher (r : router) (event_id : string)
    (queue : string) (opts : js_object) : completion router :=
  if decide (event_id = "") then
    Thrown (ErrorObject "Event ID must be a non-empty string")
  else if decide (queue = "") then
    Thrown (ErrorObject "Queue name must be a non-empty string")
  else
    Returned (set_publishers r
      (<[event_id := {| queue_name := queue; options := opts |}]>
         (rabbitmq_publishers r))).

(** [unregister_rabbitmq_publisher(event_id)] *)
Definition unregister_rabbitmq_publisher (r : router) (event_id : string) : router :=
  match rabbitmq_publishers r !! event_id with
  | Some _ => set_publishers r (delete event_id (rabbitmq_publishers r))
  | None => r
  end.

(** [use(middleware_fn)] *)
Definition use (r : router) (middleware_fn : fn_id) : router :=
  set_middlewares r (middlewares r ++ [middleware_fn]).

(** [set_log_level(level)]: the four level names are the only keys of
    [level_map], any other string is refused. *)
Inductive level : Type := lvl_error | lvl_warn | lvl_info | lvl_debug.

Definition level_map (l : level) : Z :=
  match l with
  | lvl_error => LOG_ERROR
  | lvl_warn => LOG_WARN
  | lvl_info => LOG_INFO
  | lvl_debug => LOG_DEBUG
  end.

Definition level_name (l : level) : string :=
  match l with
  | lvl_error => "error"
  | lvl_warn => "warn"
  | lvl_info => "info"
  | lvl_debug => "debug"
  end.

Definition set_log_level (r : router) (l : level) : router :=
  {| handlers := handlers r; rabbitmq_publishers := rabbitmq_publishers r;
     middlewares := middlewares r; log_level := level_map l |}.

(** ** Sorting the handlers

    [[...handlers].sort((a, b) => a.priority - b.priority)] sorts a copy.
    [Array.prototype.sort] is a stable sort, and the list below is the
    only stable ascending arrangement of its input ([sort_by_priority_unique]):
    an entry is inserted in front of the first entry whose priority is not
    smaller than its own, and the entries are inserted from the last one
    to the first. *)
Fixpoint insert_by_priority (h : handler) (l : list handler) : list handler :=
  match l with
  | [] => [h]
  | x :: l' =>
      if priority h <=? priority x then h :: x :: l'
      else x :: insert_by_priority h l'
  end.

Definition sort_by_priority (l : list handler) : list handler :=
  foldr insert_by_priority [] l.

(** ** What the listener does and what can be observed of it *)

(** The result of awaiting a promise: when it settles, counted in
    milliseconds from the call, and how. *)
Inductive settlement : Type :=
  | Fulfils (after_ms : Z) (v : jsval)
  | Rejects (after_ms : Z) (e : js_thrown)
  | NeverSettles.

(** One call of a middleware, of a handler or of the queue publisher, seen
    from the listener that awaits it: [effect] is every change made to the
    router while the listener is suspended on the call (by the callee, or
    by whatever else the scheduler runs in the meantime), [settles] is the
    fate of the awaited promise.  A synchronous [throw] is [Rejects 0]. *)
Record call : Type := Call {
  effect : router -> router;
  settles : settlement
}.

Inductive handler_outcome : Type :=
  | HandlerFulfilled
  | HandlerRejected (e : js_thrown).

(** Observable steps of one dispatch, in the order they happen.  [Console]
    is a line written by [console.error/warn/info/log] together with the
    fields of its data argument (the timestamp of [log_context] is left
    out); [SettledHandler] marks the point where the [await] on a handler
    returns or raises. *)
Inductive obs : Type :=
  | Console (l : level) (text : string) (detail : js_object)
  | CallMiddleware (f : fn_id) (event_id : string) (data : jsval)
  | CallHandler (h : handler) (data : jsval)
  | SettledHandler (h : handler) (how : handler_outcome)
  | PublishToQueue (queue : string) (data : jsval) (opts : js_object).

(** How a piece of the listener ends: it goes on with a value, it raises,
    it stays suspended on a promise that never settles, or the model ran
    out of fuel (only the middleware loop, which walks a list that the
    middlewares themselves can extend, needs fuel). *)
Inductive flow (A : Type) : Type :=
  | Done (a : A)
  | Raise (e : js_thrown)
  | Suspend
  | NoFuel.
Arguments Done {A} a.
Arguments Raise {A} e.
Arguments Suspend {A}.
Arguments NoFuel {A}.

Record step (A : Type) : Type := Step {
  outcome : flow A;
  state : router;
  emitted : list obs
}.
Arguments Step {A} _ _ _.
Arguments outcome {A} _.
Arguments state {A} _.
Arguments emitted {A} _.

(** Router state, exceptions and the trace, threaded through the listener. *)
Definition task (A : Type) : Type := router -> step A.

#[global] Instance task_ret : MRet task := fun A a r => Step (Done a) r [].

#[global] Instance task_bind : MBind task := fun A B k m r =>
  match m r with
  | Step (Done a) r' t =>
      match k a r' with
      | Step o r'' t' => Step o r'' (t ++ t')
      end
  | Step (Raise e) r' t => Step (Raise e) r' t
  | Step Suspend r' t => Step Suspend r' t
  | Step NoFuel r' t => Step NoFuel r' t
  end.

Definition observe (o : list obs) : task unit := fun r => Step (Done tt) r o.

Definition raise {A} (e : js_thrown) : task A := fun r => Step (Raise e) r [].

Definition lift {A} (c : completion A) : task A :=
  match c with
  | Returned a => mret a
  | Thrown e => raise e
  end.

(** [try { m } catch (e) { h e }]: a suspended body stays suspended. *)
Definition try_task {A} (m : task A) (h : js_thrown -> task A) : task A := fun r =>
  match m r with
  | Step (Raise e) r' t =>
      match h e r' with
      | Step o r'' t' => Step o r'' (t ++ t')
      end
  | s => s
  end.

(** [await] on a call. *)
Definition await (c : call) : task jsval := fun r =>
  match settles c with
  | Fulfils _ v => Step (Done v) (effect c r) []
  | Rejects _ e => Step (Raise e) (effect c r) []
  | NeverSettles => Step Suspend (effect c r) []
  end.

(** [_log_event(level, message, data)]: the level is compared with the
    current [this.log_level]. *)
Definition _log_event (l : level) (message : string) (data : js_object) : task unit :=
  fun r =>
    if level_map l <=? log_level r then
      Step (Done tt) r
        [Console l ("FILE: event_router.service.js | " +:+ level_name l +:+ " | "
                    +:+ message) data]
    else Step (Done tt) r [].

(** The delay [setTimeout] really uses: Node replaces a delay below 1 or
    above 2147483647 by 1. *)
Definition timer_delay (ms : Z) : Z :=
  if (ms <? 1) || (2147483647 <? ms) then 1 else ms.

(** [_execute_with_timeout(fn, data, timeout_ms)]: the timer is armed
    before [fn] is called, so it wins against a promise that settles at the
    same millisecond or later; the promise then rejects with the time-out
    error, whatever [fn] does afterwards. *)
Definition _execute_with_timeout (c : call) (timeout_ms : Z) : call :=
  let d := timer_delay timeout_ms in
  let timed_out :=
    Rejects d (ErrorObject ("Handler execution timed out after "
                            +:+ pretty timeout_ms +:+ "ms")) in
  {| effect := effect c;
     settles :=
       match settles c with
       | Fulfils t v => if t <? d then Fulfils t v else timed_out
       | Rejects t e => if t <? d then Rejects t e else timed_out
       | NeverSettles => timed_out
       end |}.

Definition opt_str (x : option string) : jsval :=
  match x with
  | Some s => JStr s
  | None => JUndefined
  end.

(** [!this.handlers[event_id] && !this.rabbitmq_publishers[event_id]]: an
    array is truthy even when it is empty. *)
Definition no_route (r : router) (event_id : string) : bool :=
  bool_decide (handlers r !! event_id = None)
  && bool_decide (rabbitmq_publishers r !! event_id = None).

(** ** The listener of [_initialize_router] *)

Section Listener.

(** The functions the router calls are not part of it: what a call of
    each of them does is given from outside. *)
Variable middleware_call : fn_id -> string -> jsval -> call.
Variable handler_call : fn_id -> jsval -> call.
(** [rabbitmq_ops.publishToQueue(queue_name, data, options)].  The
    connector module of this repository exports no [publishToQueue], so
    that there the call raises a [TypeError]; any behaviour is allowed
    here. *)
Variable publishToQueue : string -> jsval -> js_object -> call.

(** [log_context] without its timestamp. *)
Definition log_context (event_id : string) : js_object :=
  [("event_id", JStr event_id); ("execution_time_ms", JNull)].

(** [for (const middleware of this.middlewares)
       processed_event_data = await middleware(event_id, processed_event_data);]
    The loop walks the live array: position [i] is read again after every
    call, so an entry pushed meanwhile is reached too. *)
Fixpoint apply_middlewares (fuel : nat) (i : nat) (event_id : string)
    (processed_event_data : jsval) : task jsval := fun r =>
  match fuel with
  | O => Step NoFuel r []
  | S fuel' =>
      match middlewares r !! i with
      | None => Step (Done processed_event_data) r []
      | Some middleware =>
          (observe [CallMiddleware middleware event_id processed_event_data] ;;
           data ← await (middleware_call middleware event_id processed_event_data) ;
           apply_middlewares fuel' (S i) event_id data) r
      end
  end.

(** The body of [for (const handler of sorted_handlers)]: one handler. *)
Definition execute_handler (event_id : string) (processed_event_data : jsval)
    (h : handler) : task unit :=
  try_task
    (observe [CallHandler h processed_event_data] ;;
     (if truthy_num (timeout h) then
        await (_execute_with_timeout (handler_call (fn h) processed_event_data)
                 (default 0 (timeout h)))
      else
        await (handler_call (fn h) processed_event_data)) ;;
     observe [SettledHandler h HandlerFulfilled])
    (fun handler_error =>
       observe [SettledHandler h (HandlerRejected handler_error)] ;;
       message ← lift (read_message handler_error) ;
       _log_event lvl_error ("Handler error for event " +:+ event_id)
         (log_context event_id
            ++ [("handler", JStr (or_str (Some (name h)) "anonymous"));
                ("error", opt_str message)])).

Fixpoint execute_handlers (event_id : string) (processed_event_data : jsval)
    (sorted_handlers : list handler) : task unit :=
  match sorted_handlers with
  | [] => mret tt
  | h :: rest =>
      execute_handler event_id processed_event_data h ;;
      execute_handlers event_id processed_event_data rest
  end.

(** Lines 126 to 131: [if (this.rabbitmq_publishers[event_id]) { ... }]. *)
Definition forward_to_queue (event_id : string) (processed_event_data : jsval)
    : task unit :=
  bound ← (fun r => Step (Done (rabbitmq_publishers r !! event_id)) r []) ;
  match bound with
  | Some p =>
      observe [PublishToQueue (queue_name p) processed_event_data (options p)] ;;
      await (publishToQueue (queue_name p) processed_event_data (options p)) ;;
      _log_event lvl_debug ("Published event to RabbitMQ queue: " +:+ queue_name p)
        (log_context event_id)
  | None => mret tt
  end.

(** Lines 95 to 138: what the [try] block does once the guard has let the
    event through.  The handlers are read from the router after the
    middlewares have run, and a sorted copy of them is walked. *)
Definition process_event (fuel : nat) (event_id : string) (event_data : js_object)
    : task unit :=
  processed_event_data ← apply_middlewares fuel 0 event_id (JObj event_data) ;
  registered ← (fun r => Step (Done (handlers_of r event_id)) r []) ;
  (if (0 <? length registered)%nat then
     execute_handlers event_id processed_event_data (sort_by_priority registered)
   else mret tt) ;;
  forward_to_queue event_id processed_event_data ;;
  _log_event lvl_debug ("Event processing completed: " +:+ event_id)
    (log_context event_id).

(** The [try] block of the listener. *)
Definition try_block (fuel : nat) (event_id : string) (event_data : js_object)
    : task unit :=
  _log_event lvl_debug ("Received event: " +:+ event_id)
    (log_context event_id ++ [("event_data", JObj event_data)]) ;;
  skip ← (fun r => Step (Done (no_route r event_id)) r []) ;
  if skip : bool then
    _log_event lvl_warn ("No handlers registered for event: " +:+ event_id)
      (log_context event_id)
  else
    process_event fuel event_id event_data.

(** The [catch (error)] of the listener: [error.message] and [error.stack]
    are read while the argument of [_log_event] is built (the stack is not
    kept in the logged fields). *)
Definition on_dispatch_error (event_id : string) (err : js_thrown) : task unit :=
  observe [Console lvl_error
             ("FILE: event_router.service.js | _initialize_router | Error processing event: "
              +:+ event_id) []] ;;
  message ← lift (read_message err) ;
  _log_event lvl_error ("Error processing event: " +:+ event_id)
    (log_context event_id ++ [("error", opt_str message)]).

(** The whole [async (event_id, event_data) => { ... }]. *)
Definition listener (fuel : nat) (event_id : string) (event_data : js_object)
    : task unit :=
  try_task (try_block fuel event_id event_data) (on_dispatch_error event_id).

(** The state of the promise the [async] listener returns. *)
Inductive promise_state : Type :=
  | Fulfilled
  | Rejected (e : js_thrown)
  | Pending
  | Unknown.

Definition promise_of (f : flow unit) : promise_state :=
  match f with
  | Done _ => Fulfilled
  | Raise e => Rejected e
  | Suspend => Pending
  | NoFuel => Unknown
  end.

(** Modelled from the spec: the emitter module
    ([_core_app_connectivities/emitter]) is not among the sources.  The
    ingress call [eventEmitter.emit('event_router', event_id, event_data)]
    is fire-and-forget: the emitter calls the listener and drops the
    promise that the [async] listener returns, so the producer gets
    [true] back whatever the state of that promise. *)
Definition emit (fuel : nat) (event_id : string) (event_data : js_object)
    (r : router) : completion bool :=
  match promise_of (outcome (listener fuel event_id event_data r)) with
  | Fulfilled | Rejected _ | Pending | Unknown => Returned true
  end.

(** The promise the listener awaits for handler [h]. *)
Definition awaited (h : handler) (data : jsval) : call :=
  if truthy_num (timeout h) then
    _execute_with_timeout (handler_call (fn h) data) (default 0 (timeout h))
  else handler_call (fn h) data.

Definition handler_error_log (event_id : string) (h : handler)
    (message : option string) : task unit :=
  _log_event lvl_error ("Handler error for event " +:+ event_id)
    (log_context event_id
       ++ [("handler", JStr (or_str (Some (name h)) "anonymous"));
           ("error", opt_str message)]).

(** The lines written after the handler loop: the forward and the last
    log line. *)
Definition after_handlers (event_id : string) (data : jsval) : task unit :=
  forward_to_queue event_id data ;;
  _log_event lvl_debug ("Event processing completed: " +:+ event_id)
    (log_context event_id).


(** A handler the loop gets past: its promise (raced against the timer when
    a timeout is set) settles, and not by a rejection with [undefined] or
    [null], whose [.message] cannot be read in the [catch]. *)
Definition gets_past (h : handler) (data : jsval) : Prop :=
  match settles (awaited h data) with
  | Fulfils _ _ => True
  | Rejects _ e => e ≠ NullishValue
  | NeverSettles => False
  end.

End Listener.

(** ** Vocabulary for the statements about the router *)

Definition by_priority (a b : handler) : Prop := priority a <= priority b.

(** The entries of priority [p], in the order they have in the list. *)
Definition with_priority (p : Z) (l : list handler) : list handler :=
  filter (fun h => priority h = p) l.

Definition handler_calls (t : list obs) : list handler :=
  omap (fun o => match o with CallHandler h _ => Some h | _ => None end) t.

Definition publish_calls (t : list obs) : list string :=
  omap (fun o => match o with PublishToQueue q _ _ => Some q | _ => None end) t.

Definition is_console (o : obs) : Prop :=
  match o with Console _ _ _ => True | _ => False end.

Definition is_middleware_call (o : obs) : Prop :=
  match o with CallMiddleware _ _ _ => True | _ => False end.

(** What is written before the first handler starts. *)
Definition is_prelude (o : obs) : Prop := is_console o \/ is_middleware_call o.

(** Neither the start nor the end of a handler. *)
Definition not_handler_event (o : obs) : Prop :=
  match o with CallHandler _ _ | SettledHandler _ _ => False | _ => True end.

(** Neither the start of a handler nor a forward to the queue. *)
Definition no_work (o : obs) : Prop :=
  match o with CallHandler _ _ | PublishToQueue _ _ _ => False | _ => True end.

(** The shape of the handler part of a trace: the handlers that were
    started, each followed at once by its settlement and by the lines logged
    for it, except for a last one that never settles. *)
Inductive handler_trace : list handler -> list obs -> Prop :=
  | ht_none : handler_trace [] []
  | ht_suspended h d : handler_trace [h] [CallHandler h d]
  | ht_settled h d how logs called t :
      Forall is_console logs ->
      handler_trace called t ->
      handler_trace (h :: called) (CallHandler h d :: SettledHandler h how :: logs ++ t).

End Router.

Import Router.

(** ** Regular expressions, as [String.prototype.match] runs them

    The two patterns of [extract_stack_trace] are run by a backtracking
    matcher: quantifiers are greedy, alternatives are tried in order, the
    first start position that matches wins, and a group keeps the text it
    matched last.  A string is a sequence of one-byte characters here. *)

Module Regex.

Inductive char_class : Type :=
  | Lit (c : ascii)   (* the character itself *)
  | AnyChar           (* [.]: anything but a line terminator *)
  | Space             (* [\s] *)
  | Digit.            (* [\d] *)

Inductive regex : Type :=
  | Empty
  | Chr (c : char_class)
  | Seq (r1 r2 : regex)
  | Star (r : regex)              (* [r*], greedy *)
  | Group (n : nat) (r : regex).  (* the [n]-th capturing group *)

(** [r+] *)
Definition Plus (r : regex) : regex := Seq r (Star r).

Definition in_class (cl : char_class) (c : ascii) : bool :=
  let n := nat_of_ascii c in
  match cl with
  | Lit c' => bool_decide (c = c')
  | AnyChar => negb (bool_decide (n = 10%nat) || bool_decide (n = 13%nat))
  | Space =>
      bool_decide (n = 32%nat) || bool_decide (n = 160%nat)
      || (Nat.leb 9 n && Nat.leb n 13)
  | Digit => Nat.leb 48 n && Nat.leb n 57
  end.

Definition captures : Type := list (nat * string).

(** The first [n] characters of [s]. *)
Definition take_string (n : nat) (s : string) : string := String.substring 0 n s.

(** [rmatch r s caps k]: match [r] at the front of [s], then hand the rest
    of the input to [k]; when [k] fails, the next alternative of [r] is
    tried.  An iteration of a star that consumes nothing is refused. *)
Fixpoint rmatch (r : regex) (s : string) (caps : captures)
    (k : string -> captures -> option captures) : option captures :=
  match r with
  | Empty => k s caps
  | Chr cl =>
      match s with
      | String c s' => if in_class cl c then k s' caps else None
      | EmptyString => None
      end
  | Seq r1 r2 => rmatch r1 s caps (fun s' caps' => rmatch r2 s' caps' k)
  | Star r' =>
      (fix iterate (n : nat) (s : string) (caps : captures) : option captures :=
         match n with
         | O => k s caps
         | S n' =>
             match
               rmatch r' s caps (fun s' caps' =>
                 if Nat.ltb (String.length s') (String.length s)
                 then iterate n' s' caps' else None)
             with
             | Some found => Some found
             | None => k s caps
             end
         end) (String.length s) s caps
  | Group n r' =>
      rmatch r' s caps (fun s' caps' =>
        k s' ((n, take_string (String.length s - String.length s') s) :: caps'))
  end.

(** The match that starts earliest. *)
Fixpoint search (r : regex) (s : string) : option captures :=
  match rmatch r s [] (fun _ caps => Some caps) with
  | Some caps => Some caps
  | None =>
      match s with
      | String _ s' => search r s'
      | EmptyString => None
      end
  end.

(** The text of group [n] in the result of a match. *)
Fixpoint group (n : nat) (caps : captures) : string :=
  match caps with
  | [] => ""
  | (m, text) :: rest => if Nat.eqb n m then text else group n rest
  end.

Definition lit (s : string) : regex :=
  (fix go (s : string) : regex :=
     match s with
     | EmptyString => Empty
     | String c s' => Seq (Chr (Lit c)) (go s')
     end) s.

End Regex.

(** ** The Munshi service *)

Module Munshi.

Import Regex.

(** Configuration constants. *)
Definition munshi_app_id : Z := 1020.
Definition munshi_ttl : Z := 2592000.
Definition munshi_queue_name : string := "VT_MUNSHI_SERVICE_MAIN".
Definition munshi_app_address : string := "172.18.0.26:7575".
Definition munshi_app_api_key : string := "24df7feb2b3942a32273d55fe25f1".

(** An [Error] object: its message and its formatted trace, which may be
    missing. *)
Record js_error : Type := JsError {
  message : string;
  stack : option string
}.

(** The [event_data] of an error report.  The [error] field is documented
    as required and every caller passes the caught error, so it is always
    present; the other fields are optional. *)
Record error_report : Type := ErrorReport {
  error : js_error;
  error_code : option string;
  error_title : option string;
  error_type : option string;
  metadata : option js_object;
  other_data : option js_object;
  nonblocking : option Z;
  ttl : option Z
}.

Record origin_trace : Type := OriginTrace {
  file_path : string;
  file_name : string;
  function_name : string;
  line_no : Z;
  column_no : Z
}.

(** [system_log_data] *)
Record system_log : Type := SystemLog {
  sl_app_id : Z;
  sl_error_code : option string;
  sl_error_title : option string;
  sl_origin_trace : origin_trace;
  sl_metadata : js_object;
  sl_other_data : js_object;
  sl_ttl : Z;
  sl_entry_time : Z
}.

(** The [event_data] of an activity report. *)
Record activity_report : Type := ActivityReport {
  log_type : option string;
  plain_text : option string;
  oneid : option Z;
  org_id : option Z;
  entity_id : option string;
  entity_type : option string;
  a_metadata : option js_object;
  changes : option (list jsval);
  a_other_data : option js_object;
  a_ttl : option Z
}.

(** [general_log_data] *)
Record general_log : Type := GeneralLog {
  gl_app_id : Z;
  gl_oneid : option Z;
  gl_org_id : option Z;
  gl_entity_id : option string;
  gl_entity_type : option string;
  gl_log_type : option string;
  gl_plain_text : option string;
  gl_metadata : js_object;
  gl_changes : list jsval;
  gl_other_data : js_object;
  gl_ttl : Z;
  gl_entry_time : Z
}.

Inductive envelope : Type :=
  | System (e : system_log)
  | General (e : general_log).

Definition envelope_ttl (e : envelope) : Z :=
  match e with
  | System s => sl_ttl s
  | General g => gl_ttl g
  end.

(** [{ ...envelope, log_type, queued_at }] *)
Record queue_message : Type := QueueMessage {
  body : envelope;
  qm_log_type : option string;
  queued_at : Z
}.

(** [{ ...o, key: v }]: a key that is already there keeps its place and
    takes the new value. *)
Fixpoint set_field (o : js_object) (key : string) (v : jsval) : js_object :=
  match o with
  | [] => [(key, v)]
  | (k, w) :: rest =>
      if decide (k = key) then (k, v) :: rest else (k, w) :: set_field rest key v
  end.

(** *** Stack traces *)

(** [s.split('\n')] *)
Fixpoint split_lines (s : string) : list string :=
  match s with
  | EmptyString => [""]
  | String c s' =>
      if bool_decide (nat_of_ascii c = 10%nat) then "" :: split_lines s'
      else
        match split_lines s' with
        | first :: others => String c first :: others
        | [] => [String c ""]
        end
  end.

(** The named frame, [at], blanks, a function name, blanks and
    [(file:line:column)]; written with a blank inside each group:
    [/at\s+(.* )\s+\((.* ):(\d+):(\d+)\)/]. *)
Definition named_frame : regex :=
  Seq (lit "at") (Seq (Plus (Chr Space)) (Seq (Group 1 (Star (Chr AnyChar)))
  (Seq (Plus (Chr Space)) (Seq (lit "(") (Seq (Group 2 (Star (Chr AnyChar)))
  (Seq (lit ":") (Seq (Group 3 (Plus (Chr Digit)))
  (Seq (lit ":") (Seq (Group 4 (Plus (Chr Digit))) (lit ")")))))))))).

(** The anonymous frame, [at], blanks and [file:line:column], with an
    empty first group so that the groups keep their numbers:
    [/at\s+()(.* ):(\d+):(\d+)/]. *)
Definition anonymous_frame : regex :=
  Seq (lit "at") (Seq (Plus (Chr Space)) (Seq (Group 1 Empty)
  (Seq (Group 2 (Star (Chr AnyChar)))
  (Seq (lit ":") (Seq (Group 3 (Plus (Chr Digit)))
  (Seq (lit ":") (Group 4 (Plus (Chr Digit))))))))).

(** [path.basename(p)] of the POSIX flavour: trailing slashes are dropped,
    then what follows the last slash is kept. *)
Definition is_slash (c : ascii) : bool := bool_decide (nat_of_ascii c = 47%nat).

Fixpoint drop_slashes (l : list ascii) : list ascii :=
  match l with
  | c :: l' => if is_slash c then drop_slashes l' else l
  | [] => []
  end.

Fixpoint until_slash (l : list ascii) : list ascii :=
  match l with
  | c :: l' => if is_slash c then [] else c :: until_slash l'
  | [] => []
  end.

Definition basename (p : string) : string :=
  string_of_list_ascii
    (rev (until_slash (drop_slashes (rev (list_ascii_of_string p))))).

(** [parseInt(digits, 10)] on a run of decimal digits. *)
Definition parseInt (digits : string) : Z :=
  fold_left (fun acc c => 10 * acc + (Z.of_nat (nat_of_ascii c) - 48))
    (list_ascii_of_string digits) 0.

Definition unknown_trace : origin_trace :=
  {| file_path := "unknown"; file_name := "unknown.js";
     function_name := "anonymous"; line_no := 0; column_no := 0 |}.

(** [caller_line.match(named) || caller_line.match(anonymous)] *)
Definition match_frame (caller_line : string) : option captures :=
  match search named_frame caller_line with
  | Some found => Some found
  | None => search anonymous_frame caller_line
  end.

(** A text without a line feed. *)
Fixpoint single_line (s : string) : bool :=
  match s with
  | EmptyString => true
  | String c s' => negb (bool_decide (nat_of_ascii c = 10%nat)) && single_line s'
  end.

Definition line_feed : string := String (ascii_of_nat 10) "".

(** The second line of the trace: [stack_lines[1] || '']. *)
Definition caller_line_of (stack_text : string) : string :=
  nth 1 (split_lines stack_text) "".

(** The [try] block of [extract_stack_trace]: reading [.split] of a missing
    trace raises a [TypeError]. *)
Definition extract_stack_trace_body (err : js_error) : completion origin_trace :=
  match stack err with
  | None =>
      Thrown (ErrorObject "Cannot read properties of undefined (reading 'split')")
  | Some stack_text =>
      let caller_line := caller_line_of stack_text in
      match match_frame caller_line with
      | None => Returned unknown_trace
      | Some found =>
          let func_name := group 1 found in
          let file_path := group 2 found in
          Returned
            {| file_path := file_path;
               file_name := basename file_path;
               function_name := or_str (Some func_name) "anonymous";
               line_no := parseInt (group 3 found);
               column_no := parseInt (group 4 found) |}
      end
  end.

(** [extract_stack_trace(error)] *)
Definition extract_stack_trace (err : js_error) : completion origin_trace :=
  try_catch (extract_stack_trace_body err) (fun _ => Returned unknown_trace).

(** *** The outside world of the service *)

(** A task handed to [setTimeout]: the two retry closures of the source,
    with what they captured. *)
Inductive deferred : Type :=
  | RetrySystemLog (data : system_log) (code : option string)
  | RetryGeneralLog (data : general_log) (type : option string).

(** What the service does to the outside, in order: a line on the console,
    a send to the queue, an HTTP post, the arming of a timer. *)
Inductive action : Type :=
  | ConsoleLine (l : level) (text : string)
  | SendToRabbitMQ (queue : string) (msg : queue_message)
  | AxiosPost (url : string) (data : envelope) (api_key : string) (timeout_ms : Z)
  | SetTimeout (task : deferred) (delay_ms : Z).

(** The clock ([Date.now()], in milliseconds), what was done so far, and
    the timers that are armed. *)
Record world : Type := World {
  clock : Z;
  done_so_far : list action;
  timers : list (deferred * Z)
}.

Definition io (A : Type) : Type := world -> completion A * world.

#[export] Instance io_ret : MRet io := fun A a w => (Returned a, w).

#[export] Instance io_bind : MBind io := fun A B k m w =>
  match m w with
  | (Returned a, w') => k a w'
  | (Thrown e, w') => (Thrown e, w')
  end.

(** [try { m } catch (e) { h e }] *)
Definition try_io {A} (m : io A) (h : js_thrown -> io A) : io A := fun w =>
  match m w with
  | (Returned a, w') => (Returned a, w')
  | (Thrown e, w') => h e w'
  end.

Definition act (a : action) : io unit := fun w =>
  (Returned tt,
   {| clock := clock w; done_so_far := done_so_far w ++ [a]; timers := timers w |}).

(** [console.error], [console.warn], [console.info] and [console.log], told
    apart by the level of the same name ([console.log] is [lvl_debug]);
    every line of the service starts with its file name. *)
Definition console (l : level) (text : string) : io unit :=
  act (ConsoleLine l ("FILE: munshi.service.js | " +:+ text)).

(** [Math.floor(Date.now() / 1000)] *)
Definition unix_seconds : io Z := fun w => (Returned (clock w / 1000), w).

(** [setTimeout(task, delay_ms)] *)
Definition setTimeout (task : deferred) (delay_ms : Z) : io unit := fun w =>
  (Returned tt,
   {| clock := clock w;
      done_so_far := done_so_far w ++ [SetTimeout task delay_ms];
      timers := timers w ++ [(task, delay_ms)] |}).

Definition queue_sends (l : list action) : list queue_message :=
  omap (fun a => match a with SendToRabbitMQ _ msg => Some msg | _ => None end) l.

Definition http_posts (l : list action) : list envelope :=
  omap (fun a => match a with AxiosPost _ data _ _ => Some data | _ => None end) l.

Definition scheduled (l : list action) : list (deferred * Z) :=
  omap (fun a => match a with SetTimeout t d => Some (t, d) | _ => None end) l.

(** How a transport answers.  Both connectors fail with an [Error] object
    (what amqplib and axios reject with, or the [TypeError] of a missing
    channel), so a failure carries a message. *)
Inductive queue_answer : Type :=
  | Queued
  | QueueError (message : string).

Inductive http_answer : Type :=
  | Response (status : Z)
  | RequestError (message : string).

Section Service.

(** The answer of the queue to the send number [n] (counted from 0 over
    the whole life of the process), and of the HTTP endpoint to the post
    number [n]. *)
Variable queue : nat -> string -> queue_message -> queue_answer.
Variable http : nat -> string -> envelope -> http_answer.

(** [await rabbitmq_ops.sendToRabbitMQ(queue, message)], seen from the
    service: the connector's own retries happen inside the call. *)
Definition sendToRabbitMQ (name : string) (msg : queue_message) : io unit := fun w =>
  let n := length (queue_sends (done_so_far w)) in
  match act (SendToRabbitMQ name msg) w with
  | (_, w') =>
      match queue n name msg with
      | Queued => (Returned tt, w')
      | QueueError m => (Thrown (ErrorObject m), w')
      end
  end.

(** [await axios.post(api_url, log_data, { headers, timeout: 5000 })] *)
Definition axios_post (url : string) (data : envelope) : io Z := fun w =>
  let n := length (http_posts (done_so_far w)) in
  match act (AxiosPost url data munshi_app_api_key 5000) w with
  | (_, w') =>
      match http n url data with
      | Response status => (Returned status, w')
      | RequestError m => (Thrown (ErrorObject m), w')
      end
  end.

(** [log_data.error_code || log_data.log_type] *)
Definition envelope_label (data : envelope) : option string :=
  match data with
  | System s => or_str_null (sl_error_code s)
  | General g => gl_log_type g
  end.

(** [send_log_to_munshi_api(log_data, log_category = 'system')] *)
Definition send_log_to_munshi_api (log_data : envelope) (log_category : string)
    : io bool :=
  try_io
    (let api_url := "http://" +:+ munshi_app_address +:+ "/api/logs/" +:+ log_category in
     console lvl_debug ("send_log_to_munshi_api | Sending " +:+ log_category
                        +:+ " log to Munshi API: " +:+ show (envelope_label log_data)) ;;
     status ← axios_post api_url log_data ;
     if (status =? 200) || (status =? 201) then
       console lvl_debug "send_log_to_munshi_api | Successfully sent log to Munshi API" ;;
       mret true
     else
       console lvl_warn ("send_log_to_munshi_api | Unexpected response status: "
                         +:+ pretty status) ;;
       mret false)
    (fun err =>
       message ← (fun w => (read_message err, w)) ;
       console lvl_error ("send_log_to_munshi_api | Failed to send log to Munshi API: "
                          +:+ show message) ;;
       mret false).

(** Lines 219 to 247 of [report_to_munshi]: the envelope. *)
Definition build_system_log (event_data : error_report) (now : Z)
    : completion system_log :=
  origin ← extract_stack_trace (error event_data) ;
  let ttl := or_num (ttl event_data) munshi_ttl in
  let metadata :=
    set_field (set_field (set_field (default [] (metadata event_data))
      "reported_via" (JStr "munshi_service"))
      "error_type" (opt_str (error_type event_data)))
      "nonblocking" (JNum (or_num (nonblocking event_data) 0)) in
  let other_data :=
    set_field (set_field (set_field (default [] (other_data event_data))
      "error_message" (JStr (message (error event_data))))
      "error_stack" (opt_str (stack (error event_data))))
      "reported_at" (JNum now) in
  mret {| sl_app_id := munshi_app_id;
          sl_error_code := error_code event_data;
          sl_error_title := error_title event_data;
          sl_origin_trace := origin;
          sl_metadata := metadata;
          sl_other_data := other_data;
          sl_ttl := ttl;
          sl_entry_time := now |}.

(** [event_data.error_code && event_data.error_code.startsWith('RABBITMQ-')] *)
Definition is_rabbitmq_error (event_data : error_report) : bool :=
  match error_code event_data with
  | Some code => String.prefix "RABBITMQ-" code
  | None => false
  end.

(** [event_data.error_type === 'MQ_ERROR'] *)
Definition is_mq_error (event_data : error_report) : bool :=
  bool_decide (error_type event_data = Some "MQ_ERROR").

(** The queue message of lines 269 to 273 and 291 to 295. *)
Definition system_queue_message (data : system_log) : io queue_message :=
  now ← unix_seconds ;
  mret {| body := System data; qm_log_type := Some "system"; queued_at := now |}.

(** [report_to_munshi(event_data)] *)
Definition report_to_munshi (event_data : error_report) : io unit :=
  try_io
    (console lvl_debug ("report_to_munshi | Processing error: "
                        +:+ show (error_title event_data)
                        +:+ " [" +:+ show (error_type event_data) +:+ "]") ;;
     now ← unix_seconds ;
     system_log_data ← (fun w => (build_system_log event_data now, w)) ;
     if is_rabbitmq_error event_data || is_mq_error event_data then
       console lvl_debug
         "report_to_munshi | Detected RabbitMQ error, using HTTP API fallback" ;;
       api_success ← send_log_to_munshi_api (System system_log_data) "system" ;
       if api_success : bool then
         console lvl_debug ("report_to_munshi | Error reported via HTTP API: "
                            +:+ show (error_code event_data) +:+ " - "
                            +:+ show (error_title event_data))
       else
         console lvl_error
           "report_to_munshi | Failed to report RabbitMQ error via HTTP API"
     else
       try_io
         (queue_message ← system_queue_message system_log_data ;
          sendToRabbitMQ munshi_queue_name queue_message ;;
          console lvl_debug ("report_to_munshi | Error reported to Munshi queue: "
                             +:+ show (error_code event_data) +:+ " - "
                             +:+ show (error_title event_data)))
         (fun queue_error =>
            message ← (fun w => (read_message queue_error, w)) ;
            console lvl_error
              ("report_to_munshi | Failed to report to queue, attempting HTTP API fallback: "
               +:+ show message) ;;
            api_success ← send_log_to_munshi_api (System system_log_data) "system" ;
            if api_success : bool then
              console lvl_debug ("report_to_munshi | Error reported via HTTP API fallback: "
                                 +:+ show (error_code event_data))
            else
              console lvl_error
                ("report_to_munshi | Both queue and HTTP API failed for error: "
                 +:+ show (error_code event_data)) ;;
              setTimeout (RetrySystemLog system_log_data (error_code event_data)) 2000))
    (fun _ =>
       console lvl_error "report_to_munshi | Error processing error data:").

(** Lines 331 to 354 of [publish_general_log]: the envelope. *)
Definition build_general_log (event_data : activity_report) (now : Z) : general_log :=
  let ttl := or_num (a_ttl event_data) munshi_ttl in
  {| gl_app_id := munshi_app_id;
     gl_oneid := or_null (oneid event_data);
     gl_org_id := or_null (org_id event_data);
     gl_entity_id := or_str_null (entity_id event_data);
     gl_entity_type := or_str_null (entity_type event_data);
     gl_log_type := log_type event_data;
     gl_plain_text := plain_text event_data;
     gl_metadata :=
       set_field (default [] (a_metadata event_data))
         "reported_via" (JStr "munshi_service");
     gl_changes := default [] (changes event_data);
     gl_other_data :=
       set_field (default [] (a_other_data event_data)) "reported_at" (JNum now);
     gl_ttl := ttl;
     gl_entry_time := now |}.

Definition general_queue_message (data : general_log) (type : option string)
    : io queue_message :=
  now ← unix_seconds ;
  mret {| body := General data; qm_log_type := type; queued_at := now |}.

(** [publish_general_log(event_data)] *)
Definition publish_general_log (event_data : activity_report) : io unit :=
  try_io
    (console lvl_debug ("publish_general_log | Processing general log: "
                        +:+ show (log_type event_data) +:+ " - "
                        +:+ show (plain_text event_data)) ;;
     now ← unix_seconds ;
     let general_log_data := build_general_log event_data now in
     try_io
       (queue_message ← general_queue_message general_log_data (log_type event_data) ;
        sendToRabbitMQ munshi_queue_name queue_message ;;
        console lvl_debug ("publish_general_log | General log published to Munshi queue: "
                           +:+ show (log_type event_data) +:+ " - "
                           +:+ show (plain_text event_data)))
       (fun queue_error =>
          message ← (fun w => (read_message queue_error, w)) ;
          console lvl_error
            ("publish_general_log | Failed to publish to queue, attempting HTTP API fallback: "
             +:+ show message) ;;
          api_success ← send_log_to_munshi_api (General general_log_data) "general" ;
          if api_success : bool then
            console lvl_debug
              ("publish_general_log | General log published via HTTP API fallback: "
               +:+ show (log_type event_data))
          else
            console lvl_error
              ("publish_general_log | Both queue and HTTP API failed for log: "
               +:+ show (log_type event_data)) ;;
            setTimeout (RetryGeneralLog general_log_data (log_type event_data)) 2000))
    (fun _ =>
       console lvl_error "publish_general_log | Error processing general log data:").

(** The body of the two [setTimeout] callbacks: one more send to the
    queue, whose result is only printed. *)
Definition run_deferred (task : deferred) : io unit :=
  match task with
  | RetrySystemLog data code =>
      try_io
        (queue_message ← system_queue_message data ;
         sendToRabbitMQ munshi_queue_name queue_message ;;
         console lvl_debug ("report_to_munshi | Queue retry successful for error: "
                            +:+ show code))
        (fun retry_error =>
           message ← (fun w => (read_message retry_error, w)) ;
           console lvl_error ("report_to_munshi | Queue retry also failed for error: "
                              +:+ show code +:+ " " +:+ show message))
  | RetryGeneralLog data type =>
      try_io
        (queue_message ← general_queue_message data type ;
         sendToRabbitMQ munshi_queue_name queue_message ;;
         console lvl_debug ("publish_general_log | Queue retry successful for log: "
                            +:+ show type))
        (fun retry_error =>
           message ← (fun w => (read_message retry_error, w)) ;
           console lvl_error ("publish_general_log | Queue retry also failed for log: "
                              +:+ show type +:+ " " +:+ show message))
  end.

(** The event loop fires the oldest armed timer: the clock moves on by its
    delay and the callback runs.  Nothing happens when no timer is armed. *)
Definition fire_timer : io unit := fun w =>
  match timers w with
  | [] => (Returned tt, w)
  | (task, delay_ms) :: rest =>
      run_deferred task
        {| clock := clock w + timer_delay delay_ms;
           done_so_far := done_so_far w;
           timers := rest |}
  end.

End Service.

(** *** Vocabulary for the statements about the service *)

Definition is_print (a : action) : bool :=
  match a with
  | ConsoleLine _ _ => true
  | _ => false
  end.

(** What is left of a run when the console lines are taken out. *)
Definition transports (l : list action) : list action :=
  filter (fun a => negb (is_print a)) l.

(** Transport attempts: sends to the queue and HTTP posts. *)
Definition attempts (l : list action) : nat :=
  (length (queue_sends l) + length (http_posts l))%nat.

(** [response.status === 200 || response.status === 201] *)
Definition accepted (a : http_answer) : bool :=
  match a with
  | Response status => (status =? 200) || (status =? 201)
  | RequestError _ => false
  end.

(** A report about the queue itself: tagged [MQ_ERROR], or with a code that
    starts with [RABBITMQ-]. *)
Definition circular (event_data : error_report) : Prop :=
  error_type event_data = Some "MQ_ERROR" \/
  exists rest, error_code event_data = Some ("RABBITMQ-" +:+ rest).

(** The world after [new] more actions and with the timers [armed]. *)
Definition extend (w : world) (new : list action) (armed : list (deferred * Z))
    : world :=
  {| clock := clock w; done_so_far := done_so_far w ++ new; timers := armed |}.

(** The URL the fallback posts to. *)
Definition api_url (log_category : string) : string :=
  "http://" +:+ munshi_app_address +:+ "/api/logs/" +:+ log_category.

(** The message a report puts on the queue at second [now]. *)
Definition system_message (data : system_log) (now : Z) : queue_message :=
  {| body := System data; qm_log_type := Some "system"; queued_at := now |}.

Definition general_message (data : general_log) (type : option string) (now : Z)
    : queue_message :=
  {| body := General data; qm_log_type := type; queued_at := now |}.

(** The message a deferred task sends when it runs at second [now]. *)
Definition retry_message (task : deferred) (now : Z) : queue_message :=
  match task with
  | RetrySystemLog data _ => system_message data now
  | RetryGeneralLog data type => general_message data type now
  end.

End Munshi.

(** ** Concrete routers and callees used in the examples *)

Module Scenario.

Definition no_options : handler_options := HandlerOptions None None None.

Definition with_priority_option (p : Z) : handler_options :=
  HandlerOptions (Some p) None None.

(** The router after a call that returned; the router as it was when the
    call raised. *)
Definition after (c : completion router) (r : router) : router :=
  match c with
  | Returned r' => r'
  | Thrown _ => r
  end.

Definition register (r : router) (event_id : string) (f : fn_id)
    (opts : handler_options) : router :=
  after (register_handler r event_id f opts) r.

(** A callee that changes nothing and returns at once. *)
Definition idle (v : jsval) : call := {| effect := fun r => r; settles := Fulfils 0 v |}.

Definition idle_publisher (_ : string) (_ : jsval) (_ : js_object) : call :=
  idle JUndefined.

(** One handler registered for ["ORDER_PLACED"], and one middleware (function
    10) that registers a second handler (function 2) when it runs. *)
Definition late_router : router :=
  use (register new_router "ORDER_PLACED" 1 no_options) 10.

Definition late_middleware (f : fn_id) (event_id : string) (data : jsval) : call :=
  if decide (f = 10%nat) then
    {| effect := fun r => register r "ORDER_PLACED" 2 no_options;
       settles := Fulfils 0 data |}
  else idle data.

Definition idle_handler (_ : fn_id) (_ : jsval) : call := idle JUndefined.

(** The same function registered twice for one event. *)
Definition twice_router : router :=
  register (register new_router "USER_CREATED" 7 no_options) "USER_CREATED" 7 no_options.

(** Two handlers and a bound queue; the first handler (function 1) rejects
    with [rejection], the second (function 2) returns. *)
Definition guarded_router : router :=
  after (register_rabbitmq_publisher
           (register (register new_router "SEND_EMAIL" 1 (with_priority_option 1))
              "SEND_EMAIL" 2 (with_priority_option 2))
           "SEND_EMAIL" "email_queue" []) new_router.

Definition rejecting_handler (rejection : js_thrown) (f : fn_id) (_ : jsval) : call :=
  if decide (f = 1%nat) then {| effect := fun r => r; settles := Rejects 0 rejection |}
  else idle JUndefined.

Definition idle_middleware (_ : fn_id) (_ : string) (data : jsval) : call := idle data.

(** A middleware that throws, in front of one handler and a bound queue. *)
Definition faulty_router : router := use guarded_router 10.

Definition throwing_middleware (_ : fn_id) (_ : string) (_ : jsval) : call :=
  {| effect := fun r => r; settles := Rejects 0 (ErrorObject "bad payload") |}.

End Scenario.

(** ** Concrete reports and transports used in the examples *)

Module Outage.

Import Munshi.

Definition caught : js_error :=
  {| message := "connection refused";
     stack := Some "Error: connection refused
    at do_thing (/app/foo.js:42:7)
    at main (/app/index.js:3:1)" |}.

Definition report (code type : string) (lifetime : option Z) : error_report :=
  {| error := caught; error_code := Some code; error_title := Some "Outage";
     error_type := Some type; metadata := None; other_data := None;
     nonblocking := None; ttl := lifetime |}.

(** A failure of the queue itself, a database failure, and the same with a
    lifetime of one hour and with a negative lifetime. *)
Definition queue_failure : error_report := report "RABBITMQ-CONN-001" "MQ_ERROR" None.
Definition database_failure : error_report := report "DB-CONN-001" "DB_ERROR" None.
Definition hourly : error_report := report "DB-CONN-001" "DB_ERROR" (Some 3600).
Definition negative : error_report := report "DB-CONN-001" "DB_ERROR" (Some (-5)).

Definition activity (lifetime : option Z) : activity_report :=
  {| log_type := Some "USER_LOGIN"; plain_text := Some "User logged in";
     oneid := Some 42; org_id := None; entity_id := None; entity_type := None;
     a_metadata := None; changes := None; a_other_data := None;
     a_ttl := lifetime |}.

Definition queue_up (_ : nat) (_ : string) (_ : queue_message) : queue_answer := Queued.
Definition queue_down (_ : nat) (_ : string) (_ : queue_message) : queue_answer :=
  QueueError "Channel closed".
Definition http_up (_ : nat) (_ : string) (_ : envelope) : http_answer := Response 200.
Definition http_down (_ : nat) (_ : string) (_ : envelope) : http_answer :=
  RequestError "timeout of 5000ms exceeded".

(** A process that has done nothing yet. *)
Definition start : world := {| clock := 1700000000000; done_so_far := []; timers := [] |}.

End Outage.

(** ** More vocabulary for the router *)

(** The payloads handed to the middlewares, in call order. *)
Definition middleware_calls (t : list obs) : list (fn_id * jsval) :=
  omap (fun o => match o with CallMiddleware f _ d => Some (f, d) | _ => None end) t.

(** The observation carries [data] when it is a call of a handler or a
    forward to the queue. *)
Definition carries (data : jsval) (o : obs) : Prop :=
  match o with
  | CallHandler _ d => d = data
  | PublishToQueue _ d _ => d = data
  | _ => True
  end.

(** What [register_handler] stores: a priority and a name that are truthy,
    and a timeout that is [null] or truthy. *)
Definition stored_well (h : handler) : Prop :=
  priority h <> 0 /\ timeout h <> Some 0 /\ name h <> "".

(** The routers that the methods of the class produce from the one the
    constructor builds. *)
Inductive reachable : router -> Prop :=
  | reach_new : reachable new_router
  | reach_register_handler r event_id f opts r' :
      reachable r -> register_handler r event_id f opts = Returned r' -> reachable r'
  | reach_unregister_handler r event_id f :
      reachable r -> reachable (unregister_handler r event_id f)
  | reach_register_publisher r event_id queue opts r' :
      reachable r ->
      register_rabbitmq_publisher r event_id queue opts = Returned r' -> reachable r'
  | reach_unregister_publisher r event_id :
      reachable r -> reachable (unregister_rabbitmq_publisher r event_id)
  | reach_use r f : reachable r -> reachable (use r f)
  | reach_set_log_level r l : reachable r -> reachable (set_log_level r l).

(** The invariant of the registries. *)
Definition sound (r : router) : Prop :=
  (forall event_id hs,
     handlers r !! event_id = Some hs -> event_id <> "" /\ Forall stored_well hs) /\
  (forall event_id p,
     rabbitmq_publishers r !! event_id = Some p -> event_id <> "" /\ queue_name p <> "") /\
  0 <= log_level r <= 3.


(** The lines the listener writes after a forward that went well. *)
Definition is_published_line (o : obs) : Prop :=
  match o with
  | Console lvl_debug text _ =>
      exists queue, text =
        "FILE: event_router.service.js | debug | Published event to RabbitMQ queue: "
        +:+ queue
  | _ => False
  end.

Section Chain.

Variable middleware_call : fn_id -> string -> jsval -> call.

(** [fed event_id input calls output]: each middleware of [calls] got the
    value the one before it returned, the first one got [input], and the
    last one returned [output]. *)
Inductive fed (event_id : string) : jsval -> list (fn_id * jsval) -> jsval -> Prop :=
  | fed_nil d : fed event_id d [] d
  | fed_cons m d t v calls out :
      settles (middleware_call m event_id d) = Fulfils t v ->
      fed event_id v calls out ->
      fed event_id d ((m, d) :: calls) out.

End Chain.

(** The names every object inherits from [Object.prototype]:
    [this.handlers[k]] finds a value for them on an empty registry, and an
    assignment to [__proto__] stores no own property.  The registries are
    read as maps for the other keys. *)
Definition object_prototype_keys : list string :=
  ["constructor"; "hasOwnProperty"; "isPrototypeOf"; "propertyIsEnumerable";
   "toLocaleString"; "toString"; "valueOf"; "__proto__";
   "__defineGetter__"; "__defineSetter__"; "__lookupGetter__"; "__lookupSetter__"].

Definition ordinary_key (k : string) : bool :=
  bool_decide (k ∉ object_prototype_keys).

(** The promise settles less than [d] milliseconds after the call. *)
Definition settles_before (s : settlement) (d : Z) : bool :=
  match s with
  | Fulfils t _ | Rejects t _ => t <? d
  | NeverSettles => false
  end.

(** The error [_execute_with_timeout] rejects with. *)
Definition timed_out (timeout_ms : Z) : js_thrown :=
  ErrorObject ("Handler execution timed out after " +:+ pretty timeout_ms +:+ "ms").

(** ** More vocabulary for the Munshi service *)

(** [o[key]] on an object given by its fields. *)
Fixpoint get_field (o : js_object) (key : string) : option jsval :=
  match o with
  | [] => None
  | (k, v) :: rest => if decide (k = key) then Some v else get_field rest key
  end.

(** No character of the text is a slash. *)
Definition slash_free (s : string) : Prop :=
  Forall (fun c => Munshi.is_slash c = false) (list_ascii_of_string s).

(** ** The queue connector: [_core_app_connectivities/rabbitmq.js]

    [sendToRabbitMQ] is what the Munshi service calls to reach the queue,
    and [RetryQMessage] is the consumer-side helper built on it.  The
    channel is the one of amqplib's callback API: a call of one of its
    methods returns or throws at once (a closed channel, or a channel that
    was never opened), and that is all the connector sees of it. *)

Module RabbitMQ.

Definition MAX_RETRIES : Z := 3.
Definition RETRY_DELAY : Z := 2000.

(** The headers of a message: the retry count, which only [RetryQMessage]
    writes (it is missing or a number), and the other headers. *)
Record headers : Type := Headers {
  x_retry_count : option Z;
  other_headers : js_object
}.

(** [headers = {}] *)
Definition no_headers : headers := {| x_retry_count := None; other_headers := [] |}.

(** A message as the consumer gets it: its headers, and what
    [JSON.parse(msg.content.toString())] makes of its content. *)
Record delivery : Type := Delivery {
  delivery_tag : nat;
  properties_headers : headers;
  content : completion jsval
}.

(** The calls made on [channelMQ]. *)
Inductive channel_call : Type :=
  | AssertQueue (queue : string)
  | Publish (exchange queue : string) (message : jsval) (h : headers)
  | Ack (msg : delivery)
  | Nack (msg : delivery) (allUpTo requeue : bool).

(** What the connector does, in order: a call on the channel, a line on
    the console, a wait. *)
Inductive entry : Type :=
  | Channel (c : channel_call)
  | ConsoleWarn (text : string)
  | ConsoleError (text : string)
  | Sleep (ms : Z).

Definition channel_calls (l : list entry) : list channel_call :=
  omap (fun e => match e with Channel c => Some c | _ => None end) l.

Definition publishes (l : list entry) : list channel_call :=
  omap (fun e => match e with
                 | Channel (Publish x q m h) => Some (Publish x q m h)
                 | _ => None
                 end) l.

Definition sleeps (l : list entry) : list Z :=
  omap (fun e => match e with Sleep ms => Some ms | _ => None end) l.

(** The acknowledgements, positive and negative. *)
Definition settlements (l : list entry) : list channel_call :=
  omap (fun e => match e with
                 | Channel (Ack m) => Some (Ack m)
                 | Channel (Nack m a r) => Some (Nack m a r)
                 | _ => None
                 end) l.

(** What was done so far is threaded through the connector, with the
    exception a call may end with. *)
Definition script (A : Type) : Type := list entry -> completion A * list entry.

#[export] Instance script_ret : MRet script := fun A a done => (Returned a, done).

#[export] Instance script_bind : MBind script := fun A B k m done =>
  match m done with
  | (Returned a, done') => k a done'
  | (Thrown e, done') => (Thrown e, done')
  end.

(** [try { m } catch (e) { h e }] *)
Definition try_script {A} (m : script A) (h : js_thrown -> script A) : script A :=
  fun done =>
    match m done with
    | (Returned a, done') => (Returned a, done')
    | (Thrown e, done') => h e done'
    end.

Definition note (e : entry) : script unit := fun done => (Returned tt, done ++ [e]).

Definition throw {A} (e : js_thrown) : script A := fun done => (Thrown e, done).

Section Connector.

(** Whether the call number [n] on the channel (counted from 0) returns,
    or what it throws. *)
Variable answers : nat -> channel_call -> option js_thrown.

Definition on_channel (c : channel_call) : script unit := fun done =>
  match answers (length (channel_calls done)) c with
  | None => (Returned tt, done ++ [Channel c])
  | Some e => (Thrown e, done ++ [Channel c])
  end.

(** [sendMessage]: the loop [for (attempt = 1; attempt <= MAX_RETRIES;
    attempt++)], with [attempts_left] turns to go. *)
Fixpoint sendMessage (attempts_left : nat) (attempt : Z) (exchange queue : string)
    (message : jsval) (h : headers) : script unit :=
  match attempts_left with
  | O => mret tt
  | S remaining =>
      try_script (on_channel (Publish exchange queue message h))
        (fun rabbitMQError =>
           note (ConsoleWarn ("Attempt " +:+ pretty attempt
                              +:+ " failed when sending to RabbitMQ. Retrying in "
                              +:+ pretty RETRY_DELAY +:+ "ms...")) ;;
           if attempt <? MAX_RETRIES then
             note (Sleep RETRY_DELAY) ;;
             sendMessage remaining (attempt + 1) exchange queue message h
           else
             note (ConsoleError "Max retries reached. Failed to send to RabbitMQ:") ;;
             throw rabbitMQError)
  end.

(** [sendToRabbitMQ(queue, messages, headers = {}, exchange = '')]: an
    array of messages is sent as one message, like a single one. *)
Definition sendToRabbitMQ (queue : string) (messages : jsval) (h : headers)
    (exchange : string) : script unit :=
  (if decide (exchange = "") then on_channel (AssertQueue queue) else mret tt) ;;
  sendMessage (Z.to_nat MAX_RETRIES) 1 exchange queue messages h.

(** [RetryQMessage(msg, max_retries, queue)] *)
Definition RetryQMessage (msg : delivery) (max_retries : Z) (queue : string)
    : script unit :=
  let currentRetryCount := or_num (x_retry_count (properties_headers msg)) 1 in
  if currentRetryCount <? max_retries then
    messageContent ← (fun done => (content msg, done)) ;
    let h := {| x_retry_count := Some (currentRetryCount + 1);
                other_headers := other_headers (properties_headers msg) |} in
    try_script
      (sendToRabbitMQ queue messageContent h "" ;;
       on_channel (Ack msg))
      (fun error =>
         note (ConsoleError "Failed to retry message:") ;;
         on_channel (Nack msg false true))
  else
    on_channel (Nack msg false false).

End Connector.

(** [currentRetryCount] *)
Definition retry_count (msg : delivery) : Z :=
  or_num (x_retry_count (properties_headers msg)) 1.

(** The headers of the copy [RetryQMessage] sends. *)
Definition next_headers (msg : delivery) : headers :=
  {| x_retry_count := Some (retry_count msg + 1);
     other_headers := other_headers (properties_headers msg) |}.

End RabbitMQ.

(** ** The cache connector: [_core_app_connectivities/memcache.js]

    The connector keeps two clients and a failover state, and reports its
    troubles to Munshi through the event router.  Its functions are
    synchronous pieces run by callbacks and timers; each of them takes the
    reading of [Date.now()] at the moment it runs.  The time stamp that
    [new Date().toISOString()] writes into a report is left out of the
    fields, as the router leaves it out of its log lines. *)

Module Memcache.

Definition PRIMARY_SERVER : string := "172.18.0.37:11211".
Definition BACKUP_SERVER : string := "172.18.0.82:11211".

Inductive server : Type := primary | backup.

#[export] Instance server_eq_dec : EqDecision server.
Proof. solve_decision. Defined.

(** [failoverState]; its [failureThreshold] is the constant 3. *)
Record failover_state : Type := FailoverState {
  currentServer : server;
  primaryHealthy : bool;
  backupHealthy : bool;
  consecutiveFailures : Z;
  lastFailoverTime : option Z;
  lastHealthCheck : option Z
}.

Definition failureThreshold : Z := 3.

(** [error_throttle.throttle_time] *)
Definition throttle_time : Z := 60000.

(** What the connector sends out: a line on the console, or an event for
    the router, [MUNSHI_EVENT] with an error report or [GENERAL_LOG_EVENT]
    with an activity report.  (The [app_id: 1001] the connector writes
    into both is no field of a report: the Munshi service never reads
    it.) *)
Inductive output : Type :=
  | ConsoleError (text : string)
  | ConsoleLog (text : string)
  | EmitMunshiEvent (event_data : Munshi.error_report)
  | EmitGeneralLog (event_data : Munshi.activity_report).

(** The module state: the failover state, [error_throttle.last_reported]
    and what was sent out so far. *)
Record process : Type := Process {
  failoverState : failover_state;
  last_reported : gmap string Z;
  outbox : list output
}.

Definition initial : process :=
  {| failoverState :=
       {| currentServer := primary; primaryHealthy := true; backupHealthy := true;
          consecutiveFailures := 0; lastFailoverTime := None;
          lastHealthCheck := None |};
     last_reported := ∅;
     outbox := [] |}.

Definition put (o : output) (p : process) : process :=
  {| failoverState := failoverState p; last_reported := last_reported p;
     outbox := outbox p ++ [o] |}.

Definition set_failover (f : failover_state) (p : process) : process :=
  {| failoverState := f; last_reported := last_reported p; outbox := outbox p |}.

(** [error_throttle.should_report(error_type)] *)
Definition should_report (error_type : string) (now : Z) (reported : gmap string Z)
    : bool * gmap string Z :=
  let last_report := or_num (reported !! error_type) 0 in
  if throttle_time <? now - last_report then (true, <[error_type := now]> reported)
  else (false, reported).

(** [{ ...base, ...details }] *)
Definition spread (base details : js_object) : js_object :=
  foldl (fun o field => Munshi.set_field o field.1 field.2) base details.

(** [server.toUpperCase()] of the two server names. *)
Definition upper (s : server) : string :=
  match s with primary => "PRIMARY" | backup => "BACKUP" end.

(** How the client of a server answers one request: its callback runs
    [after_ms] milliseconds later, with an error or with a value; or it
    never runs. *)
Inductive client_answer : Type :=
  | Answers (after_ms : Z) (err : option string) (value : jsval)
  | Silent.

Section Connector.

(** Whether [require('./emitter')] gives the emitter, and the trace text
    of the [Error] that [report_to_munshi] makes for a message. *)
Variable emitter_loads : bool.
Variable error_stack : string -> option string.
(** The global [CacheKeyPrefix], and what the client of a server does
    with a [get] of a key. *)
Variable CacheKeyPrefix : string.
Variable client_get : server -> string -> client_answer.

(** The object literal of lines 404 to 426. *)
Definition munshi_event_data (error_code error_title error_message : string)
    (details : js_object) : Munshi.error_report :=
  {| Munshi.error :=
       {| Munshi.message := error_message; Munshi.stack := error_stack error_message |};
     Munshi.error_code := Some error_code;
     Munshi.error_title := Some error_title;
     Munshi.error_type := Some "CACHE_ERROR";
     Munshi.metadata := Some (spread [("service", JStr "memcache")] details);
     Munshi.other_data :=
       Some [("memcache_config",
              JObj [("timeout", JNum 800); ("retries", JNum 1); ("failures", JNum 10);
                    ("remove", JBool false); ("reconnect", JNum 5000)]);
             ("details", JObj details)];
     Munshi.nonblocking := None;
     Munshi.ttl := Some 2592000 |}.

(** [report_to_munshi(error_code, error_title, error_message, details)] *)
Definition report_to_munshi (error_code error_title error_message : string)
    (details : js_object) (now : Z) (p : process) : process :=
  if emitter_loads then
    match should_report error_code now (last_reported p) with
    | (false, _) => p
    | (true, reported) =>
        put (EmitMunshiEvent
               (munshi_event_data error_code error_title error_message details))
          {| failoverState := failoverState p; last_reported := reported;
             outbox := outbox p |}
    end
  else
    put (ConsoleError "FILE: memcache.js | load_munshi | Failed to load event emitter:") p.

(** [getActiveClient()], as the server whose client it returns. *)
Definition getActiveClient (p : process) : server := currentServer (failoverState p).

(** [switchToBackup(reason)] *)
Definition switchToBackup (reason : string) (now : Z) (p : process) : process :=
  match currentServer (failoverState p) with
  | primary =>
      let f := failoverState p in
      report_to_munshi "MEMCACHE-FAILOVER-001" "Memcache Failover to Backup"
        ("Switched to backup server: " +:+ BACKUP_SERVER)
        [("from_server", JStr PRIMARY_SERVER); ("to_server", JStr BACKUP_SERVER);
         ("reason", JStr reason)]
        now
        (set_failover
           {| currentServer := backup; primaryHealthy := false;
              backupHealthy := backupHealthy f;
              consecutiveFailures := consecutiveFailures f;
              lastFailoverTime := Some now;
              lastHealthCheck := lastHealthCheck f |}
           (put (ConsoleError
                   ("FILE: memcache.js | FAILOVER | Switching to BACKUP server. Reason: "
                    +:+ reason)) p))
  | backup => p
  end.

(** [switchToPrimary(reason)] *)
Definition switchToPrimary (reason : string) (p : process) : process :=
  match currentServer (failoverState p) with
  | backup =>
      let f := failoverState p in
      let p' :=
        set_failover
          {| currentServer := primary; primaryHealthy := true;
             backupHealthy := backupHealthy f;
             consecutiveFailures := 0;
             lastFailoverTime := lastFailoverTime f;
             lastHealthCheck := lastHealthCheck f |}
          (put (ConsoleLog
                  ("FILE: memcache.js | RECOVERY | Switching back to PRIMARY server. Reason: "
                   +:+ reason)) p) in
      if emitter_loads then
        put (EmitGeneralLog
               {| Munshi.log_type := Some "MEMCACHE_RECOVERY";
                  Munshi.plain_text :=
                    Some ("Memcache switched back to PRIMARY server: " +:+ PRIMARY_SERVER);
                  Munshi.oneid := None; Munshi.org_id := None;
                  Munshi.entity_id := None; Munshi.entity_type := None;
                  Munshi.a_metadata :=
                    Some [("service", JStr "memcache");
                          ("from_server", JStr BACKUP_SERVER);
                          ("to_server", JStr PRIMARY_SERVER);
                          ("reason", JStr reason)];
                  Munshi.changes := None; Munshi.a_other_data := None;
                  Munshi.a_ttl := Some 1209600 |}) p'
      else
        put (ConsoleError "FILE: memcache.js | load_munshi | Failed to load event emitter:")
          p'
  | primary => p
  end.

(** [healthCheckPrimary()] up to the request it sends to the primary
    server: [true] when one is sent. *)
Definition healthCheckPrimary (now : Z) (p : process) : bool * process :=
  let f := failoverState p in
  match currentServer f with
  | primary => (false, p)
  | backup =>
      if truthy_num (lastHealthCheck f)
         && (now - default 0 (lastHealthCheck f) <? 3000)
      then (false, p)
      else
        (true,
         set_failover
           {| currentServer := currentServer f; primaryHealthy := primaryHealthy f;
              backupHealthy := backupHealthy f;
              consecutiveFailures := consecutiveFailures f;
              lastFailoverTime := lastFailoverTime f;
              lastHealthCheck := Some now |} p)
  end.

(** The callback of that request: [err] tells whether it got an error. *)
Definition healthCheckPrimary_callback (err : bool) (p : process) : process :=
  if err then p else switchToPrimary "Health check successful" p.

(** [handleOperationFailure(operationName, key, error)] *)
Definition handleOperationFailure (operationName key error_message : string) (now : Z)
    (p : process) : process :=
  let p' :=
    match currentServer (failoverState p) with
    | primary =>
        let f := failoverState p in
        let failures := consecutiveFailures f + 1 in
        let counted :=
          set_failover
            {| currentServer := currentServer f; primaryHealthy := primaryHealthy f;
               backupHealthy := backupHealthy f;
               consecutiveFailures := failures;
               lastFailoverTime := lastFailoverTime f;
               lastHealthCheck := lastHealthCheck f |} p in
        if failureThreshold <=? failures then
          switchToBackup (pretty failures +:+ " consecutive failures on operation: "
                          +:+ operationName) now counted
        else counted
    | backup => p
    end in
  put (ConsoleError
         ("FILE: memcache.js | " +:+ operationName +:+ " | Error on "
          +:+ upper (currentServer (failoverState p')) +:+ " | Key: " +:+ key
          +:+ " | Error: " +:+ error_message)) p'.

(** [handleOperationSuccess()] *)
Definition handleOperationSuccess (p : process) : process :=
  let f := failoverState p in
  if 0 <? consecutiveFailures f then
    set_failover
      {| currentServer := currentServer f; primaryHealthy := primaryHealthy f;
         backupHealthy := backupHealthy f;
         consecutiveFailures := 0;
         lastFailoverTime := lastFailoverTime f;
         lastHealthCheck := lastHealthCheck f |} p
  else p.

(** [getFromMemcache(key)], with nothing else running between the call
    and the last of its callbacks: the value the promise resolves with,
    and the module state afterwards.  The safety timer of 1200 ms is armed
    before the request is sent, so it runs first when the answer takes
    1200 ms or more; the callback of the client still runs when its answer
    comes in at last. *)
Definition getFromMemcache (key : string) (now : Z) (p : process) : jsval * process :=
  let p1 := (healthCheckPrimary now p).2 in
  let timed_out (p : process) : process :=
    handleOperationFailure "getFromMemcache" key "Operation timeout" (now + 1200)
      (put (ConsoleError
              ("FILE: memcache.js | getFromMemcache | Operation timeout for key: "
               +:+ key)) p) in
  match client_get (getActiveClient p1) (CacheKeyPrefix +:+ key) with
  | Answers after_ms err value =>
      if after_ms <? 1200 then
        match err with
        | Some message =>
            (JNull,
             handleOperationFailure "getFromMemcache" key message (now + after_ms) p1)
        | None => (value, handleOperationSuccess p1)
        end
      else
        (JNull,
         match err with
         | Some message =>
             handleOperationFailure "getFromMemcache" key message (now + after_ms)
               (timed_out p1)
         | None => handleOperationSuccess (timed_out p1)
         end)
  | Silent => (JNull, timed_out p1)
  end.

(** What can happen to the module, one callback at a time. *)
Inductive happening : Type :=
  | OperationFailed (operationName key error_message : string) (now : Z)
  | OperationSucceeded
  | HealthCheck (now : Z)
  | HealthCheckAnswer (err : bool)
  | Trouble (error_code error_title error_message : string) (details : js_object)
      (now : Z)
  | Get (key : string) (now : Z).

Definition happen (p : process) (h : happening) : process :=
  match h with
  | OperationFailed operationName key error_message now =>
      handleOperationFailure operationName key error_message now p
  | OperationSucceeded => handleOperationSuccess p
  | HealthCheck now => (healthCheckPrimary now p).2
  | HealthCheckAnswer err => healthCheckPrimary_callback err p
  | Trouble error_code error_title error_message details now =>
      report_to_munshi error_code error_title error_message details now p
  | Get key now => (getFromMemcache key now p).2
  end.

(** The module after a run of happenings, from the state it is loaded in. *)
Definition after (hs : list happening) : process := foldl happen initial hs.

End Connector.

(** The reports sent out, and the times at which the throttle let a
    report of [error_code] through in a run of requests. *)
Definition munshi_events (l : list output) : list Munshi.error_report :=
  omap (fun o => match o with EmitMunshiEvent e => Some e | _ => None end) l.

Fixpoint let_through (error_code : string) (requests : list (string * Z))
    (reported : gmap string Z) : list Z :=
  match requests with
  | [] => []
  | (code, now) :: rest =>
      let '(ok, reported') := should_report code now reported in
      if ok && bool_decide (code = error_code)
      then now :: let_through error_code rest reported'
      else let_through error_code rest reported'
  end.

(** The invariant of the failover state. *)
Definition consistent (f : failover_state) : Prop :=
  (currentServer f = primary <-> primaryHealthy f = true) /\
  backupHealthy f = true /\
  0 <= consecutiveFailures f <= 3 /\
  (currentServer f = primary -> consecutiveFailures f < 3) /\
  (currentServer f = backup -> lastFailoverTime f <> None).

End Memcache.

(** ** More routers and callees for the examples *)

Module Drill.

(** A middleware that replaces the payload by a marked copy. *)
Definition stamp (data : jsval) : jsval :=
  match data with
  | JObj fields => JObj (fields ++ [("stamped", JBool true)])
  | other => other
  end.

Definition stamping_middleware (_ : fn_id) (_ : string) (data : jsval) : call :=
  {| effect := fun r => r; settles := Fulfils 0 (stamp data) |}.

(** Two middlewares in front of the two handlers and the bound queue of
    [Scenario.guarded_router]. *)
Definition stamped_router : router := use (use Scenario.guarded_router 10) 11.

(** Middleware 10 adds middleware 11 when it runs. *)
Definition recruiting_middleware (f : fn_id) (_ : string) (data : jsval) : call :=
  if decide (f = 10%nat) then
    {| effect := fun r => use r 11; settles := Fulfils 0 data |}
  else Scenario.idle data.

(** Function 1 never settles, the others return at once. *)
Definition hung_handler (f : fn_id) (_ : jsval) : call :=
  if decide (f = 1%nat) then {| effect := fun r => r; settles := NeverSettles |}
  else Scenario.idle JUndefined.

(** Handler 1 with a timeout of 500 ms in front of handler 2. *)
Definition timed_router : router :=
  Scenario.register
    (Scenario.register new_router "SEND_EMAIL" 1 (HandlerOptions (Some 1) (Some 500) None))
    "SEND_EMAIL" 2 (Scenario.with_priority_option 2).

End Drill.

(** ** A channel and a delivery for the examples of the queue connector *)

Module Broker.

(** A channel on which every publish throws, and one that takes
    everything. *)
Definition publish_fails (_ : nat) (c : RabbitMQ.channel_call) : option js_thrown :=
  match c with
  | RabbitMQ.Publish _ _ _ _ => Some (ErrorObject "Channel closed")
  | _ => None
  end.

Definition healthy (_ : nat) (_ : RabbitMQ.channel_call) : option js_thrown := None.

(** A delivery that failed for the first time: it has no retry count. *)
Definition first_failure : RabbitMQ.delivery :=
  {| RabbitMQ.delivery_tag := 1;
     RabbitMQ.properties_headers := RabbitMQ.no_headers;
     RabbitMQ.content := Returned (JObj [("order", JNum 7)]) |}.

End Broker.

(** ** A cache for the examples of the cache connector *)

Module Cache.

(** The trace of an [Error] made in [report_to_munshi]. *)
Definition error_stack (message : string) : option string :=
  Some ("Error: " +:+ message +:+ "
    at report_to_munshi (/app/_core_app_connectivities/memcache.js:405:24)").

(** A primary server that answers every request with an error after two
    seconds. *)
Definition slow_primary (s : Memcache.server) (_ : string) : Memcache.client_answer :=
  match s with
  | Memcache.primary => Memcache.Answers 2000 (Some "Server not available") JUndefined
  | Memcache.backup => Memcache.Answers 5 None (JStr "cached")
  end.

End Cache.
(** * Properties of the router *)

(** ** The sort is a stable ascending rearrangement *)

Lemma insert_by_priority_perm h l : insert_by_priority h l ≡ₚ h :: l.
Proof.
  induction l as [|x l IH]; simpl; [done|].
  destruct (priority h <=? priority x); [done|].
  rewrite IH. apply Permutation_swap.
Qed.

Lemma sort_by_priority_perm l : sort_by_priority l ≡ₚ l.
Proof.
  induction l as [|h l IH]; simpl; [done|].
  by rewrite insert_by_priority_perm, IH.
Qed.

Lemma insert_by_priority_sorted h l :
  StronglySorted by_priority l -> StronglySorted by_priority (insert_by_priority h l).
Proof.
  induction 1 as [|x l Hl IH Hx]; simpl.
  - repeat constructor.
  - destruct (Z.leb_spec (priority h) (priority x)) as [Hle|Hlt].
    + constructor; [by constructor|].
      constructor; [done|].
      eapply Forall_impl; [exact Hx|]. unfold by_priority. intros; lia.
    + constructor; [done|].
      rewrite insert_by_priority_perm. constructor; [|done].
      unfold by_priority. lia.
Qed.

Lemma sort_by_priority_sorted l : StronglySorted by_priority (sort_by_priority l).
Proof.
  induction l as [|h l IH]; simpl; [constructor|].
  by apply insert_by_priority_sorted.
Qed.

Lemma with_priority_cons p h l :
  with_priority p (h :: l) =
    if decide (priority h = p) then h :: with_priority p l else with_priority p l.
Proof. unfold with_priority. by rewrite filter_cons. Qed.

Lemma insert_by_priority_stable p h l :
  StronglySorted by_priority l ->
  with_priority p (insert_by_priority h l) = with_priority p (h :: l).
Proof.
  induction 1 as [|x l Hl IH Hx]; simpl; [done|].
  destruct (Z.leb_spec (priority h) (priority x)) as [Hle|Hlt]; [done|].
  rewrite (with_priority_cons p x), IH, !with_priority_cons.
  repeat case_decide; try done; lia.
Qed.

Lemma sort_by_priority_stable p l :
  with_priority p (sort_by_priority l) = with_priority p l.
Proof.
  induction l as [|h l IH]; simpl; [done|].
  rewrite insert_by_priority_stable by apply sort_by_priority_sorted.
  by rewrite !with_priority_cons, IH.
Qed.

(** Two sorted lists with the same priority classes are equal: the stable
    ascending arrangement of a list is unique. *)
Lemma sorted_unique l1 l2 :
  StronglySorted by_priority l1 -> StronglySorted by_priority l2 ->
  (forall p, with_priority p l1 = with_priority p l2) ->
  l1 = l2.
Proof.
  intros H1. revert l2.
  induction H1 as [|x l1 Hl1 IH Hx]; intros l2 H2 Hcls.
  - destruct l2 as [|y l2]; [done|].
    specialize (Hcls (priority y)). rewrite with_priority_cons in Hcls.
    case_decide; [discriminate | done].
  - destruct H2 as [|y l2 Hl2 Hy].
    + specialize (Hcls (priority x)). rewrite with_priority_cons in Hcls.
      case_decide; [discriminate | done].
    + assert (x = y) as ->.
      { pose proof (Hcls (priority x)) as Cx. pose proof (Hcls (priority y)) as Cy.
        rewrite !with_priority_cons in Cx, Cy.
        repeat case_decide; try congruence.
        - assert (x ∈ with_priority (priority x) l2) as Hin by (rewrite <- Cx; left).
          apply list_elem_of_filter in Hin as [_ Hin].
          rewrite Forall_forall in Hy. specialize (Hy _ Hin).
          assert (y ∈ with_priority (priority y) l1) as Hin' by (rewrite Cy; left).
          apply list_elem_of_filter in Hin' as [_ Hin'].
          rewrite Forall_forall in Hx. specialize (Hx _ Hin').
          unfold by_priority in *. lia. }
      f_equal. apply IH; [done|]. intros p.
      specialize (Hcls p). rewrite !with_priority_cons in Hcls.
      case_decide; congruence.
Qed.

Lemma sort_by_priority_unique l l' :
  StronglySorted by_priority l' ->
  (forall p, with_priority p l' = with_priority p l) ->
  l' = sort_by_priority l.
Proof.
  intros Hs Hst. apply sorted_unique; [done | apply sort_by_priority_sorted |].
  intros p. by rewrite Hst, sort_by_priority_stable.
Qed.

(** ** Reading a trace *)

Lemma handler_calls_app t1 t2 :
  handler_calls (t1 ++ t2) = handler_calls t1 ++ handler_calls t2.
Proof. apply omap_app. Qed.

Lemma publish_calls_app t1 t2 :
  publish_calls (t1 ++ t2) = publish_calls t1 ++ publish_calls t2.
Proof. apply omap_app. Qed.

Lemma handler_calls_quiet t : Forall not_handler_event t -> handler_calls t = [].
Proof.
  induction 1 as [|o t Ho _ IH]; [done|].
  destruct o; simpl in *; done.
Qed.

Lemma no_work_calls t :
  Forall no_work t -> handler_calls t = [] /\ publish_calls t = [].
Proof.
  induction 1 as [|o t Ho _ [IH1 IH2]]; [done|].
  destruct o; simpl in *; done.
Qed.

Lemma console_no_work t : Forall is_console t -> Forall no_work t.
Proof. intros H. eapply Forall_impl; [exact H|]. by intros []. Qed.

Lemma console_not_handler_event t : Forall is_console t -> Forall not_handler_event t.
Proof. intros H. eapply Forall_impl; [exact H|]. by intros []. Qed.

Lemma middleware_no_work t : Forall is_middleware_call t -> Forall no_work t.
Proof. intros H. eapply Forall_impl; [exact H|]. by intros []. Qed.


Lemma prelude_no_work t : Forall is_prelude t -> Forall no_work t.
Proof. intros H. eapply Forall_impl; [exact H|]. by intros [] [|]. Qed.

Lemma prelude_not_handler_event t :
  Forall is_prelude t -> Forall not_handler_event t.
Proof. intros H. eapply Forall_impl; [exact H|]. by intros [] [|]. Qed.

(** Where an observation sits when it is foreign to both ends of a trace. *)
Lemma split_front {X} (P : X -> Prop) (h b pre post : list X) x :
  Forall P b -> ~ P x ->
  h ++ b = pre ++ x :: post ->
  exists post', h = pre ++ x :: post'.
Proof.
  intros Hb Hx. revert pre.
  induction h as [|y h IH]; intros pre E; simpl in *.
  - subst b. apply Forall_app in Hb as [_ Hb]. by inversion Hb.
  - destruct pre as [|z pre]; simplify_eq/=; [by eexists|].
    destruct (IH pre) as [post' ->]; [done|]. by eexists.
Qed.

Lemma split_middle {X} (P : X -> Prop) (a h b pre post : list X) x :
  Forall P a -> Forall P b -> ~ P x ->
  a ++ h ++ b = pre ++ x :: post ->
  exists pre' post', pre = a ++ pre' /\ h = pre' ++ x :: post'.
Proof.
  intros Ha Hb Hx. revert pre.
  induction Ha as [|y a Hy _ IH]; intros pre E; simpl in *.
  - destruct (split_front P h b pre post x Hb Hx E) as [post' ->]. by exists pre, post'.
  - destruct pre as [|z pre]; simplify_eq/=; [done|].
    destruct (IH pre) as (pre' & post' & -> & ->); [done|]. by exists pre', post'.
Qed.

(** In a sorted list, an entry of smaller priority sits before. *)
Lemma sorted_before c1 h2 tl h1 :
  StronglySorted by_priority (c1 ++ h2 :: tl) ->
  h1 ∈ c1 ++ h2 :: tl -> priority h1 < priority h2 -> h1 ∈ c1.
Proof.
  induction c1 as [|x c1 IH]; simpl; intros Hs Hin Hlt.
  - apply StronglySorted_inv in Hs as [_ Hall].
    apply elem_of_cons in Hin as [->|Hin]; [lia|].
    rewrite Forall_forall in Hall. specialize (Hall _ Hin).
    unfold by_priority in Hall. lia.
  - apply StronglySorted_inv in Hs as [Hs _].
    apply elem_of_cons in Hin as [->|Hin]; [left|].
    right. by apply IH.
Qed.

(** ** Equations of the task monad *)

Section TaskEquations.
Context {A B : Type}.
Implicit Types (m : task A) (k : A -> task B) (r : router).

Lemma emitted_bind m k r :
  emitted ((m ≫= k) r) =
    emitted (m r) ++
    match outcome (m r) with
    | Done a => emitted (k a (state (m r)))
    | _ => []
    end.
Proof.
  unfold mbind, task_bind. destruct (m r) as [[a|e| |] r' t]; simpl;
    rewrite ?app_nil_r; [|done..]. by destruct (k a r').
Qed.

Lemma outcome_bind m k r :
  outcome ((m ≫= k) r) =
    match outcome (m r) with
    | Done a => outcome (k a (state (m r)))
    | Raise e => Raise e
    | Suspend => Suspend
    | NoFuel => NoFuel
    end.
Proof.
  unfold mbind, task_bind. destruct (m r) as [[a|e| |] r' t]; simpl; [|done..].
  by destruct (k a r').
Qed.


Lemma emitted_try (m : task A) (h : js_thrown -> task A) r :
  emitted (try_task m h r) =
    emitted (m r) ++
    match outcome (m r) with
    | Raise e => emitted (h e (state (m r)))
    | _ => []
    end.
Proof.
  unfold try_task. destruct (m r) as [[a|e| |] r' t]; simpl;
    rewrite ?app_nil_r; try done. by destruct (h e r').
Qed.

Lemma outcome_try (m : task A) (h : js_thrown -> task A) r :
  outcome (try_task m h r) =
    match outcome (m r) with
    | Raise e => outcome (h e (state (m r)))
    | o => o
    end.
Proof.
  unfold try_task. destruct (m r) as [[a|e| |] r' t]; simpl; try done.
  by destruct (h e r').
Qed.

Lemma state_try (m : task A) (h : js_thrown -> task A) r :
  state (try_task m h r) =
    match outcome (m r) with
    | Raise e => state (h e (state (m r)))
    | _ => state (m r)
    end.
Proof.
  unfold try_task. destruct (m r) as [[a|e| |] r' t]; simpl; try done.
  by destruct (h e r').
Qed.
End TaskEquations.

Lemma _log_event_spec l message data r :
  outcome (_log_event l message data r) = Done tt /\
  state (_log_event l message data r) = r /\
  Forall is_console (emitted (_log_event l message data r)).
Proof.
  unfold _log_event. destruct (level_map l <=? log_level r); simpl; repeat split;
    repeat constructor.
Qed.

(** An [error] line is written at every log level the router can have. *)
Lemma _log_event_error message data r :
  0 <= log_level r ->
  emitted (_log_event lvl_error message data r) =
    [Console lvl_error
       ("FILE: event_router.service.js | error | " +:+ message) data].
Proof.
  intros H. unfold _log_event. simpl. unfold LOG_ERROR.
  destruct (Z.leb_spec 0 (log_level r)); [done | lia].
Qed.

(** ** One dispatch, step by step *)

Lemma handler_trace_calls called t :
  handler_trace called t -> handler_calls t = called.
Proof.
  induction 1 as [| |h d how logs called t Hlogs _ IH]; [done..|].
  simpl. rewrite handler_calls_app, IH.
  by rewrite (handler_calls_quiet logs) by by apply console_not_handler_event.
Qed.

Lemma handler_trace_publish called t :
  handler_trace called t -> publish_calls t = [].
Proof.
  induction 1 as [| |h d how logs called t Hlogs _ IH]; [done..|].
  simpl. rewrite publish_calls_app, IH.
  by rewrite (proj2 (no_work_calls logs (console_no_work _ Hlogs))).
Qed.

(** Whatever was started before a given call has settled before it. *)
Lemma handler_trace_split called t pre h2 d post :
  handler_trace called t ->
  t = pre ++ CallHandler h2 d :: post ->
  exists c1 c2, called = c1 ++ h2 :: c2 /\ handler_calls pre = c1 /\
    forall h1, h1 ∈ c1 -> exists how, SettledHandler h1 how ∈ pre.
Proof.
  intros Ht. revert pre.
  induction Ht as [| h d' |h d' how logs called t Hlogs Ht IH]; intros pre E.
  - by destruct pre.
  - destruct pre as [|o [|o' pre]]; simplify_eq/=.
    exists [], []. split_and!; [done..|]. intros h1 Hin. by apply elem_of_nil in Hin.
  - destruct pre as [|o pre]; simplify_eq/=.
    { exists [], called. split_and!; [done..|]. intros h1 Hin. by apply elem_of_nil in Hin. }
    destruct pre as [|o pre]; simplify_eq/=.
    apply app_eq_app in H0 as [m [[E1 E2]|[E1 E2]]].
    + destruct m as [|o m]; simpl in *.
      * rewrite app_nil_r in E1. subst logs.
        destruct (IH [] (eq_sym E2)) as (c1 & c2 & -> & Hc & Hs).
        exists (h :: c1), c2. split_and!; [done| |].
        -- simpl. rewrite (handler_calls_quiet pre)
             by by apply console_not_handler_event.
           by rewrite <- Hc.
        -- simpl in Hc. subst c1. intros h1 ->%list_elem_of_singleton.
           exists how. set_solver.
      * (* the call would sit among the logged lines *)
        simplify_eq. apply Forall_app in Hlogs as [_ Hc]. by inversion Hc.
    + subst pre.
      destruct (IH m E2) as (c1 & c2 & -> & Hc & Hs).
      exists (h :: c1), c2. split_and!; [done| |].
      * simpl. rewrite handler_calls_app, Hc.
        by rewrite (handler_calls_quiet logs) by by apply console_not_handler_event.
      * intros h1 [->|Hin]%elem_of_cons.
        -- exists how. set_solver.
        -- destruct (Hs h1 Hin) as [how' Hhow]. exists how'. set_solver.
Qed.

Section ListenerFacts.

Variable middleware_call : fn_id -> string -> jsval -> call.
Variable handler_call : fn_id -> jsval -> call.
Variable publishToQueue : string -> jsval -> js_object -> call.

Abbreviation apply_middlewares := (apply_middlewares middleware_call).
Abbreviation execute_handler := (execute_handler handler_call).
Abbreviation execute_handlers := (execute_handlers handler_call).
Abbreviation process_event := (process_event middleware_call handler_call publishToQueue).
Abbreviation listener := (listener middleware_call handler_call publishToQueue).
Abbreviation awaited := (awaited handler_call).
Abbreviation forward_to_queue := (forward_to_queue publishToQueue).
Abbreviation after_handlers := (after_handlers publishToQueue).
Abbreviation try_block := (try_block middleware_call handler_call publishToQueue).

Lemma execute_handler_cases event_id data h r :
  let c := awaited h data in
  let s := execute_handler event_id data h r in
  state s = effect c r /\
  match settles c with
  | Fulfils _ _ =>
      outcome s = Done tt /\
      emitted s = [CallHandler h data; SettledHandler h HandlerFulfilled]
  | Rejects _ e =>
      match read_message e with
      | Returned message =>
          outcome s = Done tt /\
          emitted s = [CallHandler h data; SettledHandler h (HandlerRejected e)]
                      ++ emitted (handler_error_log event_id h message (effect c r))
      | Thrown e' =>
          outcome s = Raise e' /\
          emitted s = [CallHandler h data; SettledHandler h (HandlerRejected e)]
      end
  | NeverSettles =>
      outcome s = Suspend /\ emitted s = [CallHandler h data]
  end.
Proof.
  intros c s. subst c s. unfold Router.awaited, Router.execute_handler.
  destruct (truthy_num (timeout h));
    match goal with
    | |- context [await ?x] => generalize x; intros c
    end;
    unfold try_task, mbind, task_bind, observe, await, handler_error_log;
    destruct (settles c) as [? ?|? e|]; simpl; try done;
    destruct e; simpl; try done;
    unfold _log_event;
    destruct (level_map lvl_error <=? log_level (effect c r)); simpl; done.
Qed.

Lemma apply_middlewares_trace fuel i event_id data r :
  Forall is_middleware_call (emitted (apply_middlewares fuel i event_id data r)).
Proof.
  revert i data r. induction fuel as [|fuel IH]; intros i data r; simpl; [constructor|].
  destruct (middlewares r !! i) as [mw|]; [|constructor].
  rewrite emitted_bind. simpl. constructor; [done|].
  rewrite emitted_bind. unfold await at 1 2.
  destruct (settles _); simpl; [apply IH | constructor..].
Qed.

(** The middleware loop ends within as many steps as there are middlewares
    left, as long as no call of a middleware changes the list. *)
Lemma apply_middlewares_fuel event_id :
  (forall f data r,
     middlewares (effect (middleware_call f event_id data) r) = middlewares r) ->
  forall fuel i data r,
    (length (middlewares r) - i < fuel)%nat ->
    outcome (apply_middlewares fuel i event_id data r) <> NoFuel.
Proof.
  intros Hsame. induction fuel as [|fuel IH]; intros i data r Hlt; [lia|].
  simpl. destruct (middlewares r !! i) as [mw|] eqn:E; [|done].
  apply lookup_lt_Some in E.
  rewrite outcome_bind. simpl. rewrite outcome_bind. unfold await at 1 2.
  destruct (settles _) eqn:Es; simpl; try done.
  apply IH. rewrite Hsame. lia.
Qed.

(** A handler with a timeout never keeps the loop waiting: its promise
    settles, by itself or by the timer, and the time-out is an [Error]. *)
Lemma timeout_bounds_the_wait h data :
  truthy_num (timeout h) = true ->
  settles (awaited h data) <> NeverSettles.
Proof.
  intros Ht. unfold Router.awaited. rewrite Ht. simpl.
  destruct (settles _); [destruct (_ <? _)..|]; done.
Qed.

Lemma timed_handler_gets_past h data :
  truthy_num (timeout h) = true ->
  (forall t, settles (handler_call (fn h) data) <> Rejects t NullishValue) ->
  gets_past handler_call h data.
Proof.
  intros Ht Hn. unfold gets_past, Router.awaited. rewrite Ht. simpl.
  destruct (settles _) as [t v|t e|] eqn:Es; [destruct (_ <? _)..|]; try done.
  intros ->. by apply (Hn t).
Qed.

(** The handlers that are started form a prefix of the list handed to the
    loop, and the whole list when the loop runs to its end. *)
Lemma execute_handlers_shape event_id data (hs : list handler) r :
  exists called,
    called `prefix_of` hs /\
    handler_trace called (emitted (execute_handlers event_id data hs r)) /\
    (outcome (execute_handlers event_id data hs r) = Done tt -> called = hs).
Proof.
  revert r. induction hs as [|h hs IH]; intros r; simpl.
  { exists []. split_and!; [done | constructor | done]. }
  rewrite emitted_bind, outcome_bind.
  destruct (execute_handler_cases event_id data h r) as [Hst Hc].
  destruct (settles (awaited h data)) as [? ?|? e|].
  - destruct Hc as [-> ->].
    destruct (IH (state (execute_handler event_id data h r))) as (c & Hp & Ht & Hd).
    exists (h :: c). split_and!.
    + by apply prefix_cons.
    + by apply (ht_settled h data HandlerFulfilled []).
    + intros Ho. by rewrite Hd.
  - destruct (read_message e) as [message|e'].
    + destruct Hc as [-> ->].
      destruct (IH (state (execute_handler event_id data h r))) as (c & Hp & Ht & Hd).
      exists (h :: c). split_and!.
      * by apply prefix_cons.
      * simpl. apply ht_settled; [|done].
        apply _log_event_spec.
      * intros Ho. by rewrite Hd.
    + destruct Hc as [-> ->].
      exists [h]. split_and!.
      * apply prefix_cons, prefix_nil.
      * apply (ht_settled h data (HandlerRejected e) [] [] []); constructor.
      * done.
  - destruct Hc as [-> ->].
    exists [h]. split_and!; [apply prefix_cons, prefix_nil | constructor | done].
Qed.

(** A log line never changes the course of the listener. *)
Lemma log_bind {B} l message data (k : unit -> task B) r :
  (_log_event l message data ≫= k) r =
    Step (outcome (k tt r)) (state (k tt r))
      (emitted (_log_event l message data r) ++ emitted (k tt r)).
Proof.
  unfold mbind, task_bind, _log_event.
  destruct (level_map l <=? log_level r); simpl; by destruct (k tt r).
Qed.

Lemma forward_to_queue_unbound event_id data r :
  rabbitmq_publishers r !! event_id = None ->
  forward_to_queue event_id data r = Step (Done tt) r [].
Proof.
  intros H. unfold Router.forward_to_queue, mbind, task_bind. simpl. by rewrite H.
Qed.

Lemma forward_to_queue_bound event_id data r p :
  rabbitmq_publishers r !! event_id = Some p ->
  exists logs,
    emitted (forward_to_queue event_id data r) =
      PublishToQueue (queue_name p) data (options p) :: logs /\
    Forall is_console logs.
Proof.
  intros H. unfold Router.forward_to_queue. rewrite emitted_bind. simpl. rewrite H.
  rewrite emitted_bind. simpl. rewrite emitted_bind. unfold await at 1 2.
  destruct (settles _); simpl; eexists; (split; [reflexivity|]);
    try constructor.
  apply _log_event_spec.
Qed.

Lemma forward_to_queue_trace event_id data r :
  Forall not_handler_event (emitted (forward_to_queue event_id data r)).
Proof.
  destruct (rabbitmq_publishers r !! event_id) as [p|] eqn:E.
  - destruct (forward_to_queue_bound event_id data r p E) as (logs & -> & Hl).
    constructor; [done|]. by apply console_not_handler_event.
  - rewrite forward_to_queue_unbound by done. constructor.
Qed.

(** [if (handlers.length > 0)] only spares the loop an empty list. *)
Lemma handlers_loop_guard event_id data (registered : list handler) :
  (if (0 <? length registered)%nat then
     execute_handlers event_id data (sort_by_priority registered)
   else mret tt) =
  execute_handlers event_id data (sort_by_priority registered).
Proof. by destruct registered. Qed.

Lemma after_handlers_trace event_id data r :
  Forall not_handler_event (emitted (after_handlers event_id data r)).
Proof.
  unfold Router.after_handlers. rewrite emitted_bind. apply Forall_app. split.
  - apply forward_to_queue_trace.
  - destruct (outcome _); try constructor.
    apply console_not_handler_event, _log_event_spec.
Qed.

Lemma process_event_unfold fuel event_id event_data r data r1 tmw :
  apply_middlewares fuel 0 event_id (JObj event_data) r = Step (Done data) r1 tmw ->
  process_event fuel event_id event_data r =
    (fun r =>
       let m := (execute_handlers event_id data
                   (sort_by_priority (handlers_of r1 event_id))
                 ≫= fun _ => after_handlers event_id data) r1 in
       Step (outcome m) (state m) (tmw ++ emitted m)) r.
Proof.
  intros Hmw. unfold Router.process_event, Router.after_handlers.
  unfold mbind at 1, task_bind at 1. rewrite Hmw.
  unfold mbind at 1, task_bind at 1. cbn beta iota.
  rewrite handlers_loop_guard.
  match goal with
  | |- context [match ?x with Step _ _ _ => _ end] => by destruct x
  end.
Qed.

Lemma try_block_unfold fuel event_id event_data r :
  no_route r event_id = false ->
  try_block fuel event_id event_data r =
    (fun r =>
       let m := process_event fuel event_id event_data r in
       Step (outcome m) (state m)
         (emitted (_log_event lvl_debug ("Received event: " +:+ event_id)
                     (log_context event_id ++ [("event_data", JObj event_data)]) r)
          ++ emitted m)) r.
Proof.
  intros Hroute. unfold Router.try_block. rewrite log_bind.
  unfold mbind, task_bind. rewrite Hroute. cbn beta iota.
  by destruct (process_event fuel event_id event_data r).
Qed.

Lemma on_dispatch_error_trace event_id e r :
  Forall is_console (emitted (on_dispatch_error event_id e r)) /\
  Console lvl_error
    ("FILE: event_router.service.js | _initialize_router | Error processing event: "
     +:+ event_id) [] ∈ emitted (on_dispatch_error event_id e r) /\
  (e ≠ NullishValue -> outcome (on_dispatch_error event_id e r) = Done tt).
Proof.
  unfold on_dispatch_error. rewrite emitted_bind, outcome_bind. simpl.
  split_and!.
  - constructor; [done|]. rewrite emitted_bind.
    destruct e; simpl; try constructor; apply _log_event_spec.
  - left.
  - intros He. rewrite outcome_bind. destruct e; simpl; try done;
      apply _log_event_spec.
Qed.

Lemma listener_trace fuel event_id event_data r data r1 tmw :
  no_route r event_id = false ->
  apply_middlewares fuel 0 event_id (JObj event_data) r = Step (Done data) r1 tmw ->
  exists A B,
    emitted (listener fuel event_id event_data r) =
      A ++ emitted (execute_handlers event_id data
                      (sort_by_priority (handlers_of r1 event_id)) r1) ++ B /\
    Forall is_prelude A /\ Forall not_handler_event B.
Proof.
  intros Hroute Hmw.
  unfold Router.listener. rewrite emitted_try.
  rewrite (try_block_unfold _ _ _ _ Hroute).
  rewrite (process_event_unfold _ _ _ _ _ _ _ Hmw). simpl.
  rewrite emitted_bind, <- !app_assoc, (app_assoc _ tmw).
  eexists _, _. split; [reflexivity|]. split.
  - apply Forall_app. split.
    + eapply Forall_impl; [apply _log_event_spec|]. by left.
    + pose proof (apply_middlewares_trace fuel 0 event_id (JObj event_data) r) as H.
      rewrite Hmw in H. eapply Forall_impl; [exact H|]. by right.
  - apply Forall_app. split.
    + destruct (outcome (execute_handlers _ _ _ _)); try constructor.
      apply after_handlers_trace.
    + destruct (outcome _); try constructor.
      apply console_not_handler_event, on_dispatch_error_trace.
Qed.

Lemma gets_past_done event_id data (hs : list handler) r :
  Forall (fun h => gets_past handler_call h data) hs ->
  outcome (execute_handlers event_id data hs r) = Done tt.
Proof.
  intros H. revert r. induction H as [|h hs Hh _ IH]; intros r; simpl; [done|].
  rewrite outcome_bind.
  destruct (execute_handler_cases event_id data h r) as [_ Hc].
  unfold gets_past in Hh.
  destruct (settles (awaited h data)) as [? ?|? e|]; [| |done].
  - destruct Hc as [-> _]. apply IH.
  - destruct e; simpl in *; try done; destruct Hc as [-> _]; apply IH.
Qed.

Lemma process_event_raise fuel event_id event_data r e :
  outcome (apply_middlewares fuel 0 event_id (JObj event_data) r) = Raise e ->
  process_event fuel event_id event_data r =
    Step (Raise e)
      (state (apply_middlewares fuel 0 event_id (JObj event_data) r))
      (emitted (apply_middlewares fuel 0 event_id (JObj event_data) r)).
Proof.
  intros H. unfold Router.process_event, mbind at 1, task_bind at 1.
  destruct (apply_middlewares _ _ _ _ _) as [[?|?| |] ? ?]; simpl in H;
    by simplify_eq.
Qed.

(** When a middleware raises, the trace is the first log line, the calls of
    the middlewares, and what the [catch] of the listener prints. *)
Lemma listener_trace_raise fuel event_id event_data r e :
  no_route r event_id = false ->
  outcome (apply_middlewares fuel 0 event_id (JObj event_data) r) = Raise e ->
  let m := apply_middlewares fuel 0 event_id (JObj event_data) r in
  emitted (listener fuel event_id event_data r) =
    emitted (_log_event lvl_debug ("Received event: " +:+ event_id)
               (log_context event_id ++ [("event_data", JObj event_data)]) r)
    ++ emitted m ++ emitted (on_dispatch_error event_id e (state m)) /\
  outcome (listener fuel event_id event_data r) =
    outcome (on_dispatch_error event_id e (state m)).
Proof.
  intros Hroute Hmw m. subst m.
  unfold Router.listener. rewrite emitted_try, outcome_try.
  rewrite (try_block_unfold _ _ _ _ Hroute).
  rewrite (process_event_raise _ _ _ _ _ Hmw). simpl.
  by rewrite <- app_assoc.
Qed.

(** Every handler started by the dispatch stands in the sorted copy of the
    registrations found once the middlewares are through, in the same
    order; all of them are started when the loop gets past each one. *)
Lemma dispatch_runs_sorted_copy fuel event_id event_data r data r1 tmw :
  no_route r event_id = false ->
  apply_middlewares fuel 0 event_id (JObj event_data) r = Step (Done data) r1 tmw ->
  let sorted := sort_by_priority (handlers_of r1 event_id) in
  let t := emitted (listener fuel event_id event_data r) in
  exists A H B,
    t = A ++ H ++ B /\ Forall is_prelude A /\ Forall not_handler_event B /\
    handler_trace (handler_calls t) H /\
    handler_calls t `prefix_of` sorted /\
    (Forall (fun h => gets_past handler_call h data) sorted -> handler_calls t = sorted).
Proof.
  intros Hroute Hmw sorted t.
  destruct (listener_trace fuel event_id event_data r data r1 tmw Hroute Hmw)
    as (A & B & Ht & HA & HB).
  destruct (execute_handlers_shape event_id data sorted r1)
    as (called & Hpre & Htr & Hdone).
  assert (handler_calls t = called) as Hcalls.
  { subst t. rewrite Ht, !handler_calls_app.
    rewrite (handler_calls_quiet A) by by apply prelude_not_handler_event.
    rewrite (handler_calls_quiet B) by done.
    rewrite app_nil_r. simpl. by apply handler_trace_calls. }
  exists A, (emitted (execute_handlers event_id data sorted r1)), B.
  rewrite Hcalls. split_and!; try done.
  intros Hall. apply Hdone. by apply gets_past_done.
Qed.


(** When the loop gets past every handler, all of them are started and the
    event is then forwarded to the queue that is bound at that moment. *)
Lemma handler_fault_isolation fuel event_id event_data r data r1 tmw :
  no_route r event_id = false ->
  apply_middlewares fuel 0 event_id (JObj event_data) r = Step (Done data) r1 tmw ->
  let sorted := sort_by_priority (handlers_of r1 event_id) in
  let t := emitted (listener fuel event_id event_data r) in
  Forall (fun h => gets_past handler_call h data) sorted ->
  handler_calls t = sorted /\
  forall p,
    rabbitmq_publishers (state (execute_handlers event_id data sorted r1)) !! event_id
      = Some p ->
    PublishToQueue (queue_name p) data (options p) ∈ t.
Proof.
  intros Hroute Hmw sorted t Hall. split.
  { destruct (dispatch_runs_sorted_copy _ _ _ _ _ _ _ Hroute Hmw)
      as (_ & _ & _ & _ & _ & _ & _ & _ & Hfull). by apply Hfull. }
  intros p Hp. subst t.
  pose proof (gets_past_done event_id data sorted r1 Hall) as Hdone.
  unfold Router.listener. rewrite emitted_try.
  rewrite (try_block_unfold _ _ _ _ Hroute).
  rewrite (process_event_unfold _ _ _ _ _ _ _ Hmw). simpl.
  rewrite emitted_bind. fold sorted. rewrite Hdone.
  unfold Router.after_handlers. rewrite emitted_bind.
  destruct (forward_to_queue_bound event_id data _ p Hp) as (logs & -> & _).
  set_solver.
Qed.

End ListenerFacts.

(** * Properties of the Munshi service *)

Import Munshi.

Lemma prefix_split (a s : string) :
  String.prefix a s = true -> exists rest, s = a +:+ rest.
Proof.
  revert s. induction a as [|c a IH]; intros s H.
  - by exists s.
  - destruct s as [|c' s]; simpl in H; [done|].
    destruct (ascii_dec c c') as [->|]; [|done].
    destruct (IH s H) as [rest ->]. by exists rest.
Qed.

Lemma prefix_append (a rest : string) : String.prefix a (a +:+ rest) = true.
Proof.
  induction a as [|c a IH]; simpl; [by destruct rest|].
  by destruct (ascii_dec c c).
Qed.

Lemma circular_spec event_data :
  circular event_data <->
  is_rabbitmq_error event_data || is_mq_error event_data = true.
Proof.
  unfold circular, is_rabbitmq_error, is_mq_error. split.
  - intros [H|[rest H]]; rewrite H.
    + rewrite bool_decide_eq_true_2 by done. by rewrite orb_true_r.
    + by rewrite prefix_append.
  - intros [H|H]%orb_true_iff.
    + right. destruct (error_code event_data) as [code|]; [|done].
      destruct (prefix_split _ _ H) as [rest ->]. by exists rest.
    + left. by apply bool_decide_eq_true_1 in H.
Qed.

(** [split] cuts at the first line feed. *)
Lemma split_lines_first a b :
  single_line a = true ->
  split_lines (a +:+ line_feed +:+ b) = a :: split_lines b.
Proof.
  induction a as [|c a IH]; simpl; intros H; [done|].
  apply andb_prop in H as [Hc Ha]. rewrite (IH Ha).
  by destruct (bool_decide _).
Qed.

Lemma split_lines_single a : single_line a = true -> split_lines a = [a].
Proof.
  induction a as [|c a IH]; simpl; intros H; [done|].
  apply andb_prop in H as [Hc Ha]. rewrite (IH Ha).
  by destruct (bool_decide _).
Qed.

(** The caller line is the text between the first and the second line
    feed of the trace. *)
Lemma caller_line_of_second first second rest :
  single_line first = true -> single_line second = true ->
  caller_line_of (first +:+ line_feed +:+ second) = second /\
  caller_line_of (first +:+ line_feed +:+ second +:+ line_feed +:+ rest) = second.
Proof.
  intros H1 H2. unfold caller_line_of.
  rewrite !split_lines_first by done.
  by rewrite split_lines_single.
Qed.

Lemma extract_stack_trace_total err :
  exists t, extract_stack_trace err = Returned t.
Proof.
  unfold extract_stack_trace, extract_stack_trace_body, try_catch.
  destruct (stack err); [|by eexists].
  destruct (match_frame _); by eexists.
Qed.

Lemma build_system_log_returns event_data now :
  exists s,
    build_system_log event_data now = Returned s /\
    sl_ttl s = or_num (ttl event_data) munshi_ttl.
Proof.
  unfold build_system_log.
  destruct (extract_stack_trace_total (error event_data)) as [t ->].
  simpl. by eexists.
Qed.

(** ** Runs of the service, action by action *)

Lemma queue_sends_app l1 l2 : queue_sends (l1 ++ l2) = queue_sends l1 ++ queue_sends l2.
Proof. apply omap_app. Qed.

Lemma http_posts_app l1 l2 : http_posts (l1 ++ l2) = http_posts l1 ++ http_posts l2.
Proof. apply omap_app. Qed.

Lemma scheduled_app l1 l2 : scheduled (l1 ++ l2) = scheduled l1 ++ scheduled l2.
Proof. apply omap_app. Qed.

Lemma transports_app l1 l2 : transports (l1 ++ l2) = transports l1 ++ transports l2.
Proof. apply filter_app. Qed.

(** Console lines do not count for any of the readers. *)
Lemma queue_sends_transports l : queue_sends (transports l) = queue_sends l.
Proof.
  induction l as [|a l IH]; [done|].
  unfold transports in *. rewrite filter_cons.
  destruct a; simpl; rewrite ?IH; done.
Qed.

Lemma http_posts_transports l : http_posts (transports l) = http_posts l.
Proof.
  induction l as [|a l IH]; [done|].
  unfold transports in *. rewrite filter_cons.
  destruct a; simpl; rewrite ?IH; done.
Qed.

Lemma scheduled_transports l : scheduled (transports l) = scheduled l.
Proof.
  induction l as [|a l IH]; [done|].
  unfold transports in *. rewrite filter_cons.
  destruct a; simpl; rewrite ?IH; done.
Qed.

Lemma transports_cons a l :
  transports (a :: l) = if is_print a then transports l else a :: transports l.
Proof. unfold transports. rewrite filter_cons. by destruct a. Qed.

Lemma queue_sends_cons a l :
  queue_sends (a :: l) =
    match a with
    | SendToRabbitMQ _ msg => msg :: queue_sends l
    | _ => queue_sends l
    end.
Proof. by destruct a. Qed.

Lemma http_posts_cons a l :
  http_posts (a :: l) =
    match a with
    | AxiosPost _ data _ _ => data :: http_posts l
    | _ => http_posts l
    end.
Proof. by destruct a. Qed.

Lemma scheduled_cons a l :
  scheduled (a :: l) =
    match a with
    | SetTimeout t d => (t, d) :: scheduled l
    | _ => scheduled l
    end.
Proof. by destruct a. Qed.

Lemma queue_sends_quiet l : transports l = [] -> queue_sends l = [].
Proof. intros H. by rewrite <- queue_sends_transports, H. Qed.

Lemma http_posts_quiet l : transports l = [] -> http_posts l = [].
Proof. intros H. by rewrite <- http_posts_transports, H. Qed.

Lemma scheduled_quiet l : transports l = [] -> scheduled l = [].
Proof. intros H. by rewrite <- scheduled_transports, H. Qed.

Lemma clock_extend w a t : clock (extend w a t) = clock w.
Proof. reflexivity. Qed.

Lemma timers_extend w a t : timers (extend w a t) = t.
Proof. reflexivity. Qed.

Lemma done_so_far_extend w a t : done_so_far (extend w a t) = done_so_far w ++ a.
Proof. reflexivity. Qed.

Lemma extend_extend w a t b t' : extend (extend w a t) b t' = extend w (a ++ b) t'.
Proof. unfold extend. simpl. by rewrite app_assoc. Qed.

Lemma extend_nil w : extend w [] (timers w) = w.
Proof. destruct w. unfold extend. simpl. by rewrite app_nil_r. Qed.

(** Reading a run that is given as a concatenation of known actions and of
    stretches of console lines. *)
Ltac read_run :=
  repeat first
    [ rewrite transports_app | rewrite scheduled_app
    | rewrite queue_sends_app | rewrite http_posts_app
    | rewrite transports_cons | rewrite scheduled_cons
    | rewrite queue_sends_cons | rewrite http_posts_cons
    | match goal with
      | H : transports ?l = [] |- context [transports ?l] => rewrite H
      | H : transports ?l = [] |- context [scheduled ?l] =>
          rewrite (scheduled_quiet l H)
      | H : transports ?l = [] |- context [queue_sends ?l] =>
          rewrite (queue_sends_quiet l H)
      | H : transports ?l = [] |- context [http_posts ?l] =>
          rewrite (http_posts_quiet l H)
      end
    | progress change (transports []) with (@nil action)
    | progress change (scheduled []) with (@nil (deferred * Z))
    | progress change (queue_sends []) with (@nil queue_message)
    | progress change (http_posts []) with (@nil envelope)
    | progress cbn beta iota delta [is_print app]
    | rewrite app_nil_r ].

Section ServiceRuns.

Variable queue : nat -> string -> queue_message -> queue_answer.
Variable http : nat -> string -> envelope -> http_answer.

Abbreviation sendToRabbitMQ := (sendToRabbitMQ queue).
Abbreviation send_log_to_munshi_api := (send_log_to_munshi_api http).

Lemma console_run l text w :
  console l text w =
    (Returned tt, extend w [ConsoleLine l ("FILE: munshi.service.js | " +:+ text)] (timers w)).
Proof. reflexivity. Qed.

Lemma unix_seconds_run w : unix_seconds w = (Returned (clock w / 1000), w).
Proof. reflexivity. Qed.

Lemma setTimeout_run task delay_ms w :
  setTimeout task delay_ms w =
    (Returned tt,
     extend w [SetTimeout task delay_ms] (timers w ++ [(task, delay_ms)])).
Proof. reflexivity. Qed.

Lemma sendToRabbitMQ_run name msg w :
  sendToRabbitMQ name msg w =
    (match queue (length (queue_sends (done_so_far w))) name msg with
     | Queued => Returned tt
     | QueueError m => Thrown (ErrorObject m)
     end,
     extend w [SendToRabbitMQ name msg] (timers w)).
Proof.
  unfold Munshi.sendToRabbitMQ, act. simpl. by destruct (queue _ _ _).
Qed.

(** The fallback makes one post, never raises, and tells whether the
    endpoint answered 200 or 201. *)
Lemma send_log_to_munshi_api_run log_data log_category w :
  exists pre post,
    send_log_to_munshi_api log_data log_category w =
      (Returned (accepted (http (length (http_posts (done_so_far w)))
                             (api_url log_category) log_data)),
       extend w
         (pre ++ AxiosPost (api_url log_category) log_data munshi_app_api_key 5000
              :: post)
         (timers w)) /\
    transports pre = [] /\ transports post = [].
Proof.
  unfold Munshi.send_log_to_munshi_api, try_io, mbind, io_bind, axios_post.
  rewrite console_run.
  unfold act. cbn [done_so_far extend clock timers].
  rewrite http_posts_app. cbn [http_posts omap]. rewrite app_nil_r.
  fold (api_url log_category).
  destruct (http _ _ _) as [status|m]; cbn [accepted read_message].
  - destruct ((status =? 200) || (status =? 201));
      rewrite console_run; cbn [mret io_ret];
      eexists [_], [_];
      (split;
       [unfold extend; cbn [done_so_far clock timers]; by rewrite <- !app_assoc
       |done]).
  - rewrite console_run. cbn [mret io_ret].
    eexists [_], [_].
    split; [unfold extend; cbn [done_so_far clock timers]; by rewrite <- !app_assoc
           |done].
Qed.

Abbreviation report_to_munshi := (report_to_munshi queue http).
Abbreviation publish_general_log := (publish_general_log queue http).

(** The decision tree of [report_to_munshi], read off its run: which
    transport actions are made, in which order, and which timer is armed. *)
Lemma report_to_munshi_spec event_data w :
  let now := clock w / 1000 in
  let nq := length (queue_sends (done_so_far w)) in
  let nh := length (http_posts (done_so_far w)) in
  exists s new,
    build_system_log event_data now = Returned s /\
    report_to_munshi event_data w =
      (Returned tt, extend w new (timers w ++ scheduled new)) /\
    transports new =
      if is_rabbitmq_error event_data || is_mq_error event_data then
        [AxiosPost (api_url "system") (System s) munshi_app_api_key 5000]
      else
        match queue nq munshi_queue_name (system_message s now) with
        | Queued => [SendToRabbitMQ munshi_queue_name (system_message s now)]
        | QueueError _ =>
            [SendToRabbitMQ munshi_queue_name (system_message s now);
             AxiosPost (api_url "system") (System s) munshi_app_api_key 5000]
            ++ if accepted (http nh (api_url "system") (System s)) then []
               else [SetTimeout (RetrySystemLog s (error_code event_data)) 2000]
        end.
Proof.
  intros now nq nh. subst now nq nh.
  destruct (build_system_log_returns event_data (clock w / 1000)) as (s & Hs & _).
  exists s.
  unfold Munshi.report_to_munshi, try_io at 1, mbind, io_bind.
  rewrite console_run, unix_seconds_run. cbn beta iota.
  rewrite !clock_extend, Hs.
  destruct (is_rabbitmq_error event_data || is_mq_error event_data).
  - rewrite console_run. cbn beta iota.
    match goal with
    | |- context [send_log_to_munshi_api ?d ?c ?w'] =>
        destruct (send_log_to_munshi_api_run d c w') as (pre & post & -> & Hpre & Hpost)
    end.
    destruct (accepted _); rewrite console_run;
      rewrite ?extend_extend, ?timers_extend;
      (eexists; split; [done|]; split;
       [f_equal; f_equal; by read_run | by read_run]).
  - unfold try_io, system_queue_message, mbind, io_bind.
    rewrite unix_seconds_run. cbn beta iota. cbn [mret io_ret].
    rewrite sendToRabbitMQ_run, !clock_extend, !done_so_far_extend.
    fold (system_message s (clock w / 1000)).
    replace (length (queue_sends (done_so_far w ++ _)))
      with (length (queue_sends (done_so_far w))) by (by read_run).
    destruct (queue _ _ _) as [|m]; cbn [read_message].
    + rewrite console_run, ?extend_extend, ?timers_extend.
      eexists; split; [done|]; split;
        [f_equal; f_equal; by read_run | by read_run].
    + rewrite console_run. cbn beta iota.
      match goal with
      | |- context [send_log_to_munshi_api ?d ?c ?w'] =>
          destruct (send_log_to_munshi_api_run d c w') as (pre & post & -> & Hpre & Hpost)
      end.
      rewrite ?extend_extend, ?timers_extend, ?done_so_far_extend.
      replace (length (http_posts (done_so_far w ++ _)))
        with (length (http_posts (done_so_far w))) by (by read_run).
      destruct (accepted _); rewrite console_run; cbn beta iota;
        rewrite ?setTimeout_run, ?extend_extend, ?timers_extend;
        (eexists; split; [done|]; split;
         [f_equal; f_equal; by read_run | by read_run]).
Qed.


(** The decision tree of [publish_general_log]: the queue first, then the
    HTTP fallback, then one armed retry. *)
Lemma publish_general_log_spec event_data w :
  let now := clock w / 1000 in
  let g := build_general_log event_data now in
  let msg := general_message g (log_type event_data) now in
  let nq := length (queue_sends (done_so_far w)) in
  let nh := length (http_posts (done_so_far w)) in
  exists new,
    publish_general_log event_data w =
      (Returned tt, extend w new (timers w ++ scheduled new)) /\
    transports new =
      match queue nq munshi_queue_name msg with
      | Queued => [SendToRabbitMQ munshi_queue_name msg]
      | QueueError _ =>
          [SendToRabbitMQ munshi_queue_name msg;
           AxiosPost (api_url "general") (General g) munshi_app_api_key 5000]
          ++ if accepted (http nh (api_url "general") (General g)) then []
             else [SetTimeout (RetryGeneralLog g (log_type event_data)) 2000]
      end.
Proof.
  intros now g msg nq nh. subst now g msg nq nh.
  unfold Munshi.publish_general_log, try_io at 1, mbind, io_bind.
  rewrite console_run, unix_seconds_run. cbn beta iota zeta.
  rewrite !clock_extend.
  unfold try_io, general_queue_message, mbind, io_bind.
  rewrite unix_seconds_run. cbn beta iota. cbn [mret io_ret].
  rewrite sendToRabbitMQ_run, !clock_extend, !done_so_far_extend.
  fold (general_message (build_general_log event_data (clock w / 1000))
          (log_type event_data) (clock w / 1000)).
  replace (length (queue_sends (done_so_far w ++ _)))
    with (length (queue_sends (done_so_far w))) by (by read_run).
  destruct (queue _ _ _) as [|m]; cbn [read_message].
  - rewrite console_run, ?extend_extend, ?timers_extend.
    eexists; split; [f_equal; f_equal; by read_run | by read_run].
  - rewrite console_run. cbn beta iota.
    match goal with
    | |- context [send_log_to_munshi_api ?d ?c ?w'] =>
        destruct (send_log_to_munshi_api_run d c w')
          as (pre & post & -> & Hpre & Hpost)
    end.
    rewrite ?extend_extend, ?timers_extend, ?done_so_far_extend.
    replace (length (http_posts (done_so_far w ++ _)))
      with (length (http_posts (done_so_far w))) by (by read_run).
    destruct (accepted _); rewrite console_run; cbn beta iota;
      rewrite ?setTimeout_run, ?extend_extend, ?timers_extend;
      (eexists; split; [f_equal; f_equal; by read_run | by read_run]).
Qed.

(** A deferred retry is one send to the queue: it never raises, and it
    arms nothing. *)
Lemma run_deferred_spec task w :
  exists new,
    run_deferred queue task w = (Returned tt, extend w new (timers w)) /\
    transports new =
      [SendToRabbitMQ munshi_queue_name (retry_message task (clock w / 1000))].
Proof.
  destruct task as [data code|data type];
    unfold run_deferred, try_io, system_queue_message, general_queue_message,
      mbind, io_bind;
    rewrite unix_seconds_run; cbn beta iota; cbn [mret io_ret];
    rewrite sendToRabbitMQ_run;
    destruct (queue _ _ _) as [|m]; cbn [read_message];
    rewrite console_run, ?extend_extend, ?timers_extend;
    (eexists; split; [reflexivity | by read_run]).
Qed.

Lemma fire_timer_spec task delay_ms rest w :
  timers w = (task, delay_ms) :: rest ->
  exists new,
    fire_timer queue w =
      (Returned tt,
       {| clock := clock w + timer_delay delay_ms;
          done_so_far := done_so_far w ++ new;
          timers := rest |}) /\
    transports new =
      [SendToRabbitMQ munshi_queue_name
         (retry_message task ((clock w + timer_delay delay_ms) / 1000))].
Proof.
  intros Ht. unfold fire_timer. rewrite Ht.
  match goal with
  | |- context [run_deferred _ _ ?w'] =>
      destruct (run_deferred_spec task w') as (new & -> & Hnew)
  end.
  exists new. split; [reflexivity | exact Hnew].
Qed.

Lemma fire_timer_idle w : timers w = [] -> fire_timer queue w = (Returned tt, w).
Proof. intros Ht. unfold fire_timer. by rewrite Ht. Qed.

(** Over the whole decision tree at most three transport attempts are
    made: at most two by the report itself, and at most one timer is armed,
    which makes one. *)
Lemma attempts_never_exceed_three event_data w :
  exists new,
    report_to_munshi event_data w =
      (Returned tt, extend w new (timers w ++ scheduled new)) /\
    (attempts new <= 2)%nat /\
    (length (scheduled new) <= 1)%nat /\
    (attempts new + length (scheduled new) <= 3)%nat.
Proof.
  destruct (report_to_munshi_spec event_data w) as (s & new & _ & Hrun & Htr).
  exists new. split; [exact Hrun|]. unfold attempts.
  rewrite <- (queue_sends_transports new), <- (http_posts_transports new),
    <- (scheduled_transports new), Htr.
  destruct (_ || _); [simpl; lia|].
  destruct (queue _ _ _); [simpl; lia|].
  destruct (accepted _); simpl; lia.
Qed.

End ServiceRuns.

(** * The specification's statements about the router *)



(** C4, as the code has it.  [unregister_handler(event_id, handler_fn)]
    removes every registration of [handler_fn] for [event_id] (all the
    copies when the function was registered more than once, none when it
    was not registered) and keeps the others in their order; without a
    function it removes all the registrations of [event_id]; the
    registrations of the other events, the queue bindings and the
    middlewares stay as they were. *)
Theorem unregister_handler_removes_all_matches r event_id :
  (forall f,
     handlers_of (unregister_handler r event_id (Some f)) event_id =
       filter (fun h => fn h ≠ f) (handlers_of r event_id)) /\
  handlers (unregister_handler r event_id None) !! event_id = None /\
  (forall other handler_fn,
     other <> event_id ->
     handlers (unregister_handler r event_id handler_fn) !! other =
       handlers r !! other) /\
  (forall handler_fn,
     rabbitmq_publishers (unregister_handler r event_id handler_fn) =
       rabbitmq_publishers r /\
     middlewares (unregister_handler r event_id handler_fn) = middlewares r).
Proof.
  unfold unregister_handler, handlers_of. split_and!.
  - intros f. destruct (handlers r !! event_id) as [registered|] eqn:E; simpl.
    + by rewrite lookup_insert_eq.
    + by rewrite E.
  - destruct (handlers r !! event_id) eqn:E; simpl; [|done].
    by rewrite lookup_delete_eq.
  - intros other handler_fn Hne.
    destruct (handlers r !! event_id); [|done].
    destruct handler_fn; simpl.
    + by rewrite lookup_insert_ne.
    + by rewrite lookup_delete_ne.
  - intros handler_fn.
    destruct (handlers r !! event_id); [|done]. by destruct handler_fn.
Qed.

(** An instance of C4: another event is left alone. *)
Lemma unregister_handler_removes_all_matches_witness :
  "ORDER_PLACED" <> "USER_CREATED" /\
  handlers (unregister_handler Scenario.twice_router "USER_CREATED" (Some 7%nat))
    !! "ORDER_PLACED" = handlers Scenario.twice_router !! "ORDER_PLACED".
Proof.
  split; [done|].
  apply (unregister_handler_removes_all_matches Scenario.twice_router "USER_CREATED").
  done.
Defined.

(** C4 as it is written fails: with the same function registered twice
    for an event, one call of [unregister_handler] with that function
    removes both registrations, not exactly one. *)
Lemma unregister_handler_removes_both_copies :
  length (handlers_of Scenario.twice_router "USER_CREATED") = 2%nat /\
  length (handlers_of
            (unregister_handler Scenario.twice_router "USER_CREATED" (Some 7%nat))
            "USER_CREATED") = 0%nat.
Proof. split; vm_compute; reflexivity. Qed.

Section RouterClaims.

Variable middleware_call : fn_id -> string -> jsval -> call.
Variable handler_call : fn_id -> jsval -> call.
Variable publishToQueue : string -> jsval -> js_object -> call.

Abbreviation apply_middlewares := (apply_middlewares middleware_call).
Abbreviation execute_handlers := (execute_handlers handler_call).
Abbreviation listener := (listener middleware_call handler_call publishToQueue).
Abbreviation gets_past := (gets_past handler_call).
Abbreviation emit := (emit middleware_call handler_call publishToQueue).

(** C1, as the code has it.  The handlers of a dispatch are read when the
    middlewares have run, not when the dispatch starts: the handlers that
    are started are taken, in order, from the sorted copy of the
    registrations that [event_id] has at that moment ([r1] below), and they
    are that whole copy when the loop gets past each of them.  What the
    handlers do to the registry while they run changes nothing to it; what
    a middleware registered is part of it.  Without middlewares the copy is
    the one of the start of the dispatch. *)
Theorem handlers_are_read_after_the_middlewares
    fuel event_id event_data r data r1 tmw :
  no_route r event_id = false ->
  apply_middlewares fuel 0 event_id (JObj event_data) r = Step (Done data) r1 tmw ->
  let sorted := sort_by_priority (handlers_of r1 event_id) in
  let t := emitted (listener fuel event_id event_data r) in
  handler_calls t `prefix_of` sorted /\
  (Forall (fun h => gets_past h data) sorted -> handler_calls t = sorted) /\
  (middlewares r = [] -> r1 = r).
Proof.
  intros Hroute Hmw sorted t.
  destruct (dispatch_runs_sorted_copy middleware_call handler_call publishToQueue
              fuel event_id event_data r data r1 tmw Hroute Hmw)
    as (_ & _ & _ & _ & _ & _ & _ & Hpre & Hfull).
  split_and!; [done..|].
  intros Hnone. destruct fuel as [|fuel]; simpl in Hmw; [done|].
  rewrite Hnone in Hmw. simpl in Hmw. by injection Hmw.
Qed.

(** C5.  Once the middlewares are through, the handlers registered for the
    event run one at a time in the stable ascending order of their
    priorities: the sorted copy is a rearrangement of the registrations that
    is ascending and keeps the registration order inside each priority; the
    handler part of the trace is a sequence of calls, each followed at once
    by its settlement; the calls follow the sorted copy; and when a handler
    is called, every registered handler of smaller priority has already
    settled. *)
Theorem handlers_run_in_priority_order
    fuel event_id event_data r data r1 tmw :
  no_route r event_id = false ->
  apply_middlewares fuel 0 event_id (JObj event_data) r = Step (Done data) r1 tmw ->
  let sorted := sort_by_priority (handlers_of r1 event_id) in
  let t := emitted (listener fuel event_id event_data r) in
  sorted ≡ₚ handlers_of r1 event_id /\
  StronglySorted by_priority sorted /\
  (forall p, with_priority p sorted = with_priority p (handlers_of r1 event_id)) /\
  (exists A H B,
     t = A ++ H ++ B /\ Forall not_handler_event A /\ Forall not_handler_event B /\
     handler_trace (handler_calls t) H) /\
  handler_calls t `prefix_of` sorted /\
  (Forall (fun h => gets_past h data) sorted -> handler_calls t = sorted) /\
  (forall pre h2 d post,
     t = pre ++ CallHandler h2 d :: post ->
     forall h1, h1 ∈ sorted -> priority h1 < priority h2 ->
     exists how, SettledHandler h1 how ∈ pre).
Proof.
  intros Hroute Hmw sorted t.
  destruct (dispatch_runs_sorted_copy middleware_call handler_call publishToQueue
              fuel event_id event_data r data r1 tmw Hroute Hmw)
    as (A & H & B & Ht & HA & HB & Htr & Hpre & Hfull).
  fold sorted t in Ht, Htr, Hpre, Hfull.
  split_and!.
  - apply sort_by_priority_perm.
  - apply sort_by_priority_sorted.
  - intros p. apply sort_by_priority_stable.
  - exists A, H, B. split_and!; try done. by apply prelude_not_handler_event.
  - done.
  - done.
  - intros pre h2 d post Hsplit h1 Hin Hlt.
    rewrite Ht in Hsplit.
    destruct (split_middle not_handler_event A H B pre post (CallHandler h2 d))
      as (pre' & post' & -> & HH); [by apply prelude_not_handler_event|done|by intros []|done|].
    destruct (handler_trace_split _ _ _ _ _ _ Htr HH) as (c1 & c2 & Hc & _ & Hs).
    destruct Hpre as [rest Hrest]. rewrite Hc in Hrest.
    rewrite <- app_assoc in Hrest. simpl in Hrest.
    assert (h1 ∈ c1) as Hin1.
    { eapply sorted_before; [|by rewrite <- Hrest|done].
      rewrite <- Hrest. apply sort_by_priority_sorted. }
    destruct (Hs h1 Hin1) as [how Hhow]. exists how. set_solver.
Qed.

(** C7.  When a middleware of the chain raises, no handler of the event is
    started and nothing is forwarded to the queue; the [catch] of the
    listener prints the failure, and the producer's [emit] returns as
    usual.  The promise of the listener is fulfilled as well, unless the
    value raised is [undefined] or [null]. *)
Theorem middleware_failure_aborts_the_dispatch fuel event_id event_data r e :
  no_route r event_id = false ->
  outcome (apply_middlewares fuel 0 event_id (JObj event_data) r) = Raise e ->
  let t := emitted (listener fuel event_id event_data r) in
  handler_calls t = [] /\
  publish_calls t = [] /\
  Console lvl_error
    ("FILE: event_router.service.js | _initialize_router | Error processing event: "
     +:+ event_id) [] ∈ t /\
  emit fuel event_id event_data r = Returned true /\
  (e <> NullishValue -> outcome (listener fuel event_id event_data r) = Done tt).
Proof.
  intros Hroute Hmw t.
  destruct (listener_trace_raise middleware_call handler_call publishToQueue
              fuel event_id event_data r e Hroute Hmw)
    as [Ht Ho].
  destruct (on_dispatch_error_trace event_id e
              (state (apply_middlewares fuel 0 event_id (JObj event_data) r)))
    as (Hcons & Hline & Hdone).
  assert (Forall no_work t) as Hquiet.
  { subst t. rewrite Ht. rewrite !Forall_app. split_and!.
    - apply console_no_work, _log_event_spec.
    - apply middleware_no_work, apply_middlewares_trace.
    - by apply console_no_work. }
  destruct (no_work_calls t Hquiet) as [Hh Hp].
  split_and!; [done..| | |].
  - subst t. rewrite Ht. set_solver.
  - unfold Router.emit. by destruct (promise_of _).
  - intros He. rewrite Ho. by apply Hdone.
Qed.

End RouterClaims.

(** An instance of C1: the dispatch in which a middleware registers a
    second handler. *)
Lemma handlers_are_read_after_the_middlewares_witness :
  no_route Scenario.late_router "ORDER_PLACED" = false /\
  apply_middlewares Scenario.late_middleware 2 0 "ORDER_PLACED" (JObj [])
    Scenario.late_router =
    Step (Done (JObj []))
      (Scenario.register Scenario.late_router "ORDER_PLACED" 2 Scenario.no_options)
      [CallMiddleware 10 "ORDER_PLACED" (JObj [])] /\
  handler_calls
    (emitted (listener Scenario.late_middleware Scenario.idle_handler
                Scenario.idle_publisher 2 "ORDER_PLACED" [] Scenario.late_router))
  `prefix_of`
  sort_by_priority
    (handlers_of
       (Scenario.register Scenario.late_router "ORDER_PLACED" 2 Scenario.no_options)
       "ORDER_PLACED").
Proof.
  split; [vm_compute; reflexivity|]. split; [vm_compute; reflexivity|].
  apply (handlers_are_read_after_the_middlewares
           Scenario.late_middleware Scenario.idle_handler Scenario.idle_publisher
           2 "ORDER_PLACED" [] Scenario.late_router (JObj []) _
           [CallMiddleware 10 "ORDER_PLACED" (JObj [])]);
    vm_compute; reflexivity.
Defined.

(** C1 as it is written fails: a handler (function 2) that a middleware
    registers during the dispatch is not registered when the dispatch
    starts, and yet it runs in that same dispatch. *)
Lemma late_registration_runs_in_the_same_dispatch :
  map fn (handlers_of Scenario.late_router "ORDER_PLACED") = [1%nat] /\
  map fn (handler_calls
            (emitted (listener Scenario.late_middleware Scenario.idle_handler
                        Scenario.idle_publisher 2 "ORDER_PLACED" []
                        Scenario.late_router)))
    = [1%nat; 2%nat].
Proof. split; vm_compute; reflexivity. Qed.

(** An instance of C5: two handlers and no middleware; the first handler
    rejects with an [Error]. *)
Lemma handlers_run_in_priority_order_witness :
  no_route Scenario.guarded_router "SEND_EMAIL" = false /\
  apply_middlewares Scenario.idle_middleware 1 0 "SEND_EMAIL" (JObj [])
    Scenario.guarded_router =
    Step (Done (JObj [])) Scenario.guarded_router [] /\
  handler_calls
    (emitted (listener Scenario.idle_middleware
                (Scenario.rejecting_handler (ErrorObject "smtp down"))
                Scenario.idle_publisher 1 "SEND_EMAIL" [] Scenario.guarded_router))
  `prefix_of` sort_by_priority (handlers_of Scenario.guarded_router "SEND_EMAIL").
Proof.
  split; [vm_compute; reflexivity|]. split; [vm_compute; reflexivity|].
  apply (handlers_run_in_priority_order
           Scenario.idle_middleware
           (Scenario.rejecting_handler (ErrorObject "smtp down"))
           Scenario.idle_publisher
           1 "SEND_EMAIL" [] Scenario.guarded_router (JObj [])
           Scenario.guarded_router []);
    vm_compute; reflexivity.
Defined.

(** An instance of C7: the only middleware throws an [Error]. *)
Lemma middleware_failure_aborts_the_dispatch_witness :
  no_route Scenario.faulty_router "SEND_EMAIL" = false /\
  outcome (apply_middlewares Scenario.throwing_middleware 1 0 "SEND_EMAIL" (JObj [])
             Scenario.faulty_router) = Raise (ErrorObject "bad payload") /\
  handler_calls
    (emitted (listener Scenario.throwing_middleware Scenario.idle_handler
                Scenario.idle_publisher 1 "SEND_EMAIL" [] Scenario.faulty_router))
    = [].
Proof.
  split; [vm_compute; reflexivity|]. split; [vm_compute; reflexivity|].
  apply (middleware_failure_aborts_the_dispatch
           Scenario.throwing_middleware Scenario.idle_handler Scenario.idle_publisher
           1 "SEND_EMAIL" [] Scenario.faulty_router (ErrorObject "bad payload"));
    vm_compute; reflexivity.
Defined.

(** C6 at the input where the code fails.  Two handlers (priorities 1 and
    2) and a queue are registered for the event.  When the first handler
    rejects with [undefined], reading [handler_error.message] in the
    [catch] of the loop raises, the loop is left, and neither the second
    handler nor the forward to the queue is reached.  When it rejects with
    an [Error], both are. *)
Lemma nullish_rejection_stops_the_dispatch :
  map fn (sort_by_priority (handlers_of Scenario.guarded_router "SEND_EMAIL"))
    = [1%nat; 2%nat] /\
  queue_name <$> rabbitmq_publishers Scenario.guarded_router !! "SEND_EMAIL"
    = Some "email_queue" /\
  map fn (handler_calls
            (emitted (listener Scenario.idle_middleware
                        (Scenario.rejecting_handler NullishValue)
                        Scenario.idle_publisher 1 "SEND_EMAIL" []
                        Scenario.guarded_router)))
    = [1%nat] /\
  publish_calls
    (emitted (listener Scenario.idle_middleware
                (Scenario.rejecting_handler NullishValue)
                Scenario.idle_publisher 1 "SEND_EMAIL" [] Scenario.guarded_router))
    = [] /\
  map fn (handler_calls
            (emitted (listener Scenario.idle_middleware
                        (Scenario.rejecting_handler (ErrorObject "smtp down"))
                        Scenario.idle_publisher 1 "SEND_EMAIL" []
                        Scenario.guarded_router)))
    = [1%nat; 2%nat] /\
  publish_calls
    (emitted (listener Scenario.idle_middleware
                (Scenario.rejecting_handler (ErrorObject "smtp down"))
                Scenario.idle_publisher 1 "SEND_EMAIL" [] Scenario.guarded_router))
    = ["email_queue"].
Proof. repeat split; vm_compute; reflexivity. Qed.

(** * The specification's statements about the Munshi service *)

Section MunshiClaims.

Variable queue : nat -> string -> queue_message -> queue_answer.
Variable http : nat -> string -> envelope -> http_answer.

Abbreviation report_to_munshi := (report_to_munshi queue http).
Abbreviation publish_general_log := (publish_general_log queue http).
Abbreviation fire_timer := (fire_timer queue).

(** C2.  A report whose [error_type] is [MQ_ERROR] or whose [error_code]
    starts with [RABBITMQ-] makes no send to the queue and exactly one HTTP
    post; whatever the answer to the post, nothing else is attempted and no
    retry is armed, and the call returns normally. *)
Theorem circular_report_goes_over_http_only event_data w :
  circular event_data ->
  exists new,
    report_to_munshi event_data w = (Returned tt, extend w new (timers w)) /\
    queue_sends new = [] /\
    length (http_posts new) = 1%nat /\
    scheduled new = [] /\
    attempts new = 1%nat.
Proof.
  intros Hc%circular_spec.
  destruct (report_to_munshi_spec queue http event_data w)
    as (s & new & _ & Hrun & Htr).
  rewrite Hc in Htr.
  assert (queue_sends new = []) as Hq
    by (by rewrite <- queue_sends_transports, Htr).
  assert (http_posts new = [System s]) as Hh
    by (by rewrite <- http_posts_transports, Htr).
  assert (scheduled new = []) as Hs
    by (by rewrite <- scheduled_transports, Htr).
  exists new. rewrite Hs, app_nil_r in Hrun. unfold attempts.
  by rewrite Hrun, Hq, Hh, Hs.
Qed.

(** C3.  For a report that is not about the queue, when the send to the
    queue fails and the HTTP post is not accepted either, one retry is armed
    with a delay of 2000 ms.  When it fires it makes one more send to the
    queue, whose result is only printed: nothing is armed again.  In all,
    three transport attempts are made, and neither the report nor the retry
    raises. *)
Theorem double_failure_arms_one_retry event_data w :
  ~ circular event_data ->
  timers w = [] ->
  (forall msg,
     queue (length (queue_sends (done_so_far w))) munshi_queue_name msg <> Queued) ->
  (forall env,
     accepted (http (length (http_posts (done_so_far w))) (api_url "system") env)
       = false) ->
  exists s new w1 new' w2,
    let now := clock w / 1000 in
    let retry := RetrySystemLog s (error_code event_data) in
    report_to_munshi event_data w = (Returned tt, w1) /\
    w1 = extend w new [(retry, 2000)] /\
    transports new =
      [SendToRabbitMQ munshi_queue_name (system_message s now);
       AxiosPost (api_url "system") (System s) munshi_app_api_key 5000;
       SetTimeout retry 2000] /\
    fire_timer w1 = (Returned tt, w2) /\
    clock w2 = clock w + 2000 /\
    done_so_far w2 = done_so_far w1 ++ new' /\
    timers w2 = [] /\
    transports new' =
      [SendToRabbitMQ munshi_queue_name (system_message s ((clock w + 2000) / 1000))] /\
    attempts (new ++ new') = 3%nat /\
    fire_timer w2 = (Returned tt, w2).
Proof.
  intros Hnc Htm Hq Hh.
  destruct (report_to_munshi_spec queue http event_data w)
    as (s & new & _ & Hrun & Htr).
  destruct (is_rabbitmq_error event_data || is_mq_error event_data) eqn:Hc.
  { exfalso. by apply Hnc, circular_spec. }
  specialize (Hq (system_message s (clock w / 1000))).
  destruct (queue _ _ _) as [|m]; [done|].
  rewrite Hh in Htr. simpl in Htr.
  assert (scheduled new = [(RetrySystemLog s (error_code event_data), 2000)]) as Hs
    by (by rewrite <- scheduled_transports, Htr).
  rewrite Hs, Htm in Hrun. simpl in Hrun.
  destruct (fire_timer_spec queue (RetrySystemLog s (error_code event_data)) 2000 []
              (extend w new [(RetrySystemLog s (error_code event_data), 2000)]))
    as (new' & Hfire & Htr'); [done|].
  eexists s, new, _, new', _. cbn zeta.
  split; [exact Hrun|]. split; [reflexivity|]. split; [exact Htr|].
  split; [exact Hfire|]. cbn [clock done_so_far timers extend].
  split; [reflexivity|]. split; [reflexivity|]. split; [reflexivity|].
  split; [exact Htr'|]. split.
  - unfold attempts.
    rewrite queue_sends_app, http_posts_app.
    rewrite <- (queue_sends_transports new), <- (queue_sends_transports new').
    rewrite <- (http_posts_transports new), <- (http_posts_transports new').
    by rewrite Htr, Htr'.
  - by apply fire_timer_idle.
Qed.

(** C9, as the code has it.  The envelopes that [report_to_munshi] and
    [publish_general_log] hand to the queue or post over HTTP carry the
    caller's [ttl] when it is a number other than 0, and the default
    2592000 when it is missing or 0; so the [ttl] is positive whenever the
    caller's is missing or not negative, and 3600 is passed on as it is. *)
Theorem envelope_ttl_is_callers_or_default :
  (forall event_data w,
     exists new,
       report_to_munshi event_data w =
         (Returned tt, extend w new (timers w ++ scheduled new)) /\
       Forall (fun env => envelope_ttl env = or_num (ttl event_data) munshi_ttl)
         (http_posts new ++ map body (queue_sends new))) /\
  (forall event_data w,
     exists new,
       publish_general_log event_data w =
         (Returned tt, extend w new (timers w ++ scheduled new)) /\
       Forall (fun env => envelope_ttl env = or_num (a_ttl event_data) munshi_ttl)
         (http_posts new ++ map body (queue_sends new))) /\
  or_num None munshi_ttl = 2592000 /\
  or_num (Some 0) munshi_ttl = 2592000 /\
  or_num (Some 3600) munshi_ttl = 3600 /\
  (forall t, t <> 0 -> or_num (Some t) munshi_ttl = t) /\
  (forall t, 0 <= t -> 0 < or_num (Some t) munshi_ttl).
Proof.
  split_and!; try done.
  - intros event_data w.
    destruct (report_to_munshi_spec queue http event_data w)
      as (s & new & Hs & Hrun & Htr).
    destruct (build_system_log_returns event_data (clock w / 1000))
      as (s' & Hs' & Httl). rewrite Hs in Hs'. injection Hs' as <-.
    exists new. split; [exact Hrun|].
    rewrite <- (queue_sends_transports new), <- (http_posts_transports new), Htr.
    destruct (is_rabbitmq_error event_data || is_mq_error event_data).
    + by repeat constructor.
    + destruct (queue _ _ _); [by repeat constructor|].
      destruct (accepted _); by repeat constructor.
  - intros event_data w.
    destruct (publish_general_log_spec queue http event_data w) as (new & Hrun & Htr).
    exists new. split; [exact Hrun|].
    rewrite <- (queue_sends_transports new), <- (http_posts_transports new), Htr.
    destruct (queue _ _ _); [by repeat constructor|].
    destruct (accepted _); by repeat constructor.
  - intros t Ht. unfold or_num. destruct (Z.eqb_spec t 0); done.
  - intros t Ht. unfold or_num, munshi_ttl. destruct (Z.eqb_spec t 0); lia.
Qed.

End MunshiClaims.

(** C8.  A trace whose second line is the named frame
    [    at do_thing (/app/foo.js:42:7)] gives the file name [foo.js], the
    function name [do_thing], line 42 and column 7.  When the trace is
    missing, or when neither pattern matches its second line, the result is
    the placeholder [unknown.js], [anonymous], 0, 0.  The function returns
    in every case: it never raises. *)
Theorem extract_stack_trace_frames :
  (forall err text,
     stack err = Some text ->
     caller_line_of text = "    at do_thing (/app/foo.js:42:7)" ->
     exists t,
       extract_stack_trace err = Returned t /\
       file_name t = "foo.js" /\ function_name t = "do_thing" /\
       line_no t = 42 /\ column_no t = 7) /\
  (forall err,
     (stack err = None \/
      exists text,
        stack err = Some text /\
        Regex.search named_frame (caller_line_of text) = None /\
        Regex.search anonymous_frame (caller_line_of text) = None) ->
     extract_stack_trace err = Returned unknown_trace) /\
  (file_name unknown_trace = "unknown.js" /\
   function_name unknown_trace = "anonymous" /\
   line_no unknown_trace = 0 /\ column_no unknown_trace = 0) /\
  (forall err, exists t, extract_stack_trace err = Returned t).
Proof.
  split_and!; try done.
  - intros err text Hstack Hline.
    unfold extract_stack_trace, extract_stack_trace_body.
    rewrite Hstack. cbn beta iota zeta. rewrite Hline.
    vm_compute. eexists. by split_and!.
  - intros err [Hnone|(text & Hstack & Hn & Ha)];
      unfold extract_stack_trace, extract_stack_trace_body.
    + by rewrite Hnone.
    + rewrite Hstack. cbn beta iota zeta. unfold match_frame. by rewrite Hn, Ha.
  - apply extract_stack_trace_total.
Qed.

(** An instance of C2: a report tagged [MQ_ERROR] while the queue and the
    HTTP endpoint are both down. *)
Lemma circular_report_goes_over_http_only_witness :
  circular Outage.queue_failure /\
  exists new,
    report_to_munshi Outage.queue_down Outage.http_down Outage.queue_failure
      Outage.start
      = (Returned tt, extend Outage.start new (timers Outage.start)) /\
    queue_sends new = [] /\
    length (http_posts new) = 1%nat /\
    scheduled new = [] /\
    attempts new = 1%nat.
Proof.
  assert (circular Outage.queue_failure) as H by (left; reflexivity).
  split; [exact H|].
  exact (circular_report_goes_over_http_only Outage.queue_down Outage.http_down
           Outage.queue_failure Outage.start H).
Defined.

(** An instance of C3: a database failure reported while the queue and
    the HTTP endpoint are both down. *)
Lemma double_failure_arms_one_retry_witness :
  ~ circular Outage.database_failure /\
  exists w1 w2,
    report_to_munshi Outage.queue_down Outage.http_down Outage.database_failure
      Outage.start = (Returned tt, w1) /\
    length (timers w1) = 1%nat /\
    fire_timer Outage.queue_down w1 = (Returned tt, w2) /\
    timers w2 = [].
Proof.
  assert (~ circular Outage.database_failure) as H.
  { intros [H|[rest H]]; simpl in H; discriminate. }
  split; [exact H|].
  destruct (double_failure_arms_one_retry Outage.queue_down Outage.http_down
              Outage.database_failure Outage.start H)
    as (s & new & w1 & new' & w2 & Hrun & Hw1 & _ & Hfire & _ & _ & Htm & _);
    [reflexivity|done|done|].
  exists w1, w2. split_and!; [done| |done..]. by rewrite Hw1.
Defined.

(** An instance of C9: a lifetime of two hours is kept. *)
Lemma envelope_ttl_is_callers_or_default_witness :
  7200 <> 0 /\ or_num (Some 7200) munshi_ttl = 7200.
Proof.
  split; [done|].
  apply (envelope_ttl_is_callers_or_default Outage.queue_up Outage.http_up).
  done.
Defined.

(** C9 as it is written fails: a report with [ttl: -5] is put on the queue
    with that [ttl], which is not positive. *)
Lemma negative_ttl_is_sent_as_it_is :
  map (fun m => envelope_ttl (body m))
    (queue_sends
       (done_so_far
          (report_to_munshi Outage.queue_up Outage.http_up Outage.negative
             Outage.start).2))
    = [-5] /\
  ~ 0 < -5.
Proof. split; [vm_compute; reflexivity | lia]. Qed.

(** An instance of C8: a trace of three lines. *)
Lemma extract_stack_trace_frames_witness :
  stack Outage.caught = Some "Error: connection refused
    at do_thing (/app/foo.js:42:7)
    at main (/app/index.js:3:1)" /\
  caller_line_of "Error: connection refused
    at do_thing (/app/foo.js:42:7)
    at main (/app/index.js:3:1)" = "    at do_thing (/app/foo.js:42:7)" /\
  exists t,
    extract_stack_trace Outage.caught = Returned t /\
    file_name t = "foo.js" /\ function_name t = "do_thing" /\
    line_no t = 42 /\ column_no t = 7.
Proof.
  split; [reflexivity|]. split; [vm_compute; reflexivity|].
  apply (proj1 extract_stack_trace_frames Outage.caught _ eq_refl).
  vm_compute; reflexivity.
Defined.

(** * Further properties of the router *)

Section RouterGuard.

Variable middleware_call : fn_id -> string -> jsval -> call.
Variable handler_call : fn_id -> jsval -> call.
Variable publishToQueue : string -> jsval -> js_object -> call.

Abbreviation listener := (listener middleware_call handler_call publishToQueue).
Abbreviation try_block := (try_block middleware_call handler_call publishToQueue).

Lemma try_block_unrouted fuel event_id event_data r :
  no_route r event_id = true ->
  try_block fuel event_id event_data r =
    Step (Done tt) r
      (emitted (_log_event lvl_debug ("Received event: " +:+ event_id)
                  (log_context event_id ++ [("event_data", JObj event_data)]) r)
       ++ emitted (_log_event lvl_warn
                     ("No handlers registered for event: " +:+ event_id)
                     (log_context event_id) r)).
Proof.
  intros Hroute. unfold Router.try_block. rewrite log_bind.
  unfold mbind, task_bind. rewrite Hroute. cbn beta iota.
  destruct (_log_event_spec lvl_warn
              ("No handlers registered for event: " +:+ event_id)
              (log_context event_id) r) as (Ho & Hs & _).
  destruct (_log_event lvl_warn _ _ r) as [o s t]. simpl in *. by subst.
Qed.

(** X1.  An event that has neither a handler array nor a queue binding is
    dropped before anything runs: the dispatch calls no middleware, no
    handler and no queue, leaves the router as it is, and ends normally
    whatever the middlewares would have done (it needs no fuel).  All it
    writes are console lines; at the default log level that is the one
    warning [No handlers registered for event].  (The event id is not one
    of the names a registry object inherits.) *)
Theorem unrouted_event_is_dropped fuel event_id event_data r :
  ordinary_key event_id = true ->
  no_route r event_id = true ->
  outcome (listener fuel event_id event_data r) = Done tt /\
  state (listener fuel event_id event_data r) = r /\
  Forall is_console (emitted (listener fuel event_id event_data r)) /\
  (log_level r = LOG_INFO ->
   emitted (listener fuel event_id event_data r) =
     [Console lvl_warn
        ("FILE: event_router.service.js | warn | No handlers registered for event: "
         +:+ event_id)
        (log_context event_id)]).
Proof.
  intros _ Hroute. unfold Router.listener, try_task.
  rewrite (try_block_unrouted _ _ _ _ Hroute). simpl.
  split_and!; [done..| |].
  - apply Forall_app. split; apply _log_event_spec.
  - intros Hl. unfold _log_event. rewrite Hl. reflexivity.
Qed.

End RouterGuard.

(** An instance of X1: an event nobody registered for, on the router the
    constructor builds. *)
Lemma unrouted_event_is_dropped_witness :
  ordinary_key "NOBODY_LISTENS" = true /\
  no_route new_router "NOBODY_LISTENS" = true /\
  emitted (listener Scenario.throwing_middleware Scenario.idle_handler
             Scenario.idle_publisher 0 "NOBODY_LISTENS" [] new_router) =
    [Console lvl_warn
       "FILE: event_router.service.js | warn | No handlers registered for event: NOBODY_LISTENS"
       (log_context "NOBODY_LISTENS")].
Proof.
  split; [reflexivity|]. split; [reflexivity|].
  apply (unrouted_event_is_dropped Scenario.throwing_middleware Scenario.idle_handler
           Scenario.idle_publisher 0 "NOBODY_LISTENS" [] new_router);
    reflexivity.
Defined.

(** X2.  Removing the last handlers of an event by function leaves an
    empty array behind, which still routes the event: the guard lets a
    later dispatch through and the middlewares run for it.  Removing them
    without naming a function deletes the array, and the event is dropped
    again when no queue is bound to it. *)
Theorem unregister_by_function_keeps_the_event_routed
    middleware_call handler_call publishToQueue
    r event_id f hs m ms fuel event_data :
  ordinary_key event_id = true ->
  handlers r !! event_id = Some hs ->
  Forall (fun h => fn h = f) hs ->
  middlewares r = m :: ms ->
  let by_function := unregister_handler r event_id (Some f) in
  let at_once := unregister_handler r event_id None in
  handlers by_function !! event_id = Some [] /\
  no_route by_function event_id = false /\
  CallMiddleware m event_id (JObj event_data)
    ∈ emitted (listener middleware_call handler_call publishToQueue
                 (S fuel) event_id event_data by_function) /\
  (rabbitmq_publishers r !! event_id = None -> no_route at_once event_id = true).
Proof.
  intros _ Hhs Hall Hmw by_function at_once.
  assert (handlers by_function !! event_id = Some []) as Hempty.
  { subst by_function. unfold unregister_handler. rewrite Hhs. simpl.
    rewrite lookup_insert_eq. f_equal. clear Hhs.
    induction Hall as [|h hs Hh _ IH]; [done|].
    rewrite filter_cons. destruct (decide (fn h ≠ f)) as [Hn|_]; [by destruct Hn | exact IH]. }
  assert (no_route by_function event_id = false) as Hroute.
  { unfold no_route. rewrite Hempty. reflexivity. }
  split_and!; [done..| |].
  - unfold Router.listener. rewrite emitted_try.
    rewrite (try_block_unfold _ _ _ _ _ _ _ Hroute). simpl.
    assert (middlewares by_function = m :: ms) as Hm.
    { subst by_function. unfold unregister_handler. by rewrite Hhs. }
    unfold Router.process_event. rewrite emitted_bind. simpl. rewrite Hm. simpl.
    rewrite emitted_bind. simpl. set_solver.
  - intros Hnone. subst at_once. unfold no_route, unregister_handler.
    rewrite Hhs. simpl. rewrite lookup_delete_eq, Hnone. reflexivity.
Qed.

(** An instance of X2: the router with one function registered twice and
    one middleware. *)
Lemma unregister_by_function_keeps_the_event_routed_witness :
  no_route
    (unregister_handler (use Scenario.twice_router 10) "USER_CREATED" (Some 7%nat))
    "USER_CREATED" = false /\
  no_route (unregister_handler (use Scenario.twice_router 10) "USER_CREATED" None)
    "USER_CREATED" = true.
Proof.
  pose proof (unregister_by_function_keeps_the_event_routed
                Scenario.idle_middleware Scenario.idle_handler Scenario.idle_publisher
                (use Scenario.twice_router 10) "USER_CREATED" 7%nat
                (handlers_of Scenario.twice_router "USER_CREATED") 10%nat [] 0 [])
    as H.
  cbn zeta in H.
  destruct H as (_ & H1 & _ & H2);
    [reflexivity | vm_compute; reflexivity | repeat constructor | reflexivity |].
  split; [exact H1 | apply H2; vm_compute; reflexivity].
Defined.

(** X3.  A queue binding is one per event: registering a publisher for an
    event that has one replaces it, so that registering [q1] and then [q2]
    is the same as registering [q2]; the bindings of the other events and
    the handlers are not touched; unregistering removes the binding, and
    brings back the router as it was when the event had none.  An empty
    event id or queue name is refused with an [Error].  (The event id is
    not one of the names a registry object inherits.) *)
Theorem publisher_binding_is_replaced r event_id q1 o1 q2 o2 :
  ordinary_key event_id = true ->
  event_id <> "" -> q1 <> "" -> q2 <> "" ->
  exists r1 r2,
    register_rabbitmq_publisher r event_id q1 o1 = Returned r1 /\
    register_rabbitmq_publisher r1 event_id q2 o2 = Returned r2 /\
    register_rabbitmq_publisher r event_id q2 o2 = Returned r2 /\
    rabbitmq_publishers r2 !! event_id = Some (Publisher q2 o2) /\
    (forall other, other <> event_id ->
       rabbitmq_publishers r2 !! other = rabbitmq_publishers r !! other) /\
    handlers r2 = handlers r /\ middlewares r2 = middlewares r /\
    rabbitmq_publishers (unregister_rabbitmq_publisher r2 event_id) !! event_id = None /\
    (rabbitmq_publishers r !! event_id = None ->
     unregister_rabbitmq_publisher r2 event_id = r) /\
    register_rabbitmq_publisher r "" q1 o1 =
      Thrown (ErrorObject "Event ID must be a non-empty string") /\
    register_rabbitmq_publisher r event_id "" o1 =
      Thrown (ErrorObject "Queue name must be a non-empty string").
Proof.
  intros _ Hid H1 H2. unfold register_rabbitmq_publisher.
  destruct (decide (event_id = "")) as [|_]; [done|].
  destruct (decide (q1 = "")) as [|_]; [done|].
  destruct (decide (q2 = "")) as [|_]; [done|].
  eexists _, _. split; [reflexivity|]. split; [reflexivity|].
  split_and!.
  - unfold set_publishers. simpl. by rewrite insert_insert_eq.
  - simpl. by rewrite lookup_insert_eq.
  - intros other Hne. simpl. by rewrite !lookup_insert_ne.
  - done.
  - done.
  - unfold unregister_rabbitmq_publisher. simpl. rewrite lookup_insert_eq. simpl.
    by rewrite lookup_delete_eq.
  - intros Hnone. unfold unregister_rabbitmq_publisher. simpl.
    rewrite lookup_insert_eq. unfold set_publishers. simpl.
    rewrite insert_insert_eq, delete_insert_id by done. by destruct r.
  - done.
  - by destruct (decide ("" = "")).
Qed.

(** An instance of X3: a binding of [SEND_EMAIL] replaced on a new router. *)
Lemma publisher_binding_is_replaced_witness :
  register_rabbitmq_publisher
    (Scenario.after (register_rabbitmq_publisher new_router "SEND_EMAIL" "email_queue" [])
       new_router)
    "SEND_EMAIL" "bulk_email_queue" [] =
  register_rabbitmq_publisher new_router "SEND_EMAIL" "bulk_email_queue" [].
Proof.
  destruct (publisher_binding_is_replaced new_router "SEND_EMAIL"
              "email_queue" [] "bulk_email_queue" [])
    as (r1 & r2 & H1 & H2 & H3 & _); [done..|].
  rewrite H1. simpl. by rewrite H2, H3.
Defined.

(** ** The registry invariant *)

Lemma default_name_not_empty event_id (n : nat) :
  event_id <> "" -> event_id +:+ "_handler_" +:+ pretty n <> "".
Proof. by destruct event_id. Qed.

Lemma or_str_not_empty x d : d <> "" -> or_str x d <> "".
Proof. intros Hd. by destruct x as [[|a s]|]. Qed.

Lemma register_handler_stores_well r event_id f opts r' :
  register_handler r event_id f opts = Returned r' ->
  event_id <> "" /\
  exists entry,
    stored_well entry /\ fn entry = f /\
    handlers r' = <[event_id := handlers_of r event_id ++ [entry]]> (handlers r) /\
    rabbitmq_publishers r' = rabbitmq_publishers r /\
    middlewares r' = middlewares r /\ log_level r' = log_level r.
Proof.
  unfold register_handler. destruct (decide (event_id = "")) as [|Hne]; [done|].
  intros [= <-]. split; [done|]. eexists.
  refine (conj _ (conj _ (conj eq_refl _))); [|done..].
  split_and!; simpl.
  - unfold or_num. destruct (opt_priority opts) as [n|]; [|done].
    destruct (Z.eqb_spec n 0); done.
  - unfold or_null. destruct (opt_timeout opts) as [n|]; [|done].
    destruct (Z.eqb_spec n 0); [done|]. by intros [= ->].
  - by apply or_str_not_empty, default_name_not_empty.
Qed.

Lemma sound_handlers_of r event_id :
  sound r -> Forall stored_well (handlers_of r event_id).
Proof.
  intros (Hh & _ & _). unfold handlers_of.
  destruct (handlers r !! event_id) as [hs|] eqn:E; [|constructor].
  by apply (Hh event_id hs).
Qed.

Lemma reachable_sound r : reachable r -> sound r.
Proof.
  induction 1 as [|r event_id f opts r' _ IH Hreg|r event_id f _ IH
                  |r event_id queue opts r' _ IH Hreg|r event_id _ IH
                  |r f _ IH|r l _ IH].
  - split_and!; [intros ? ? H; simpl in H; by rewrite lookup_empty in H..| |];
      simpl; unfold LOG_INFO; lia.
  - destruct (register_handler_stores_well _ _ _ _ _ Hreg)
      as (Hne & entry & Hwell & _ & Hh & Hp & _ & Hl).
    pose proof (sound_handlers_of r event_id IH) as Hold.
    destruct IH as (IHh & IHp & IHl). split_and!.
    + intros ev hs. rewrite Hh. destruct (decide (ev = event_id)) as [->|Hev].
      * rewrite lookup_insert_eq. intros [= <-]. split; [done|].
        apply Forall_app. split; [done|]. by constructor.
      * rewrite lookup_insert_ne by done. apply IHh.
    + rewrite Hp. apply IHp.
    + rewrite Hl. lia.
    + rewrite Hl. lia.
  - destruct IH as (IHh & IHp & IHl). unfold unregister_handler.
    destruct (handlers r !! event_id) as [registered|] eqn:E; [|done].
    destruct f as [f|]; (split_and!; [|done|simpl; lia..]); simpl; intros ev hs.
    + destruct (decide (ev = event_id)) as [->|Hev].
      * rewrite lookup_insert_eq. intros [= <-].
        destruct (IHh _ _ E) as [Hne Hall]. split; [done|].
        rewrite Forall_forall in Hall. apply Forall_forall. intros h Hin.
        apply list_elem_of_filter in Hin as [_ Hin]. by apply Hall.
      * rewrite lookup_insert_ne by done. apply IHh.
    + destruct (decide (ev = event_id)) as [->|Hev].
      * by rewrite lookup_delete_eq.
      * rewrite lookup_delete_ne by done. apply IHh.
  - destruct IH as (IHh & IHp & IHl). revert Hreg. unfold register_rabbitmq_publisher.
    destruct (decide (event_id = "")) as [|Hne]; [done|].
    destruct (decide (queue = "")) as [|Hq]; [done|].
    intros [= <-]. split_and!; [done| |simpl; lia..]. simpl. intros ev p.
    destruct (decide (ev = event_id)) as [->|Hev].
    + rewrite lookup_insert_eq. by intros [= <-].
    + rewrite lookup_insert_ne by done. apply IHp.
  - destruct IH as (IHh & IHp & IHl). unfold unregister_rabbitmq_publisher.
    destruct (rabbitmq_publishers r !! event_id) as [p0|] eqn:E; [|done].
    split_and!; [done| |simpl; lia..]. simpl. intros ev p.
    destruct (decide (ev = event_id)) as [->|Hev].
    + by rewrite lookup_delete_eq.
    + rewrite lookup_delete_ne by done. apply IHp.
  - destruct IH as (IHh & IHp & IHl). split_and!; [done..| |]; simpl; lia.
  - destruct IH as (IHh & IHp & IHl). split_and!; [done..| |]; simpl;
      destruct l; unfold level_map, LOG_ERROR, LOG_WARN, LOG_INFO, LOG_DEBUG; lia.
Qed.

(** X4.  Whatever sequence of [register_handler], [unregister_handler],
    [register_rabbitmq_publisher], [unregister_rabbitmq_publisher], [use]
    and [set_log_level] calls has been made on the router the constructor
    builds: no registry has the empty string as a key, every stored
    handler has a non-zero priority, a timeout that is [null] or non-zero
    and a non-empty name, every binding has a non-empty queue name, and
    the log level is between 0 and 3.  So the ['anonymous'] fallback of
    the handler error log is never used, a handler has a timer exactly
    when its timeout is not [null], and an [error] line is written at
    every level [set_log_level] can set. *)
Theorem reachable_router_keeps_its_invariant r :
  reachable r ->
  sound r /\
  (forall event_id h, h ∈ handlers_of r event_id ->
     or_str (Some (name h)) "anonymous" = name h /\
     (truthy_num (timeout h) = true <-> timeout h <> None)) /\
  (forall message data,
     emitted (_log_event lvl_error message data r) =
       [Console lvl_error ("FILE: event_router.service.js | error | " +:+ message) data]).
Proof.
  intros Hr. pose proof (reachable_sound r Hr) as Hs. split; [done|]. split.
  - intros event_id h Hin.
    pose proof (sound_handlers_of r event_id Hs) as Hall.
    rewrite Forall_forall in Hall. destruct (Hall h Hin) as (_ & Ht & Hn). split.
    + unfold or_str. by destruct (name h).
    + unfold truthy_num. destruct (timeout h) as [n|]; [|by split].
      destruct (Z.eqb_spec n 0) as [->|]; [done|]. by split.
  - intros message data. apply _log_event_error. by destruct Hs as (_ & _ & [? ?]).
Qed.

(** An instance of X4: a handler registered with priority 0, timeout 0 and
    an empty name. *)
Lemma reachable_router_keeps_its_invariant_witness :
  reachable (Scenario.register new_router "USER_CREATED" 7
               (HandlerOptions (Some 0) (Some 0) (Some ""))) /\
  sound (Scenario.register new_router "USER_CREATED" 7
           (HandlerOptions (Some 0) (Some 0) (Some ""))).
Proof.
  assert (reachable (Scenario.register new_router "USER_CREATED" 7
                       (HandlerOptions (Some 0) (Some 0) (Some "")))) as H.
  { eapply (reach_register_handler new_router "USER_CREATED" 7%nat
              (HandlerOptions (Some 0) (Some 0) (Some ""))); [constructor | reflexivity]. }
  split; [exact H|].
  exact (proj1 (reachable_router_keeps_its_invariant _ H)).
Defined.

(** ** One dispatch, from the middlewares to the queue *)

Section DispatchFacts.

Variable middleware_call : fn_id -> string -> jsval -> call.
Variable handler_call : fn_id -> jsval -> call.
Variable publishToQueue : string -> jsval -> js_object -> call.

Abbreviation apply_middlewares := (apply_middlewares middleware_call).
Abbreviation execute_handler := (execute_handler handler_call).
Abbreviation execute_handlers := (execute_handlers handler_call).
Abbreviation listener := (listener middleware_call handler_call publishToQueue).
Abbreviation forward_to_queue := (forward_to_queue publishToQueue).
Abbreviation after_handlers := (after_handlers publishToQueue).
Abbreviation awaited := (awaited handler_call).
Abbreviation gets_past := (gets_past handler_call).
Abbreviation fed := (fed middleware_call).

Lemma middleware_calls_app t1 t2 :
  middleware_calls (t1 ++ t2) = middleware_calls t1 ++ middleware_calls t2.
Proof. apply omap_app. Qed.

(** The whole listener, once the guard has let the event through and the
    middlewares have returned. *)
Lemma listener_unfold fuel event_id event_data r data r1 tmw :
  no_route r event_id = false ->
  apply_middlewares fuel 0 event_id (JObj event_data) r = Step (Done data) r1 tmw ->
  let m := (execute_handlers event_id data (sort_by_priority (handlers_of r1 event_id))
            ≫= fun _ => after_handlers event_id data) r1 in
  let front :=
    emitted (_log_event lvl_debug ("Received event: " +:+ event_id)
               (log_context event_id ++ [("event_data", JObj event_data)]) r) ++ tmw in
  listener fuel event_id event_data r =
    match outcome m with
    | Raise e =>
        let c := on_dispatch_error event_id e (state m) in
        Step (outcome c) (state c) (front ++ emitted m ++ emitted c)
    | o => Step o (state m) (front ++ emitted m)
    end.
Proof.
  intros Hroute Hmw m front. subst front.
  unfold Router.listener, try_task.
  rewrite (try_block_unfold _ _ _ _ _ _ _ Hroute).
  rewrite (process_event_unfold _ _ _ _ _ _ _ _ _ _ Hmw). cbn zeta. fold m.
  rewrite <- !app_assoc.
  destruct (outcome m); simpl; try done.
  destruct (on_dispatch_error _ _ _). simpl. by rewrite <- !app_assoc.
Qed.

Lemma execute_handler_carries event_id data h r :
  Forall (carries data) (emitted (execute_handler event_id data h r)).
Proof.
  destruct (execute_handler_cases handler_call event_id data h r) as [_ Hc].
  cbn zeta in Hc.
  destruct (settles (awaited h data)) as [? ?|? e|].
  - destruct Hc as [_ ->]. by repeat constructor.
  - destruct (read_message e).
    + destruct Hc as [_ ->]. repeat (constructor; [done|]).
      eapply Forall_impl; [apply _log_event_spec|]. by intros [].
    + destruct Hc as [_ ->]. by repeat constructor.
  - destruct Hc as [_ ->]. by repeat constructor.
Qed.

Lemma execute_handlers_carries event_id data (hs : list handler) r :
  Forall (carries data) (emitted (execute_handlers event_id data hs r)).
Proof.
  revert r. induction hs as [|h hs IH]; intros r; simpl; [constructor|].
  rewrite emitted_bind. apply Forall_app. split.
  - apply execute_handler_carries.
  - destruct (outcome _); try constructor. apply IH.
Qed.

Lemma console_carries data t : Forall is_console t -> Forall (carries data) t.
Proof. intros H. eapply Forall_impl; [exact H|]. by intros []. Qed.

Lemma after_handlers_carries event_id data r :
  Forall (carries data) (emitted (after_handlers event_id data r)).
Proof.
  unfold Router.after_handlers. rewrite emitted_bind. apply Forall_app. split.
  - destruct (rabbitmq_publishers r !! event_id) as [p|] eqn:E.
    + destruct (forward_to_queue_bound publishToQueue event_id data r p E)
        as (logs & -> & Hl).
      constructor; [done|]. by apply console_carries.
    + rewrite forward_to_queue_unbound by done. constructor.
  - destruct (outcome _); try constructor.
    apply console_carries, _log_event_spec.
Qed.

(** The loop over a list in two parts. *)
Lemma execute_handlers_app event_id data (l1 l2 : list handler) r :
  outcome (execute_handlers event_id data l1 r) = Done tt ->
  execute_handlers event_id data (l1 ++ l2) r =
    let s1 := execute_handlers event_id data l1 r in
    let s2 := execute_handlers event_id data l2 (state s1) in
    Step (outcome s2) (state s2) (emitted s1 ++ emitted s2).
Proof.
  revert r. induction l1 as [|h l1 IH]; intros r; simpl.
  - intros _. by destruct (execute_handlers event_id data l2 r).
  - unfold mbind, task_bind.
    destruct (execute_handler event_id data h r) as [[[]|e| |] r' t]; simpl; try done.
    intros Ho. rewrite IH.
    + cbn zeta.
      destruct (execute_handlers event_id data l1 r') as [o1 s1 t1]. simpl.
      by rewrite app_assoc.
    + by destruct (execute_handlers event_id data l1 r').
Qed.

Lemma execute_handlers_calls event_id data (hs : list handler) r :
  outcome (execute_handlers event_id data hs r) = Done tt ->
  handler_calls (emitted (execute_handlers event_id data hs r)) = hs /\
  publish_calls (emitted (execute_handlers event_id data hs r)) = [].
Proof.
  intros Ho.
  destruct (execute_handlers_shape handler_call event_id data hs r)
    as (called & _ & Ht & Hd).
  rewrite <- (Hd Ho) at 2. split.
  - by apply handler_trace_calls.
  - by eapply handler_trace_publish.
Qed.

(** The middleware loop from position [i]. *)
Lemma apply_middlewares_chain fuel event_id :
  forall i data r,
    let s := apply_middlewares fuel i event_id data r in
    (forall out, outcome s = Done out ->
       fed event_id data (middleware_calls (emitted s)) out) /\
    ((forall f d r',
        middlewares (effect (middleware_call f event_id d) r') = middlewares r') ->
     (middleware_calls (emitted s)).*1 `prefix_of` drop i (middlewares r) /\
     middlewares (state s) = middlewares r /\
     (forall out, outcome s = Done out ->
        (middleware_calls (emitted s)).*1 = drop i (middlewares r))).
Proof.
  induction fuel as [|fuel IH]; intros i data r; simpl.
  { split; [done|]. intros _. split_and!; [apply prefix_nil|done..]. }
  destruct (middlewares r !! i) as [m|] eqn:E; simpl.
  2: { split; [intros out [= <-]; constructor|]. intros _.
    rewrite drop_ge by by apply lookup_ge_None. done. }
  unfold mbind, task_bind, observe, await. simpl.
  destruct (settles (middleware_call m event_id data)) as [t v|t e|] eqn:Es; simpl.
  - specialize (IH (S i) v (effect (middleware_call m event_id data) r)).
    cbn zeta in IH. destruct IH as [IHfed IHstatic].
    destruct (apply_middlewares fuel (S i) event_id v _) as [o r' tr] eqn:Er.
    simpl in *. split.
    + intros out Ho. eapply fed_cons; [exact Es|]. by apply IHfed.
    + intros Hstatic. destruct (IHstatic Hstatic) as (Hp & Hm & Hd).
      rewrite Hstatic in Hp, Hm, Hd. rewrite (drop_S _ _ _ E). split_and!.
      * by apply prefix_cons.
      * done.
      * intros out Ho. f_equal. by apply (Hd out).
  - split; [done|]. intros Hstatic. rewrite (drop_S _ _ _ E). split_and!.
    + apply prefix_cons, prefix_nil.
    + apply Hstatic.
    + done.
  - split; [done|]. intros Hstatic. rewrite (drop_S _ _ _ E). split_and!.
    + apply prefix_cons, prefix_nil.
    + apply Hstatic.
    + done.
Qed.

(** X5.  The handlers and the queue get the payload the middleware chain
    produced, not the one that was emitted: every handler call and every
    forward of the dispatch carries the value the last middleware returned,
    where the first middleware got a copy of the emitted object and each
    later one the value returned by the one before it. *)
Theorem handlers_and_queue_get_the_chain_result
    fuel event_id event_data r data r1 tmw :
  no_route r event_id = false ->
  apply_middlewares fuel 0 event_id (JObj event_data) r = Step (Done data) r1 tmw ->
  fed event_id (JObj event_data) (middleware_calls tmw) data /\
  Forall (carries data) (emitted (listener fuel event_id event_data r)).
Proof.
  intros Hroute Hmw. split.
  { pose proof (apply_middlewares_chain fuel event_id 0 (JObj event_data) r) as H.
    cbn zeta in H. rewrite Hmw in H. simpl in H. by apply H. }
  rewrite (listener_unfold _ _ _ _ _ _ _ Hroute Hmw). cbn zeta.
  assert (Forall (carries data)
            (emitted (_log_event lvl_debug ("Received event: " +:+ event_id)
                        (log_context event_id ++ [("event_data", JObj event_data)]) r)
             ++ tmw)) as Hfront.
  { apply Forall_app. split; [apply console_carries, _log_event_spec|].
    pose proof (apply_middlewares_trace middleware_call fuel 0 event_id
                  (JObj event_data) r) as H.
    rewrite Hmw in H. eapply Forall_impl; [exact H|]. by intros []. }
  assert (forall r', Forall (carries data)
            (emitted ((execute_handlers event_id data
                         (sort_by_priority (handlers_of r1 event_id))
                       ≫= fun _ => after_handlers event_id data) r'))) as Hmid.
  { intros r'. rewrite emitted_bind. apply Forall_app. split.
    - apply execute_handlers_carries.
    - destruct (outcome _); try constructor. apply after_handlers_carries. }
  destruct (outcome _); simpl; (apply Forall_app; split; [exact Hfront|]);
    try apply Hmid.
  apply Forall_app. split; [apply Hmid|].
  apply console_carries, on_dispatch_error_trace.
Qed.

(** X6.  When no middleware changes the list of middlewares while it runs,
    the chain calls them in the order [use] added them, each one once:
    all of them when the chain returns, the first ones up to the one that
    raised or never returned otherwise; and the list is the same after
    the chain as before. *)
Theorem middlewares_run_in_registration_order fuel event_id data r :
  (forall f d r', middlewares (effect (middleware_call f event_id d) r') = middlewares r') ->
  (length (middlewares r) < fuel)%nat ->
  let s := apply_middlewares fuel 0 event_id data r in
  outcome s <> NoFuel /\
  (middleware_calls (emitted s)).*1 `prefix_of` middlewares r /\
  middlewares (state s) = middlewares r /\
  (forall out, outcome s = Done out ->
     (middleware_calls (emitted s)).*1 = middlewares r /\
     fed event_id data (middleware_calls (emitted s)) out).
Proof.
  intros Hstatic Hfuel s. subst s.
  destruct (apply_middlewares_chain fuel event_id 0 data r) as [Hfed Hord].
  destruct (Hord Hstatic) as (Hp & Hm & Hd). rewrite drop_0 in Hp, Hd.
  split_and!; try done.
  - apply (apply_middlewares_fuel middleware_call event_id Hstatic). lia.
  - intros out Ho. split; [by apply (Hd out) | by apply Hfed].
Qed.

(** X7.  A handler with a timeout [T] whose promise has not settled when
    the timer fires (after [T] ms, or after 1 ms when [T] is below 1 or
    above 2147483647) is settled by the timer: the loop records the
    rejection [Handler execution timed out after Tms], writes the error
    line for it and goes on with the handlers behind it, in the router as
    the call left it. *)
Theorem timed_out_handler_is_reported_and_passed
    event_id data h (rest : list handler) r T :
  timeout h = Some T -> T <> 0 ->
  settles_before (settles (handler_call (fn h) data)) (timer_delay T) = false ->
  let r' := effect (handler_call (fn h) data) r in
  0 <= log_level r' ->
  let s := execute_handlers event_id data rest r' in
  execute_handlers event_id data (h :: rest) r =
    Step (outcome s) (state s)
      ([CallHandler h data;
        SettledHandler h (HandlerRejected (timed_out T));
        Console lvl_error
          ("FILE: event_router.service.js | error | Handler error for event " +:+ event_id)
          (log_context event_id
             ++ [("handler", JStr (or_str (Some (name h)) "anonymous"));
                 ("error", JStr ("Handler execution timed out after "
                                 +:+ pretty T +:+ "ms"))])]
       ++ emitted s).
Proof.
  intros HT Hnz Hlate r' Hlvl s. subst s r'.
  assert (truthy_num (timeout h) = true) as Htruthy.
  { rewrite HT. simpl. by destruct (Z.eqb_spec T 0). }
  assert (settles (awaited h data) = Rejects (timer_delay T) (timed_out T)) as Hs.
  { unfold Router.awaited. rewrite Htruthy, HT. simpl.
    destruct (settles (handler_call (fn h) data)); simpl in Hlate;
      rewrite ?Hlate; done. }
  assert (effect (awaited h data) = effect (handler_call (fn h) data)) as He.
  { unfold Router.awaited. by rewrite Htruthy. }
  destruct (execute_handler_cases handler_call event_id data h r) as [Hst Hc].
  cbn zeta in Hst, Hc. rewrite Hs in Hc. simpl in Hc. destruct Hc as [Ho Hem].
  rewrite He in Hst, Hem.
  unfold handler_error_log in Hem. rewrite _log_event_error in Hem by done.
  simpl. unfold mbind, task_bind.
  destruct (execute_handler event_id data h r) as [o st t]. simpl in *. subst.
  by destruct (execute_handlers event_id data rest _).
Qed.

(** X8.  A handler without a timeout (one registered with [timeout: 0]
    is such a handler) whose promise never settles holds the dispatch for
    ever: the promise of the listener stays pending, the handlers sorted
    behind it are never called, nothing is forwarded to the queue, and the
    call of that handler is the last thing the dispatch does. *)
Theorem hung_handler_without_timeout_stalls_the_dispatch
    fuel event_id event_data r data r1 tmw (pre : list handler) h post :
  no_route r event_id = false ->
  apply_middlewares fuel 0 event_id (JObj event_data) r = Step (Done data) r1 tmw ->
  sort_by_priority (handlers_of r1 event_id) = pre ++ h :: post ->
  Forall (fun h => gets_past h data) pre ->
  truthy_num (timeout h) = false ->
  settles (handler_call (fn h) data) = NeverSettles ->
  let s := listener fuel event_id event_data r in
  promise_of (outcome s) = Pending /\
  handler_calls (emitted s) = pre ++ [h] /\
  publish_calls (emitted s) = [] /\
  last (emitted s) = Some (CallHandler h data).
Proof.
  intros Hroute Hmw Hsorted Hpre Htimeout Hnever s. subst s.
  pose proof (gets_past_done handler_call event_id data pre r1 Hpre) as Hdone.
  destruct (execute_handlers_calls event_id data pre r1 Hdone) as [Hcalls Hpub].
  assert (settles (awaited h data) = NeverSettles) as Hs.
  { unfold Router.awaited. by rewrite Htimeout. }
  assert (forall r', outcome (execute_handlers event_id data (h :: post) r') = Suspend /\
                     emitted (execute_handlers event_id data (h :: post) r')
                       = [CallHandler h data]) as Hh.
  { intros r'. simpl. rewrite outcome_bind, emitted_bind.
    destruct (execute_handler_cases handler_call event_id data h r') as [_ Hc].
    cbn zeta in Hc. rewrite Hs in Hc. destruct Hc as [-> ->]. done. }
  rewrite (listener_unfold _ _ _ _ _ _ _ Hroute Hmw). cbn zeta.
  rewrite Hsorted, outcome_bind, emitted_bind.
  rewrite (execute_handlers_app _ _ _ _ _ Hdone).
  cbn [outcome state emitted].
  destruct (Hh (state (execute_handlers event_id data pre r1))) as [-> ->].
  cbn [outcome state emitted promise_of]. rewrite app_nil_r.
  assert (handler_calls tmw = [] /\ publish_calls tmw = []) as [Hmc Hmp].
  { apply no_work_calls, middleware_no_work.
    pose proof (apply_middlewares_trace middleware_call fuel 0 event_id
                  (JObj event_data) r) as H.
    by rewrite Hmw in H. }
  match goal with
  | |- context [emitted (_log_event ?l ?msg ?d r)] =>
      destruct (no_work_calls _ (console_no_work _
                  (proj2 (proj2 (_log_event_spec l msg d r))))) as [Hlc Hlp];
      generalize dependent (emitted (_log_event l msg d r)); intros lg Hlc Hlp
  end.
  split_and!.
  - done.
  - rewrite !handler_calls_app, Hlc, Hmc, Hcalls. done.
  - rewrite !publish_calls_app, Hlp, Hmp, Hpub. done.
  - rewrite !app_assoc. apply last_snoc.
Qed.

(** X25.  The chain walks the live list of middlewares: a middleware that
    the last one of the list adds while it runs is called in the same
    dispatch, right after it and with the value it returned. *)
Theorem middleware_added_by_the_last_one_is_called
    fuel event_id data r (ms : list fn_id) m m2 t v :
  middlewares r = ms ++ [m] ->
  settles (middleware_call m event_id data) = Fulfils t v ->
  middlewares (effect (middleware_call m event_id data) r) = ms ++ [m; m2] ->
  exists rest,
    emitted (apply_middlewares (S (S fuel)) (length ms) event_id data r) =
      CallMiddleware m event_id data :: CallMiddleware m2 event_id v :: rest.
Proof.
  intros Hms Hsettles Hadded.
  assert (middlewares r !! length ms = Some m) as H1.
  { rewrite Hms. by apply list_lookup_middle. }
  assert (middlewares (effect (middleware_call m event_id data) r) !! S (length ms)
            = Some m2) as H2.
  { rewrite Hadded. change (ms ++ [m; m2]) with (ms ++ [m] ++ [m2]).
    rewrite app_assoc. apply list_lookup_middle. rewrite length_app. simpl. lia. }
  cbn [Router.apply_middlewares]. rewrite H1.
  rewrite emitted_bind. cbn [observe outcome state emitted].
  rewrite emitted_bind. unfold await at 1 2 3. rewrite Hsettles.
  cbn [outcome state emitted]. rewrite H2.
  rewrite emitted_bind. cbn [observe outcome state emitted app].
  by eexists.
Qed.

End DispatchFacts.

Section MissingPublisher.

Variable middleware_call : fn_id -> string -> jsval -> call.
Variable handler_call : fn_id -> jsval -> call.


End MissingPublisher.

(** An instance of X5: two middlewares that mark the payload, in front of
    two handlers and a bound queue. *)
Lemma handlers_and_queue_get_the_chain_result_witness :
  Forall (carries (Drill.stamp (Drill.stamp (JObj [("to", JStr "ada")]))))
    (emitted (listener Drill.stamping_middleware Scenario.idle_handler
                Scenario.idle_publisher 3 "SEND_EMAIL" [("to", JStr "ada")]
                Drill.stamped_router)).
Proof.
  refine (proj2 (handlers_and_queue_get_the_chain_result
                   Drill.stamping_middleware Scenario.idle_handler
                   Scenario.idle_publisher 3 "SEND_EMAIL" [("to", JStr "ada")]
                   Drill.stamped_router
                   (Drill.stamp (Drill.stamp (JObj [("to", JStr "ada")])))
                   Drill.stamped_router
                   [CallMiddleware 10 "SEND_EMAIL" (JObj [("to", JStr "ada")]);
                    CallMiddleware 11 "SEND_EMAIL"
                      (Drill.stamp (JObj [("to", JStr "ada")]))] _ _));
    vm_compute; reflexivity.
Defined.

(** An instance of X6: the same two middlewares. *)
Lemma middlewares_run_in_registration_order_witness :
  (middleware_calls
     (emitted (apply_middlewares Drill.stamping_middleware 3 0 "SEND_EMAIL" (JObj [])
                 Drill.stamped_router))).*1
  `prefix_of` middlewares Drill.stamped_router.
Proof.
  refine (proj1 (proj2 (middlewares_run_in_registration_order
                          Drill.stamping_middleware 3 "SEND_EMAIL" (JObj [])
                          Drill.stamped_router _ _))).
  - intros f d r'. reflexivity.
  - vm_compute. lia.
Defined.

(** An instance of X7: a handler with a timeout of 500 ms that never
    settles, in front of a second handler. *)
Lemma timed_out_handler_is_reported_and_passed_witness :
  handler_calls
    (emitted (execute_handlers Drill.hung_handler "SEND_EMAIL" (JObj [])
                [Handler 1 1 (Some 500) "SEND_EMAIL_handler_1";
                 Handler 2 2 None "SEND_EMAIL_handler_2"]
                Drill.timed_router)) =
  [Handler 1 1 (Some 500) "SEND_EMAIL_handler_1";
   Handler 2 2 None "SEND_EMAIL_handler_2"].
Proof.
  rewrite (timed_out_handler_is_reported_and_passed Drill.hung_handler
             "SEND_EMAIL" (JObj []) (Handler 1 1 (Some 500) "SEND_EMAIL_handler_1")
             [Handler 2 2 None "SEND_EMAIL_handler_2"] Drill.timed_router 500).
  - reflexivity.
  - reflexivity.
  - discriminate.
  - reflexivity.
  - vm_compute. discriminate.
Defined.

(** An instance of X8: the first of two handlers never settles and has no
    timeout. *)
Lemma hung_handler_without_timeout_stalls_the_dispatch_witness :
  promise_of
    (outcome (listener Scenario.idle_middleware Drill.hung_handler
                Scenario.idle_publisher 1 "SEND_EMAIL" [] Scenario.guarded_router))
  = Pending.
Proof.
  refine (proj1 (hung_handler_without_timeout_stalls_the_dispatch
                   Scenario.idle_middleware Drill.hung_handler Scenario.idle_publisher
                   1 "SEND_EMAIL" [] Scenario.guarded_router (JObj [])
                   Scenario.guarded_router [] []
                   (Handler 1 1 None "SEND_EMAIL_handler_1")
                   [Handler 2 2 None "SEND_EMAIL_handler_2"] _ _ _ _ _ _));
    try (vm_compute; reflexivity).
  constructor.
Defined.


(** An instance of X25: the only middleware adds a second one. *)
Lemma middleware_added_by_the_last_one_is_called_witness :
  exists rest,
    emitted (apply_middlewares Drill.recruiting_middleware 2 0 "SEND_EMAIL" (JObj [])
               Scenario.faulty_router) =
      CallMiddleware 10 "SEND_EMAIL" (JObj [])
        :: CallMiddleware 11 "SEND_EMAIL" (JObj []) :: rest.
Proof.
  apply (middleware_added_by_the_last_one_is_called Drill.recruiting_middleware
           0 "SEND_EMAIL" (JObj []) Scenario.faulty_router [] 10%nat 11%nat 0 (JObj []));
    reflexivity.
Defined.

(** * Further properties of the Munshi service *)

Lemma get_set_field o key v : get_field (set_field o key v) key = Some v.
Proof.
  induction o as [|[k w] o IH]; simpl.
  - by destruct (decide (key = key)).
  - destruct (decide (k = key)) as [->|Hne]; simpl.
    + by destruct (decide (key = key)).
    + by destruct (decide (k = key)).
Qed.

Lemma get_set_field_other o key v other :
  other <> key -> get_field (set_field o key v) other = get_field o other.
Proof.
  intros Hne. induction o as [|[k w] o IH]; simpl.
  - by destruct (decide (key = other)).
  - destruct (decide (k = key)) as [->|Hk]; simpl.
    + by destruct (decide (key = other)).
    + destruct (decide (k = other)); [done | exact IH].
Qed.

Lemma until_slash_free l : Forall (fun c => is_slash c = false) (until_slash l).
Proof.
  induction l as [|c l IH]; simpl; [constructor|].
  destruct (is_slash c) eqn:E; by constructor.
Qed.

Lemma basename_slash_free p : slash_free (basename p).
Proof.
  unfold slash_free, basename. rewrite list_ascii_of_string_of_list_ascii.
  apply Forall_forall. intros c Hc.
  apply list_elem_of_In, in_rev, list_elem_of_In in Hc.
  revert c Hc. apply Forall_forall, until_slash_free.
Qed.

(** X10.  The origin trace of a report is always well formed: whatever the
    error and its trace text, [extract_stack_trace] returns a trace whose
    function name is not empty (an empty capture is replaced by
    [anonymous]) and whose file name has no slash in it, being what
    follows the last slash of the captured path. *)
Theorem origin_trace_is_well_formed err :
  exists t,
    extract_stack_trace err = Returned t /\
    function_name t <> "" /\
    slash_free (file_name t) /\
    (file_name t = basename (file_path t) \/ t = unknown_trace).
Proof.
  unfold extract_stack_trace, extract_stack_trace_body, try_catch.
  assert (slash_free (file_name unknown_trace)) as Hu.
  { unfold slash_free. simpl. repeat constructor. }
  destruct (stack err) as [text|]; [|by exists unknown_trace; split_and!; auto].
  destruct (match_frame _) as [found|]; [|by exists unknown_trace; split_and!; auto].
  eexists. split; [reflexivity|]. simpl. split_and!.
  - unfold or_str. by destruct (Regex.group 1 found).
  - apply basename_slash_free.
  - by left.
Qed.

(** X11.  The envelope of an error report always says where it came from:
    in [metadata] the fields [reported_via], [error_type] and
    [nonblocking] are the service's, whatever the caller put under these
    names, and in [other_data] so are [error_message], [error_stack] and
    [reported_at]; every other field of the caller's [metadata] and
    [other_data] is passed on as it is.  The application id is 1020 and
    the entry time is the second of the report. *)
Theorem bookkeeping_fields_are_the_services event_data now :
  exists s,
    build_system_log event_data now = Returned s /\
    sl_app_id s = 1020 /\ sl_entry_time s = now /\
    get_field (sl_metadata s) "reported_via" = Some (JStr "munshi_service") /\
    get_field (sl_metadata s) "error_type" = Some (opt_str (error_type event_data)) /\
    get_field (sl_metadata s) "nonblocking"
      = Some (JNum (or_num (nonblocking event_data) 0)) /\
    (forall key, key ∉ ["reported_via"; "error_type"; "nonblocking"] ->
       get_field (sl_metadata s) key = get_field (default [] (metadata event_data)) key) /\
    get_field (sl_other_data s) "error_message"
      = Some (JStr (message (error event_data))) /\
    get_field (sl_other_data s) "error_stack"
      = Some (opt_str (stack (error event_data))) /\
    get_field (sl_other_data s) "reported_at" = Some (JNum now) /\
    (forall key, key ∉ ["error_message"; "error_stack"; "reported_at"] ->
       get_field (sl_other_data s) key
         = get_field (default [] (other_data event_data)) key).
Proof.
  unfold build_system_log.
  destruct (extract_stack_trace_total (error event_data)) as [t ->].
  eexists. split; [reflexivity|]. simpl.
  split_and!; try done.
  - rewrite !get_set_field_other by done. apply get_set_field.
  - rewrite get_set_field_other by done. apply get_set_field.
  - apply get_set_field.
  - intros key Hkey. rewrite !get_set_field_other; [done|set_solver..].
  - rewrite !get_set_field_other by done. apply get_set_field.
  - rewrite get_set_field_other by done. apply get_set_field.
  - apply get_set_field.
  - intros key Hkey. rewrite !get_set_field_other; [done|set_solver..].
Qed.

Lemma timer_delay_positive ms : 0 < timer_delay ms.
Proof.
  unfold timer_delay. destruct (Z.ltb_spec ms 1); simpl; [lia|].
  destruct (2147483647 <? ms); lia.
Qed.

Section MunshiExtras.

Variable queue : nat -> string -> queue_message -> queue_answer.
Variable http : nat -> string -> envelope -> http_answer.

Abbreviation send_log_to_munshi_api := (send_log_to_munshi_api http).
Abbreviation report_to_munshi := (report_to_munshi queue http).
Abbreviation publish_general_log := (publish_general_log queue http).
Abbreviation run_deferred := (run_deferred queue).
Abbreviation fire_timer := (fire_timer queue).

Lemma accepted_statuses a :
  accepted a = true <-> a = Response 200 \/ a = Response 201.
Proof.
  destruct a as [status|m]; simpl.
  - rewrite orb_true_iff, !Z.eqb_eq. split.
    + intros [->| ->]; auto.
    + intros [[= ->]|[= ->]]; auto.
  - split; [done|]. by intros [|].
Qed.

(** X12.  The HTTP fallback makes exactly one post, to
    [http://172.18.0.26:7575/api/logs/<category>], with the API key and a
    time limit of 5000 ms; it never raises, whatever the endpoint does; it
    sends nothing to the queue and arms no timer; and it returns [true]
    exactly when the endpoint answers with status 200 or 201 (any other
    answer, a 202 or a 204 as well, counts as a failure). *)
Theorem fallback_posts_once_and_never_raises log_data log_category w :
  let answer := http (length (http_posts (done_so_far w)))
                  ("http://172.18.0.26:7575/api/logs/" +:+ log_category) log_data in
  exists new,
    send_log_to_munshi_api log_data log_category w =
      (Returned (accepted answer), extend w new (timers w)) /\
    transports new =
      [AxiosPost ("http://172.18.0.26:7575/api/logs/" +:+ log_category) log_data
         "24df7feb2b3942a32273d55fe25f1" 5000] /\
    (accepted answer = true <-> answer = Response 200 \/ answer = Response 201).
Proof.
  intros answer.
  destruct (send_log_to_munshi_api_run http log_data log_category w)
    as (pre & post & Hrun & Hpre & Hpost).
  eexists. split; [exact Hrun|]. split.
  - by read_run.
  - apply accepted_statuses.
Qed.

(** X13.  A report that is not about the queue climbs the ladder one rung
    at a time.  It always makes one send to the queue, first.  It posts
    over HTTP only when that send failed, and it arms the retry only when
    the post was not accepted either: a report the queue took makes no
    post and arms nothing, and one the fallback delivered arms nothing. *)
Theorem fallback_ladder_is_climbed_in_order event_data w :
  ~ circular event_data ->
  let now := clock w / 1000 in
  let nq := length (queue_sends (done_so_far w)) in
  let nh := length (http_posts (done_so_far w)) in
  exists s new,
    build_system_log event_data now = Returned s /\
    report_to_munshi event_data w =
      (Returned tt, extend w new (timers w ++ scheduled new)) /\
    queue_sends new = [system_message s now] /\
    (exists rest, transports new =
       SendToRabbitMQ munshi_queue_name (system_message s now) :: rest) /\
    (queue nq munshi_queue_name (system_message s now) = Queued ->
     http_posts new = [] /\ scheduled new = []) /\
    (queue nq munshi_queue_name (system_message s now) <> Queued ->
     http_posts new = [System s] /\
     (accepted (http nh (api_url "system") (System s)) = true -> scheduled new = []) /\
     (accepted (http nh (api_url "system") (System s)) = false ->
      scheduled new = [(RetrySystemLog s (error_code event_data), 2000)])).
Proof.
  intros Hnc now nq nh.
  destruct (report_to_munshi_spec queue http event_data w)
    as (s & new & Hs & Hrun & Htr).
  destruct (is_rabbitmq_error event_data || is_mq_error event_data) eqn:Hc.
  { exfalso. by apply Hnc, circular_spec. }
  exists s, new. split; [exact Hs|]. split; [exact Hrun|].
  rewrite <- (queue_sends_transports new), <- (http_posts_transports new),
    <- (scheduled_transports new), Htr.
  fold now nq nh.
  destruct (queue nq munshi_queue_name (system_message s now)) as [|m].
  - split_and!; try done; by eexists.
  - destruct (accepted _); split_and!; try done; by eexists.
Qed.


(** X15.  The envelope of a report is built once.  Every attempt of the
    report carries that same envelope: the message sent to the queue, the
    body posted over HTTP, and the task handed to the timer; and when the
    timer fires, at whatever time, the retry sends the same envelope
    again, with the entry time of the report, under a [queued_at] read
    anew. *)
Theorem every_attempt_carries_the_same_envelope event_data w :
  let now := clock w / 1000 in
  exists s new,
    build_system_log event_data now = Returned s /\
    report_to_munshi event_data w =
      (Returned tt, extend w new (timers w ++ scheduled new)) /\
    Forall (fun msg => msg = system_message s now) (queue_sends new) /\
    Forall (fun env => env = System s) (http_posts new) /\
    forall task delay_ms, (task, delay_ms) ∈ scheduled new ->
      delay_ms = 2000 /\
      forall w', exists new',
        run_deferred task w' = (Returned tt, extend w' new' (timers w')) /\
        transports new' =
          [SendToRabbitMQ munshi_queue_name (system_message s (clock w' / 1000))].
Proof.
  intros now.
  destruct (report_to_munshi_spec queue http event_data w)
    as (s & new & Hs & Hrun & Htr).
  exists s, new. split; [exact Hs|]. split; [exact Hrun|].
  rewrite <- (queue_sends_transports new), <- (http_posts_transports new),
    <- (scheduled_transports new), Htr.
  assert (forall task delay_ms,
            (task, delay_ms) ∈ [(RetrySystemLog s (error_code event_data), 2000)] ->
            delay_ms = 2000 /\
            forall w', exists new',
              run_deferred task w' = (Returned tt, extend w' new' (timers w')) /\
              transports new' =
                [SendToRabbitMQ munshi_queue_name
                   (system_message s (clock w' / 1000))]) as Hretry.
  { intros task delay_ms [= -> ->]%list_elem_of_singleton. split; [done|].
    intros w'. apply (run_deferred_spec queue). }
  destruct (_ || _).
  { split_and!; [by repeat constructor..|]. simpl. intros ? ? []%elem_of_nil. }
  destruct (queue _ _ _) as [|m].
  { split_and!; [by repeat constructor..|]. simpl. intros ? ? []%elem_of_nil. }
  destruct (accepted _); simpl.
  - split_and!; [by repeat constructor..|]. intros ? ? []%elem_of_nil.
  - split_and!; [by repeat constructor..|]. exact Hretry.
Qed.

(** X16.  A retry never cascades.  Firing a timer makes at most one send
    to the queue and no HTTP post, arms nothing, never raises, takes the
    timer off the list and moves the clock on; so a report made when no
    timer is armed, followed by its retry, makes at most three transport
    attempts in all, after which nothing is left to fire. *)
Theorem retries_do_not_cascade event_data w :
  timers w = [] ->
  exists new w1 new' w2,
    report_to_munshi event_data w = (Returned tt, w1) /\
    done_so_far w1 = done_so_far w ++ new /\
    (length (timers w1) <= 1)%nat /\
    fire_timer w1 = (Returned tt, w2) /\
    done_so_far w2 = done_so_far w1 ++ new' /\
    http_posts new' = [] /\ scheduled new' = [] /\
    length (queue_sends new') = length (timers w1) /\
    timers w2 = [] /\
    clock w <= clock w2 /\
    (attempts (new ++ new') <= 3)%nat /\
    fire_timer w2 = (Returned tt, w2).
Proof.
  intros Htm.
  destruct (attempts_never_exceed_three queue http event_data w)
    as (new & Hrun & Hatt & Hsch & Hall).
  rewrite Htm in Hrun. simpl in Hrun.
  destruct (scheduled new) as [|[task delay_ms] more] eqn:Es.
  - exists new, (extend w new []), [], (extend w new []).
    split; [exact Hrun|]. split; [reflexivity|]. split; [simpl; lia|].
    split; [by apply fire_timer_idle|]. split; [by rewrite app_nil_r|].
    split; [done|]. split; [done|]. split; [done|]. split; [done|].
    split; [simpl; lia|]. split; [rewrite app_nil_r; lia|].
    by apply fire_timer_idle.
  - assert (more = []) as -> by (destruct more; [done | simpl in Hsch; lia]).
    destruct (fire_timer_spec queue task delay_ms [] (extend w new [(task, delay_ms)]))
      as (new' & Hfire & Htr'); [done|].
    eexists new, _, new', _. split; [exact Hrun|].
    split; [reflexivity|]. split; [simpl; lia|]. split; [exact Hfire|].
    cbn [clock done_so_far timers extend].
    assert (queue_sends new' = [retry_message task ((clock w + timer_delay delay_ms) / 1000)])
      as Hq by (by rewrite <- queue_sends_transports, Htr').
    assert (http_posts new' = []) as Hh by (by rewrite <- http_posts_transports, Htr').
    assert (scheduled new' = []) as Hs by (by rewrite <- scheduled_transports, Htr').
    split_and!; try done.
    + by rewrite Hq.
    + pose proof (timer_delay_positive delay_ms). lia.
    + unfold attempts in *. rewrite queue_sends_app, http_posts_app, Hq, Hh, !length_app.
      simpl in *. lia.
Qed.

End MunshiExtras.

(** An instance of X13: a database failure reported while the queue is up. *)
Lemma fallback_ladder_is_climbed_in_order_witness :
  ~ circular Outage.database_failure /\
  exists s new,
    report_to_munshi Outage.queue_up Outage.http_down Outage.database_failure
      Outage.start
      = (Returned tt, extend Outage.start new (timers Outage.start ++ scheduled new)) /\
    queue_sends new = [system_message s (clock Outage.start / 1000)].
Proof.
  assert (~ circular Outage.database_failure) as H.
  { intros [H|[rest H]]; simpl in H; discriminate. }
  split; [exact H|].
  destruct (fallback_ladder_is_climbed_in_order Outage.queue_up Outage.http_down
              Outage.database_failure Outage.start H)
    as (s & new & _ & Hrun & Hq & _).
  by exists s, new.
Defined.

(** An instance of X16: a database failure reported while the queue and
    the HTTP endpoint are both down. *)
Lemma retries_do_not_cascade_witness :
  timers Outage.start = [] /\
  exists w1 w2,
    report_to_munshi Outage.queue_down Outage.http_down Outage.database_failure
      Outage.start = (Returned tt, w1) /\
    fire_timer Outage.queue_down w1 = (Returned tt, w2) /\
    timers w2 = [].
Proof.
  split; [reflexivity|].
  destruct (retries_do_not_cascade Outage.queue_down Outage.http_down
              Outage.database_failure Outage.start eq_refl)
    as (new & w1 & new' & w2 & Hrun & _ & _ & Hfire & _ & _ & _ & _ & Ht & _).
  by exists w1, w2.
Defined.

(** * The queue connector *)

Section ConnectorFacts.

Import RabbitMQ.

Lemma channel_calls_app l1 l2 :
  channel_calls (l1 ++ l2) = channel_calls l1 ++ channel_calls l2.
Proof. apply omap_app. Qed.

Lemma publishes_app l1 l2 : publishes (l1 ++ l2) = publishes l1 ++ publishes l2.
Proof. apply omap_app. Qed.

Lemma sleeps_app l1 l2 : sleeps (l1 ++ l2) = sleeps l1 ++ sleeps l2.
Proof. apply omap_app. Qed.

Lemma settlements_app l1 l2 :
  settlements (l1 ++ l2) = settlements l1 ++ settlements l2.
Proof. apply omap_app. Qed.

Variable answers : nat -> channel_call -> option js_thrown.

Abbreviation sendMessage := (sendMessage answers).
Abbreviation sendToRabbitMQ := (sendToRabbitMQ answers).
Abbreviation RetryQMessage := (RetryQMessage answers).

(** The loop with [remaining] turns to go, the first of which is number
    [attempt]: it makes [k] publishes, the first [k - 1] of which fail;
    it returns when the last one returns, and raises what the last one
    threw when that was the last turn. *)
Lemma sendMessage_run exchange queue message h :
  forall (remaining : nat) attempt done,
    attempt = MAX_RETRIES - Z.of_nat remaining + 1 ->
    (1 <= remaining)%nat ->
    let n0 := length (channel_calls done) in
    let p := Publish exchange queue message h in
    exists (k : nat) new res,
      (1 <= k <= remaining)%nat /\
      sendMessage remaining attempt exchange queue message h done = (res, done ++ new) /\
      channel_calls new = replicate k p /\
      sleeps new = replicate (k - 1) RETRY_DELAY /\
      (forall i, (i < k - 1)%nat -> answers (n0 + i) p <> None) /\
      match res with
      | Returned _ => answers (n0 + (k - 1)) p = None
      | Thrown e => k = remaining /\ answers (n0 + (k - 1)) p = Some e
      end.
Proof.
  induction remaining as [|remaining IH]; intros attempt done Hattempt Hpos n0 p;
    [lia|].
  simpl. unfold try_script, on_channel. fold p n0.
  destruct (answers n0 p) as [e|] eqn:Ea.
  2: { exists 1%nat, [Channel p], (Returned tt).
       split; [lia|]. split; [done|]. split; [done|]. split; [done|].
       split; [intros i Hi; lia|]. by rewrite Nat.add_0_r. }
  unfold mbind, script_bind, note. cbn beta iota.
  destruct (Z.ltb_spec attempt MAX_RETRIES) as [Hlt|Hge].
  - cbn beta iota.
    destruct (IH (attempt + 1)
                (((done ++ [Channel p]) ++ [ConsoleWarn
                    ("Attempt " +:+ pretty attempt
                     +:+ " failed when sending to RabbitMQ. Retrying in "
                     +:+ pretty RETRY_DELAY +:+ "ms...")]) ++ [Sleep RETRY_DELAY]))
      as (k & new & res & Hk & Hrun & Hcalls & Hsleeps & Hfailed & Hres);
      [lia | unfold MAX_RETRIES in *; lia |].
    rewrite !channel_calls_app, !length_app in Hfailed, Hres. simpl in Hfailed, Hres.
    fold n0 in Hfailed, Hres.
    exists (S k), ([Channel p;
                    ConsoleWarn ("Attempt " +:+ pretty attempt
                                 +:+ " failed when sending to RabbitMQ. Retrying in "
                                 +:+ pretty RETRY_DELAY +:+ "ms...");
                    Sleep RETRY_DELAY] ++ new), res.
    split; [lia|]. split.
    { rewrite Hrun. f_equal. by rewrite <- !app_assoc. }
    split; [rewrite channel_calls_app, Hcalls; done|].
    split.
    { rewrite sleeps_app, Hsleeps. simpl.
      destruct k as [|k]; [lia|]. simpl. by rewrite Nat.sub_0_r. }
    split.
    { intros i Hi. destruct i as [|i].
      - rewrite Nat.add_0_r, Ea. done.
      - replace (n0 + S i)%nat with (n0 + 1 + 0 + 0 + i)%nat by lia.
        apply Hfailed. lia. }
    replace (n0 + (S k - 1))%nat with (n0 + 1 + 0 + 0 + (k - 1))%nat by lia.
    destruct res; [done|]. destruct Hres as [-> Hres]. done.
  - cbn beta iota. unfold throw.
    assert (remaining = 0%nat) as -> by (unfold MAX_RETRIES in *; lia).
    exists 1%nat, [Channel p;
                   ConsoleWarn ("Attempt " +:+ pretty attempt
                                +:+ " failed when sending to RabbitMQ. Retrying in "
                                +:+ pretty RETRY_DELAY +:+ "ms...");
                   ConsoleError "Max retries reached. Failed to send to RabbitMQ:"],
      (Thrown e).
    split; [lia|]. split; [by rewrite <- !app_assoc|].
    split; [done|]. split; [done|]. split; [intros i Hi; lia|].
    split; [done|]. by rewrite Nat.add_0_r.
Qed.

(** The run of [sendToRabbitMQ], read off the loop. *)
Lemma connector_send_run queue message h exchange done :
  let n0 := length (channel_calls done) in
  let p := Publish exchange queue message h in
  let asserted := if decide (exchange = "") then [AssertQueue queue] else [] in
  exists res new,
    sendToRabbitMQ queue message h exchange done = (res, done ++ new) /\
    settlements new = [] /\
    ((exists e, exchange = "" /\ answers n0 (AssertQueue queue) = Some e /\
                res = Thrown e /\ new = [Channel (AssertQueue queue)])
     \/
     (exists k : nat,
        (1 <= k <= 3)%nat /\
        (exchange = "" -> answers n0 (AssertQueue queue) = None) /\
        channel_calls new = asserted ++ replicate k p /\
        sleeps new = replicate (k - 1) 2000 /\
        (forall i, (i < k - 1)%nat -> answers (n0 + length asserted + i) p <> None) /\
        match res with
        | Returned _ => answers (n0 + length asserted + (k - 1)) p = None
        | Thrown e => k = 3%nat /\ answers (n0 + length asserted + 2) p = Some e
        end)).
Proof.
  intros n0 p asserted. unfold RabbitMQ.sendToRabbitMQ, mbind, script_bind.
  assert (forall l, channel_calls l = replicate (length (channel_calls l)) p ->
                    settlements l = []) as Hquiet.
  { intros l. generalize (length (channel_calls l)). intros k Hl.
    revert k Hl. induction l as [|[[]| | |] l IHl]; intros k Hl; simpl in *;
      try done; try (by eapply IHl).
    - destruct k; simplify_eq.
    - destruct k as [|k]; [done|]. simpl in Hl. injection Hl as _ Hl. by eapply IHl.
    - destruct k; simplify_eq.
    - destruct k; simplify_eq. }
  destruct (decide (exchange = "")) as [Hx|Hx]; subst asserted.
  - unfold on_channel. fold n0.
    destruct (answers n0 (AssertQueue queue)) as [e|] eqn:Ea.
    { exists (Thrown e), [Channel (AssertQueue queue)]. split; [done|]. split; [done|].
      left. by exists e. }
    destruct (sendMessage_run exchange queue message h (Z.to_nat MAX_RETRIES) 1
                (done ++ [Channel (AssertQueue queue)]))
      as (k & new & res & Hk & Hrun & Hcalls & Hsleeps & Hfailed & Hres);
      [done | unfold MAX_RETRIES; simpl; lia |].
    rewrite channel_calls_app, length_app in Hfailed, Hres. simpl in Hfailed, Hres.
    fold n0 p in Hfailed, Hres.
    exists res, (Channel (AssertQueue queue) :: new). split.
    { rewrite Hrun. by rewrite <- app_assoc. }
    split.
    { simpl. apply Hquiet. rewrite Hcalls. by rewrite length_replicate. }
    right. exists k. simpl in Hk.
    split; [unfold MAX_RETRIES in Hk; simpl in Hk; lia|]. split; [done|].
    split; [simpl; by rewrite Hcalls|]. split; [done|]. split; [done|].
    destruct res; [done|]. destruct Hres as [-> Hres]. done.
  - cbn beta iota. unfold mret, script_ret.
    destruct (sendMessage_run exchange queue message h (Z.to_nat MAX_RETRIES) 1 done)
      as (k & new & res & Hk & Hrun & Hcalls & Hsleeps & Hfailed & Hres);
      [done | unfold MAX_RETRIES; simpl; lia |].
    fold n0 p in Hfailed, Hres.
    exists res, new. split; [exact Hrun|]. split.
    { apply Hquiet. rewrite Hcalls. by rewrite length_replicate. }
    right. exists k. simpl in Hk. simpl.
    split; [unfold MAX_RETRIES in Hk; simpl in Hk; lia|]. split; [done|].
    split; [done|]. split; [done|].
    split; [intros i Hi; rewrite Nat.add_0_r; by apply Hfailed|].
    rewrite !Nat.add_0_r.
    destruct res; [done|]. destruct Hres as [-> Hres]. done.
Qed.

Lemma send_shape queue message h exchange done :
  exists res new,
    sendToRabbitMQ queue message h exchange done = (res, done ++ new) /\
    settlements new = [] /\
    Forall (fun c => c = Publish exchange queue message h) (publishes new).
Proof.
  destruct (connector_send_run queue message h exchange done)
    as (res & new & Hrun & Hquiet & Hcases).
  exists res, new. split; [exact Hrun|]. split; [exact Hquiet|].
  destruct Hcases as [(e & Hx & Ha & -> & ->)|(k & Hk & Ha & Hcalls & Hsleeps & Hrest)].
  - constructor.
  - assert (forall l, publishes l =
              omap (fun c => match c with
                             | Publish x q m h => Some (Publish x q m h)
                             | _ => None
                             end) (channel_calls l)) as Hof.
    { intros l. induction l as [|[[]| | |] l IH]; simpl; rewrite ?IH; done. }
    rewrite Hof, Hcalls, omap_app.
    apply Forall_app. split.
    + destruct (decide (exchange = "")); constructor.
    + generalize k. intros k'. induction k' as [|k' IH]; simpl; by constructor.
Qed.


Lemma publishes_of_calls l :
  publishes l =
    omap (fun c => match c with Publish x q m h => Some (Publish x q m h) | _ => None end)
      (channel_calls l).
Proof.
  induction l as [|[[]| | |] l IH]; simpl; rewrite ?IH; done.
Qed.

Lemma settlements_of_calls l :
  settlements l =
    omap (fun c => match c with
                   | Ack m => Some (Ack m)
                   | Nack m a r => Some (Nack m a r)
                   | _ => None
                   end) (channel_calls l).
Proof.
  induction l as [|[[]| | |] l IH]; simpl; rewrite ?IH; done.
Qed.

Lemma publishes_replicate (k : nat) x q m h :
  omap (fun c => match c with Publish x q m h => Some (Publish x q m h) | _ => None end)
    (replicate k (Publish x q m h)) = replicate k (Publish x q m h).
Proof. induction k as [|k IH]; [done|]. simpl. f_equal. exact IH. Qed.

Lemma sum_replicate (k : nat) (d : Z) : foldr Z.add 0 (replicate k d) = Z.of_nat k * d.
Proof. induction k as [|k IH]; simpl; [lia|]. rewrite IH. lia. Qed.

(** X17.  [sendToRabbitMQ] tries a publish at most three times.  On the
    default exchange it asserts the queue first, and an assertion that
    throws ends the call at once, before any publish.  Otherwise it makes
    [k] identical publishes, with [k] between 1 and 3, and waits 2000 ms
    before each one but the first, so at most 4000 ms in all.  Every
    publish but the last one threw; the call returns when the last one
    returned, and when it raises, three publishes were made and what it
    raises is what the third one threw.  It never acknowledges anything. *)
Theorem send_gives_up_after_three_publishes queue message h exchange done :
  let n0 := length (channel_calls done) in
  let p := Publish exchange queue message h in
  let asserted := if decide (exchange = "") then [AssertQueue queue] else [] in
  exists res new,
    sendToRabbitMQ queue message h exchange done = (res, done ++ new) /\
    settlements new = [] /\
    (length (publishes new) <= 3)%nat /\
    Forall (fun c => c = p) (publishes new) /\
    foldr Z.add 0 (sleeps new) <= 4000 /\
    ((exists e, exchange = "" /\ answers n0 (AssertQueue queue) = Some e /\
                res = Thrown e /\ new = [Channel (AssertQueue queue)])
     \/
     (exists k : nat,
        (1 <= k <= 3)%nat /\
        (exchange = "" -> answers n0 (AssertQueue queue) = None) /\
        channel_calls new = asserted ++ replicate k p /\
        sleeps new = replicate (k - 1) 2000 /\
        (forall i, (i < k - 1)%nat -> answers (n0 + length asserted + i) p <> None) /\
        match res with
        | Returned _ => answers (n0 + length asserted + (k - 1)) p = None
        | Thrown e => k = 3%nat /\ answers (n0 + length asserted + 2) p = Some e
        end)).
Proof.
  intros n0 p asserted.
  destruct (connector_send_run queue message h exchange done)
    as (res & new & Hrun & Hquiet & Hcases).
  exists res, new. split; [exact Hrun|]. split; [exact Hquiet|].
  fold n0 p asserted in Hcases.
  destruct Hcases as [(e & Hx & Ha & -> & ->)|(k & Hk & Ha & Hcalls & Hsleeps & Hrest)].
  - split; [simpl; lia|]. split; [constructor|]. split; [simpl; lia|].
    left. by exists e.
  - assert (publishes new = replicate k p) as Hp.
    { rewrite publishes_of_calls, Hcalls, omap_app. unfold p.
      rewrite publishes_replicate.
      subst asserted. by destruct (decide (exchange = "")). }
    rewrite Hp, length_replicate, Hsleeps, sum_replicate.
    split; [lia|]. split.
    { apply Forall_forall. intros c Hc. by apply elem_of_replicate in Hc as [-> _]. }
    split; [lia|].
    right. exists k. split; [done|]. split; [done|]. split; [done|].
    split; [done|]. exact Hrest.
Qed.

(** X18.  [RetryQMessage] settles a delivery exactly once, as long as its
    content is JSON and the channel takes the acknowledgement.  A delivery
    whose retry count (1 when the header is missing or 0) has reached
    [max_retries] is refused without requeue and nothing is published.
    Otherwise a copy is sent to the same queue on the default exchange,
    with the same content and the other headers as they were, under a
    count one higher; the delivery is acknowledged when that send returns,
    and refused with requeue, under its old count, when the send raises.
    The settlement is the last call on the channel and the call never
    raises.  A delivery whose content is not JSON is left unsettled: the
    call raises before anything is done. *)
Theorem retry_settles_the_delivery_once msg max_retries queue done :
  (forall n m, answers n (Ack m) = None) ->
  (forall n m a r, answers n (Nack m a r) = None) ->
  (forall e, content msg = Thrown e -> retry_count msg < max_retries ->
     RetryQMessage msg max_retries queue done = (Thrown e, done)) /\
  (forall v, content msg = Returned v ->
     let sent := sendToRabbitMQ queue v (next_headers msg) "" done in
     exists new,
       RetryQMessage msg max_retries queue done = (Returned tt, done ++ new) /\
       settlements new =
         (if retry_count msg <? max_retries then
            match sent.1 with
            | Returned _ => [Ack msg]
            | Thrown _ => [Nack msg false true]
            end
          else [Nack msg false false]) /\
       last (channel_calls new) = head (settlements new) /\
       Forall (fun c => c = Publish "" queue v (next_headers msg)) (publishes new) /\
       (max_retries <= retry_count msg -> publishes new = []) /\
       (1 <= retry_count msg ->
        or_num (x_retry_count (next_headers msg)) 1 = retry_count msg + 1)) /\
  (max_retries <= retry_count msg ->
   RetryQMessage msg max_retries queue done =
     (Returned tt, done ++ [Channel (Nack msg false false)])).
Proof.
  intros Hack Hnack.
  assert (max_retries <= retry_count msg ->
          RetryQMessage msg max_retries queue done =
            (Returned tt, done ++ [Channel (Nack msg false false)])) as Hdead.
  { intros Hmax. unfold RabbitMQ.RetryQMessage. fold (retry_count msg).
    destruct (Z.ltb_spec (retry_count msg) max_retries); [lia|].
    unfold on_channel. by rewrite Hnack. }
  split; [|split; [|exact Hdead]].
  - intros e He Hlt. unfold RabbitMQ.RetryQMessage. fold (retry_count msg).
    destruct (Z.ltb_spec (retry_count msg) max_retries); [|lia].
    unfold mbind, script_bind. by rewrite He.
  - intros v Hv sent.
    destruct (Z.ltb_spec (retry_count msg) max_retries) as [Hlt|Hge].
    2: { exists [Channel (Nack msg false false)]. rewrite (Hdead Hge).
         split_and!; try done. intros H1. simpl. unfold retry_count in *.
         destruct (Z.eqb_spec (or_num (x_retry_count (properties_headers msg)) 1 + 1) 0);
           [lia|done]. }
    destruct (send_shape queue v (next_headers msg) "" done)
      as (res & new1 & Hrun & Hquiet & Hpub).
    assert (RetryQMessage msg max_retries queue done =
              match res with
              | Returned _ => (Returned tt, (done ++ new1) ++ [Channel (Ack msg)])
              | Thrown _ =>
                  (Returned tt,
                   ((done ++ new1) ++ [ConsoleError "Failed to retry message:"])
                   ++ [Channel (Nack msg false true)])
              end) as Hretry.
    { unfold RabbitMQ.RetryQMessage. fold (retry_count msg).
      destruct (Z.ltb_spec (retry_count msg) max_retries); [|lia].
      unfold mbind at 1, script_bind at 1. rewrite Hv. cbn beta iota zeta.
      fold (next_headers msg). unfold try_script, mbind, script_bind.
      rewrite Hrun. destruct res as [[]|e]; unfold on_channel, note.
      - by rewrite Hack.
      - by rewrite Hnack. }
    subst sent. rewrite Hrun in *. cbn [fst].
    destruct res as [[]|e]; rewrite Hretry; eexists;
      (split; [by rewrite <- !app_assoc|]);
      rewrite ?settlements_app, ?publishes_app, ?channel_calls_app, Hquiet;
      simpl; rewrite ?app_nil_r;
      (split; [done|]); (split; [by rewrite last_snoc|]);
      (split; [done|]); (split; [lia|]);
      intros H1; unfold retry_count in *;
      destruct (Z.eqb_spec (or_num (x_retry_count (properties_headers msg)) 1 + 1) 0);
      (lia || done).
Qed.

End ConnectorFacts.

(** An instance of X18: the first retry of a delivery on a channel whose
    publishes all throw. *)
Lemma retry_settles_the_delivery_once_witness :
  exists new,
    RabbitMQ.RetryQMessage Broker.publish_fails Broker.first_failure 3 "orders" []
      = (Returned tt, [] ++ new) /\
    RabbitMQ.settlements new = [RabbitMQ.Nack Broker.first_failure false true].
Proof.
  destruct (retry_settles_the_delivery_once Broker.publish_fails Broker.first_failure
              3 "orders" []) as (_ & H & _); [done..|].
  destruct (H _ eq_refl) as (new & Hrun & Hs & _).
  exists new. split; [exact Hrun|]. rewrite Hs. vm_compute. reflexivity.
Defined.

(** * The cache connector *)

Section Throttle.

Import Memcache.

Lemma or_num_stored (now : Z) : or_num (Some now) 0 = now.
Proof. unfold or_num. by destruct (Z.eqb_spec now 0). Qed.

(** The first report let through comes more than a minute after the time
    kept for the code. *)
Lemma let_through_first code requests :
  forall reported,
    match let_through code requests reported with
    | [] => True
    | t :: _ => throttle_time < t - or_num (reported !! code) 0
    end.
Proof.
  induction requests as [|[c now] requests IH]; intros reported; simpl; [done|].
  unfold should_report.
  destruct (Z.ltb_spec throttle_time (now - or_num (reported !! c) 0)) as [Hlt|Hge];
    simpl.
  - destruct (decide (c = code)) as [->|Hne].
    + by rewrite bool_decide_eq_true_2.
    + rewrite bool_decide_eq_false_2 by done.
      specialize (IH (<[c := now]> reported)).
      by rewrite lookup_insert_ne in IH.
  - apply IH.
Qed.

(** X19.  The throttle lets one report of an error code through per
    minute: whatever requests are made, for whatever codes and in whatever
    order, two reports of the same code that are let through one after
    the other are more than 60000 ms apart, and the first one comes more
    than 60000 ms after the time kept for the code (0 when there is
    none).  (The code is not one of the names an object inherits.) *)
Theorem throttle_lets_one_report_through_per_minute code requests reported :
  ordinary_key code = true ->
  let times := let_through code requests reported in
  (forall t, head times = Some t -> 60000 < t - or_num (reported !! code) 0) /\
  (forall i t1 t2, times !! i = Some t1 -> times !! S i = Some t2 -> 60000 < t2 - t1).
Proof.
  intros _ times. subst times. split.
  { intros t Ht. pose proof (let_through_first code requests reported) as H.
    destruct (let_through code requests reported); simplify_eq/=. exact H. }
  revert reported. induction requests as [|[c now] requests IH]; intros reported;
    simpl; [done|].
  unfold should_report.
  destruct (Z.ltb_spec throttle_time (now - or_num (reported !! c) 0)) as [Hlt|Hge];
    simpl; [|apply IH].
  destruct (decide (c = code)) as [->|Hne].
  - rewrite bool_decide_eq_true_2 by done. intros [|i] t1 t2 H1 H2.
    + simpl in H1, H2. injection H1 as <-.
      pose proof (let_through_first code requests (<[code := now]> reported)) as H.
      destruct (let_through code requests _) as [|t rest]; simplify_eq/=.
      by rewrite lookup_insert_eq, or_num_stored in H.
    + simpl in H1, H2. by eapply IH.
  - rewrite bool_decide_eq_false_2 by done. apply IH.
Qed.

End Throttle.

(** An instance of X19: three failovers within two minutes. *)
Lemma throttle_lets_one_report_through_per_minute_witness :
  Memcache.let_through "MEMCACHE-FAILOVER-001"
    [("MEMCACHE-FAILOVER-001", 1700000000000);
     ("MEMCACHE-FAILOVER-001", 1700000030000);
     ("MEMCACHE-FAILOVER-001", 1700000090000)] ∅
  = [1700000000000; 1700000090000] /\
  60000 < 1700000090000 - 1700000000000.
Proof.
  split; [vm_compute; reflexivity|].
  apply (proj2 (throttle_lets_one_report_through_per_minute "MEMCACHE-FAILOVER-001"
                  [("MEMCACHE-FAILOVER-001", 1700000000000);
                   ("MEMCACHE-FAILOVER-001", 1700000030000);
                   ("MEMCACHE-FAILOVER-001", 1700000090000)] ∅ eq_refl) 0%nat);
    vm_compute; reflexivity.
Defined.

Section Failover.

Import Memcache.

Variable emitter_loads : bool.
Variable error_stack : string -> option string.
Variable CacheKeyPrefix : string.
Variable client_get : server -> string -> client_answer.

Abbreviation report_to_munshi := (Memcache.report_to_munshi emitter_loads error_stack).
Abbreviation switchToBackup := (switchToBackup emitter_loads error_stack).
Abbreviation switchToPrimary := (switchToPrimary emitter_loads).
Abbreviation healthCheckPrimary_callback := (healthCheckPrimary_callback emitter_loads).
Abbreviation handleOperationFailure :=
  (handleOperationFailure emitter_loads error_stack).
Abbreviation getFromMemcache :=
  (getFromMemcache emitter_loads error_stack CacheKeyPrefix client_get).
Abbreviation happen := (happen emitter_loads error_stack CacheKeyPrefix client_get).
Abbreviation after := (after emitter_loads error_stack CacheKeyPrefix client_get).

Lemma report_keeps_failover code title message details now p :
  failoverState (report_to_munshi code title message details now p) = failoverState p.
Proof.
  unfold Memcache.report_to_munshi. destruct emitter_loads; [|done].
  by destruct (should_report code now (last_reported p)) as [[] ?].
Qed.

Lemma switchToBackup_prints reason now p :
  currentServer (failoverState p) = primary ->
  ConsoleError ("FILE: memcache.js | FAILOVER | Switching to BACKUP server. Reason: "
                +:+ reason) ∈ outbox (switchToBackup reason now p).
Proof.
  intros Hs. unfold Memcache.switchToBackup. rewrite Hs.
  unfold Memcache.report_to_munshi.
  destruct emitter_loads; [destruct (should_report _ _ _) as [[] ?]|];
    cbn [outbox put set_failover]; set_solver.
Qed.

(** One failure, on either server. *)
Lemma failure_step operationName key message now p :
  let f := failoverState p in
  failoverState (handleOperationFailure operationName key message now p) =
    match currentServer f with
    | primary =>
        if failureThreshold <=? consecutiveFailures f + 1 then
          {| currentServer := backup; primaryHealthy := false;
             backupHealthy := backupHealthy f;
             consecutiveFailures := consecutiveFailures f + 1;
             lastFailoverTime := Some now;
             lastHealthCheck := lastHealthCheck f |}
        else
          {| currentServer := primary; primaryHealthy := primaryHealthy f;
             backupHealthy := backupHealthy f;
             consecutiveFailures := consecutiveFailures f + 1;
             lastFailoverTime := lastFailoverTime f;
             lastHealthCheck := lastHealthCheck f |}
    | backup => f
    end.
Proof.
  intros f. subst f. unfold Memcache.handleOperationFailure. cbn [failoverState put].
  destruct (currentServer (failoverState p)) eqn:Es; [|done].
  destruct (failureThreshold <=? consecutiveFailures (failoverState p) + 1); [|done].
  unfold Memcache.switchToBackup. cbn [failoverState set_failover currentServer].
  by rewrite report_keeps_failover.
Qed.

Lemma success_step p :
  let f := failoverState p in
  failoverState (handleOperationSuccess p) =
    {| currentServer := currentServer f; primaryHealthy := primaryHealthy f;
       backupHealthy := backupHealthy f;
       consecutiveFailures := if 0 <? consecutiveFailures f then 0
                              else consecutiveFailures f;
       lastFailoverTime := lastFailoverTime f;
       lastHealthCheck := lastHealthCheck f |}.
Proof.
  intros f. subst f. unfold handleOperationSuccess.
  destruct (0 <? consecutiveFailures (failoverState p)); [done|].
  by destruct (failoverState p).
Qed.

Lemma health_check_step now p :
  let f := failoverState p in
  exists checked,
    failoverState (healthCheckPrimary now p).2 =
      {| currentServer := currentServer f; primaryHealthy := primaryHealthy f;
         backupHealthy := backupHealthy f;
         consecutiveFailures := consecutiveFailures f;
         lastFailoverTime := lastFailoverTime f;
         lastHealthCheck := checked |}.
Proof.
  intros f. subst f. unfold healthCheckPrimary.
  destruct (failoverState p) as [[] ? ? ? ? ?] eqn:E; simpl.
  - rewrite E. by eexists.
  - destruct (_ && _); simpl; [rewrite E|]; by eexists.
Qed.

Lemma recovery_step err p :
  let f := failoverState p in
  failoverState (healthCheckPrimary_callback err p) =
    match err, currentServer f with
    | false, backup =>
        {| currentServer := primary; primaryHealthy := true;
           backupHealthy := backupHealthy f;
           consecutiveFailures := 0;
           lastFailoverTime := lastFailoverTime f;
           lastHealthCheck := lastHealthCheck f |}
    | _, _ => f
    end.
Proof.
  intros f. subst f. unfold Memcache.healthCheckPrimary_callback.
  destruct err; [done|]. unfold Memcache.switchToPrimary.
  destruct (currentServer (failoverState p)); [done|].
  by destruct emitter_loads.
Qed.

Lemma consistent_failure operationName key message now p :
  consistent (failoverState p) ->
  consistent (failoverState (handleOperationFailure operationName key message now p)).
Proof.
  intros H. pose proof H as (Hh & Hb & Hc & Hp & Ht). rewrite failure_step. cbn zeta.
  destruct (currentServer (failoverState p)) eqn:Es; [|exact H].
  specialize (Hp eq_refl). unfold failureThreshold.
  destruct (Z.leb_spec 3 (consecutiveFailures (failoverState p) + 1));
    unfold consistent; simpl; split_and!; try done; try lia.
Qed.

Lemma consistent_success p :
  consistent (failoverState p) -> consistent (failoverState (handleOperationSuccess p)).
Proof.
  intros (Hh & Hb & Hc & Hp & Ht). rewrite success_step. cbn zeta.
  unfold consistent. simpl.
  destruct (Z.ltb_spec 0 (consecutiveFailures (failoverState p)));
    split_and!; try done; try lia.
Qed.

Lemma consistent_health_check now p :
  consistent (failoverState p) ->
  consistent (failoverState (healthCheckPrimary now p).2).
Proof.
  intros (Hh & Hb & Hc & Hp & Ht).
  destruct (health_check_step now p) as [checked ->]. by unfold consistent.
Qed.

Lemma consistent_recovery err p :
  consistent (failoverState p) ->
  consistent (failoverState (healthCheckPrimary_callback err p)).
Proof.
  intros H. pose proof H as (Hh & Hb & Hc & Hp & Ht). rewrite recovery_step. cbn zeta.
  destruct err; [by destruct (currentServer _)|].
  destruct (currentServer (failoverState p)) eqn:Es; [exact H|].
  unfold consistent. simpl. split_and!; try done; lia.
Qed.

Lemma consistent_get key now p :
  consistent (failoverState p) ->
  consistent (failoverState (getFromMemcache key now p).2).
Proof.
  intros H. unfold Memcache.getFromMemcache.
  pose proof (consistent_health_check now p H) as H1.
  destruct (client_get _ _) as [t [m|] v|]; [destruct (t <? 1200)..|];
    cbn [snd];
    repeat first [apply consistent_failure | apply consistent_success];
    cbn [failoverState put]; exact H1.
Qed.

Lemma consistent_happen p h :
  consistent (failoverState p) -> consistent (failoverState (happen p h)).
Proof.
  intros H. destruct h; unfold Memcache.happen.
  - by apply consistent_failure.
  - by apply consistent_success.
  - by apply consistent_health_check.
  - by apply consistent_recovery.
  - by rewrite report_keeps_failover.
  - by apply consistent_get.
Qed.

Lemma consistent_run hs p :
  consistent (failoverState p) -> consistent (failoverState (foldl happen p hs)).
Proof.
  revert p. induction hs as [|h hs IH]; intros p H; simpl; [done|].
  by apply IH, consistent_happen.
Qed.

Lemma consistent_after hs : consistent (failoverState (after hs)).
Proof.
  apply consistent_run. unfold consistent, initial. simpl.
  split_and!; try done; lia.
Qed.

(** X20.  The failover state stays consistent whatever happens to the
    module, in whatever order: operations that fail or succeed, slow
    answers, health checks and their answers, troubles of the servers.
    The primary server is marked healthy exactly while it is the one in
    use, the backup server is always marked healthy, the failure counter
    stays between 0 and 3 and below 3 while the primary server is in use,
    and the time of the failover is known while the backup server is in
    use. *)
Theorem failover_state_stays_consistent hs :
  let f := failoverState (after hs) in
  (currentServer f = primary <-> primaryHealthy f = true) /\
  backupHealthy f = true /\
  0 <= consecutiveFailures f <= 3 /\
  (currentServer f = primary -> consecutiveFailures f < failureThreshold) /\
  (currentServer f = backup -> exists t, lastFailoverTime f = Some t).
Proof.
  intros f. destruct (consistent_after hs) as (Hh & Hb & Hc & Hp & Ht).
  fold f in Hh, Hb, Hc, Hp, Ht. split_and!; try done; try lia.
  intros Hs. specialize (Ht Hs). destruct (lastFailoverTime f); [by eexists|done].
Qed.

(** X21.  The connector leaves the primary server at the third failure in
    a row, and only then.  While the primary server is in use, a failure
    raises the counter by one; the one that brings it to 3 switches to the
    backup server, marks the primary one unhealthy, notes the time and
    prints the reason; a success sets the counter back to 0, so that the
    count starts again. *)
Theorem third_failure_in_a_row_fails_over hs operationName key message now :
  let p := after hs in
  let p' := handleOperationFailure operationName key message now p in
  currentServer (failoverState p) = primary ->
  (consecutiveFailures (failoverState p) = 2 <->
   getActiveClient p' = backup) /\
  (getActiveClient p' = backup ->
   primaryHealthy (failoverState p') = false /\
   lastFailoverTime (failoverState p') = Some now /\
   ConsoleError ("FILE: memcache.js | FAILOVER | Switching to BACKUP server. Reason: "
                 +:+ "3 consecutive failures on operation: " +:+ operationName)
     ∈ outbox p') /\
  (getActiveClient p' = primary ->
   consecutiveFailures (failoverState p')
     = consecutiveFailures (failoverState p) + 1) /\
  consecutiveFailures (failoverState (handleOperationSuccess p)) = 0.
Proof.
  intros p p' Hs.
  destruct (consistent_after hs) as (Hh & Hb & Hc & Hp & Ht). fold p in Hh, Hb, Hc, Hp, Ht.
  specialize (Hp Hs).
  pose proof (failure_step operationName key message now p) as Hstep.
  cbn zeta in Hstep. fold p' in Hstep. rewrite Hs in Hstep.
  assert (consecutiveFailures (failoverState (handleOperationSuccess p)) = 0) as Hsucc.
  { rewrite success_step. simpl. destruct (0 <? _) eqn:E; [done|].
    apply Z.ltb_ge in E. lia. }
  unfold getActiveClient, failureThreshold in *.
  destruct (Z.leb_spec 3 (consecutiveFailures (failoverState p) + 1)) as [Hge|Hlt].
  - assert (consecutiveFailures (failoverState p) = 2) as Hc2 by lia.
    rewrite Hstep. simpl. split_and!; try done.
    intros _. split_and!; try done.
    subst p'. unfold Memcache.handleOperationFailure. rewrite Hs. cbn zeta.
    rewrite Hc2. change (3 <=? 2 + 1) with true. cbn iota.
    apply elem_of_app. left. change (pretty (2 + 1)) with "3".
    by apply switchToBackup_prints.
  - rewrite Hstep. simpl. split_and!; try done. split; [lia|done].
Qed.

Lemma backup_step p h :
  currentServer (failoverState p) = backup ->
  h <> HealthCheckAnswer false ->
  currentServer (failoverState (happen p h)) = backup /\
  lastFailoverTime (failoverState (happen p h)) = lastFailoverTime (failoverState p).
Proof.
  intros Hs Hh.
  assert (forall operationName key message now q,
            currentServer (failoverState q) = backup ->
            failoverState (handleOperationFailure operationName key message now q)
              = failoverState q) as Hfail.
  { intros ? ? ? ? q Hq. rewrite failure_step. cbn zeta. by rewrite Hq. }
  assert (forall q,
            currentServer (failoverState (handleOperationSuccess q))
              = currentServer (failoverState q) /\
            lastFailoverTime (failoverState (handleOperationSuccess q))
              = lastFailoverTime (failoverState q)) as Hok.
  { intros q. by rewrite success_step. }
  assert (forall now q,
            currentServer (failoverState (healthCheckPrimary now q).2)
              = currentServer (failoverState q) /\
            lastFailoverTime (failoverState (healthCheckPrimary now q).2)
              = lastFailoverTime (failoverState q)) as Hcheck.
  { intros now q. by destruct (health_check_step now q) as [checked ->]. }
  destruct h; unfold Memcache.happen.
  - by rewrite Hfail.
  - by destruct (Hok p) as [-> ->].
  - by destruct (Hcheck now p) as [-> ->].
  - destruct err; [by rewrite recovery_step | done].
  - by rewrite report_keeps_failover.
  - destruct (Hcheck now p) as [Hc1 Hc2]. rewrite Hs in Hc1.
    unfold Memcache.getFromMemcache.
    set (p1 := (healthCheckPrimary now p).2) in *.
    assert (forall o, currentServer (failoverState (put o p1)) = backup) as Hput
      by done.
    destruct (client_get _ _) as [t [m|] v|]; [destruct (t <? 1200)..|]; cbn [snd];
      rewrite ?Hfail; rewrite ?(proj1 (Hok _)), ?(proj2 (Hok _)); rewrite ?Hfail;
      cbn [failoverState put]; try done;
      rewrite ?Hfail; cbn [failoverState put]; done.
Qed.

(** X22.  Once the backup server is in use, nothing but a health check
    of the primary server that comes back without an error brings the
    primary server back: failures and successes of operations, slow
    answers, troubles of either server and health checks that fail all
    leave the backup server in use, with the time of the failover as it
    was.  The good answer switches back, marks the primary server healthy
    and sets the failure counter to 0. *)
Theorem only_a_good_health_check_brings_the_primary_back p hs :
  currentServer (failoverState p) = backup ->
  Forall (fun h => h <> HealthCheckAnswer false) hs ->
  let p' := foldl happen p hs in
  getActiveClient p' = backup /\
  lastFailoverTime (failoverState p') = lastFailoverTime (failoverState p) /\
  let back := happen p' (HealthCheckAnswer false) in
  getActiveClient back = primary /\
  primaryHealthy (failoverState back) = true /\
  consecutiveFailures (failoverState back) = 0.
Proof.
  intros Hs Hall p'.
  assert (currentServer (failoverState p') = backup /\
          lastFailoverTime (failoverState p') = lastFailoverTime (failoverState p))
    as [Hs' Ht'].
  { subst p'. revert p Hs. induction Hall as [|h hs Hh _ IH]; intros p Hs; [done|].
    simpl. destruct (backup_step p h Hs Hh) as [Hs1 Ht1].
    destruct (IH _ Hs1) as [Hs2 Ht2]. split; [done|]. by rewrite Ht2. }
  split; [done|]. split; [done|]. cbn zeta.
  unfold getActiveClient, Memcache.happen. rewrite recovery_step. cbn zeta.
  by rewrite Hs'.
Qed.

(** X23.  An answer that is late counts twice.  When the primary server
    is in use and answers a [get] with an error after 1200 ms or more,
    the caller gets [null], and the failure is counted once by the safety
    timer and once more by the callback: one such request takes a counter
    of 0 to 2, and it switches to the backup server as soon as the counter
    was at 1. *)
Theorem late_error_counts_twice hs key now after_ms message value :
  let p := after hs in
  currentServer (failoverState p) = primary ->
  client_get primary (CacheKeyPrefix +:+ key) = Answers after_ms (Some message) value ->
  1200 <= after_ms ->
  let result := getFromMemcache key now p in
  result.1 = JNull /\
  (consecutiveFailures (failoverState p) = 0 ->
   getActiveClient result.2 = primary /\
   consecutiveFailures (failoverState result.2) = 2) /\
  (1 <= consecutiveFailures (failoverState p) ->
   getActiveClient result.2 = backup).
Proof.
  intros p Hs Hanswer Hlate result.
  destruct (consistent_after hs) as (_ & _ & Hc & Hp & _). fold p in Hc, Hp.
  specialize (Hp Hs).
  assert ((healthCheckPrimary now p).2 = p) as Hcheck.
  { unfold healthCheckPrimary. by rewrite Hs. }
  assert (getFromMemcache key now p =
            (JNull,
             handleOperationFailure "getFromMemcache" key message (now + after_ms)
               (handleOperationFailure "getFromMemcache" key "Operation timeout"
                  (now + 1200)
                  (put (ConsoleError
                          ("FILE: memcache.js | getFromMemcache | Operation timeout for key: "
                           +:+ key)) p)))) as Hget.
  { unfold Memcache.getFromMemcache. rewrite Hcheck. unfold getActiveClient.
    rewrite Hs, Hanswer. by destruct (Z.ltb_spec after_ms 1200) as [|_]; [lia|]. }
  subst result. rewrite Hget. cbn [fst snd]. split; [done|].
  match goal with
  | |- context [Memcache.handleOperationFailure _ _ ?op ?k ?m ?t (put ?o p)] =>
      remember (handleOperationFailure op k m t (put o p)) as q1 eqn:Eq1
  end.
  remember (handleOperationFailure "getFromMemcache" key message (now + after_ms) q1)
    as q2 eqn:Eq2.
  assert (failoverState q1 =
            if failureThreshold <=? consecutiveFailures (failoverState p) + 1 then
              {| currentServer := backup; primaryHealthy := false;
                 backupHealthy := backupHealthy (failoverState p);
                 consecutiveFailures := consecutiveFailures (failoverState p) + 1;
                 lastFailoverTime := Some (now + 1200);
                 lastHealthCheck := lastHealthCheck (failoverState p) |}
            else
              {| currentServer := primary;
                 primaryHealthy := primaryHealthy (failoverState p);
                 backupHealthy := backupHealthy (failoverState p);
                 consecutiveFailures := consecutiveFailures (failoverState p) + 1;
                 lastFailoverTime := lastFailoverTime (failoverState p);
                 lastHealthCheck := lastHealthCheck (failoverState p) |}) as H1.
  { rewrite Eq1, failure_step. cbn zeta. cbn [failoverState put]. by rewrite Hs. }
  pose proof (failure_step "getFromMemcache" key message (now + after_ms) q1) as H2.
  cbn zeta in H2. rewrite <- Eq2 in H2. clear Eq1 Eq2.
  unfold getActiveClient, failureThreshold in *.
  destruct (Z.leb_spec 3 (consecutiveFailures (failoverState p) + 1)).
  - rewrite H1 in H2. cbn [currentServer] in H2. rewrite H2. cbn [currentServer].
    split; [lia|done].
  - rewrite H1 in H2. cbn [currentServer consecutiveFailures] in H2.
    destruct (Z.leb_spec 3 (consecutiveFailures (failoverState p) + 1 + 1));
      rewrite H2; cbn [currentServer consecutiveFailures]; split; try done; try lia.
    intros Hzero. split; [done|lia].
Qed.

(** *** What the connector hands to Munshi *)

Lemma munshi_events_app l1 l2 :
  munshi_events (l1 ++ l2) = munshi_events l1 ++ munshi_events l2.
Proof. apply omap_app. Qed.

(** The outbox only grows, and by cache errors with the standard
    lifetime. *)
Lemma outbox_grows p h :
  exists more,
    outbox (happen p h) = outbox p ++ more /\
    Forall (fun e => Munshi.error_type e = Some "CACHE_ERROR" /\
                     Munshi.ttl e = Some 2592000)
      (munshi_events more).
Proof.
  set (good := fun e => Munshi.error_type e = Some "CACHE_ERROR" /\
                        Munshi.ttl e = Some 2592000).
  set (grows := fun p p' : process =>
         exists more, outbox p' = outbox p ++ more /\ Forall good (munshi_events more)).
  assert (forall p, grows p p) as Hrefl.
  { intros q. exists []. by rewrite app_nil_r. }
  assert (forall p1 p2 p3, grows p1 p2 -> grows p2 p3 -> grows p1 p3) as Htrans.
  { intros p1 p2 p3 (m1 & H1 & G1) (m2 & H2 & G2). exists (m1 ++ m2).
    rewrite H2, H1, app_assoc. split; [done|].
    rewrite munshi_events_app. by apply Forall_app. }
  assert (forall o q, match o with EmitMunshiEvent e => good e | _ => True end ->
                      grows q (put o q)) as Hput.
  { intros o q Ho. exists [o]. split; [done|].
    destruct o; simpl; first [by constructor | constructor; [exact Ho|constructor]]. }
  assert (forall f q, grows q (set_failover f q)) as Hset.
  { intros f q. exists []. by rewrite app_nil_r. }
  assert (forall c t m d now q, grows q (report_to_munshi c t m d now q)) as Hreport.
  { intros c t m d now q. unfold Memcache.report_to_munshi.
    destruct emitter_loads; [|by apply Hput].
    destruct (should_report c now (last_reported q)) as [[] reported]; [|apply Hrefl].
    eapply Htrans; [|apply Hput; by split]. exists []. by rewrite app_nil_r. }
  assert (forall reason now q, grows q (switchToBackup reason now q)) as Hbackup.
  { intros reason now q. unfold Memcache.switchToBackup.
    destruct (currentServer (failoverState q)); [|apply Hrefl].
    eapply Htrans; [|apply Hreport]. eapply Htrans; [|apply Hset]. by apply Hput. }
  assert (forall reason q, grows q (switchToPrimary reason q)) as Hprimary.
  { intros reason q. unfold Memcache.switchToPrimary.
    destruct (currentServer (failoverState q)); [apply Hrefl|].
    destruct emitter_loads;
      (eapply Htrans; [|by apply Hput]); (eapply Htrans; [|apply Hset]);
      by apply Hput. }
  assert (forall op key m now q, grows q (handleOperationFailure op key m now q))
    as Hfailure.
  { intros op key m now q. unfold Memcache.handleOperationFailure.
    eapply Htrans; [|by apply Hput].
    destruct (currentServer (failoverState q)); [|apply Hrefl].
    destruct (failureThreshold <=? _); [|apply Hset].
    eapply Htrans; [|apply Hbackup]. apply Hset. }
  assert (forall q, grows q (handleOperationSuccess q)) as Hsuccess.
  { intros q. unfold handleOperationSuccess. destruct (0 <? _); [apply Hset|apply Hrefl]. }
  assert (forall now q, grows q (healthCheckPrimary now q).2) as Hcheck.
  { intros now q. unfold healthCheckPrimary.
    destruct (currentServer (failoverState q)); [apply Hrefl|].
    destruct (_ && _); [apply Hrefl|apply Hset]. }
  destruct h; unfold Memcache.happen.
  - apply Hfailure.
  - apply Hsuccess.
  - apply Hcheck.
  - unfold Memcache.healthCheckPrimary_callback. destruct err; [apply Hrefl|apply Hprimary].
  - apply Hreport.
  - unfold Memcache.getFromMemcache.
    eapply Htrans; [apply (Hcheck now p)|].
    destruct (client_get _ _) as [t [m|] v|]; [destruct (t <? 1200)..|]; cbn [snd];
      repeat first
        [ apply Hfailure | apply Hsuccess
        | (eapply Htrans; [|apply Hfailure]) | (eapply Htrans; [|apply Hsuccess])
        | by apply Hput ].
Qed.

Lemma outbox_after hs :
  Forall (fun e => Munshi.error_type e = Some "CACHE_ERROR" /\
                   Munshi.ttl e = Some 2592000)
    (munshi_events (outbox (after hs))).
Proof.
  unfold Memcache.after.
  assert (Forall (fun e => Munshi.error_type e = Some "CACHE_ERROR" /\
                           Munshi.ttl e = Some 2592000)
            (munshi_events (outbox initial))) as H by constructor.
  revert H. generalize initial. induction hs as [|h hs IH]; intros p H; [done|].
  simpl. apply IH. destruct (outbox_grows p h) as (more & -> & Hmore).
  rewrite munshi_events_app. by apply Forall_app.
Qed.

Section Reports.

Variable queue : nat -> string -> Munshi.queue_message -> Munshi.queue_answer.
Variable http : nat -> string -> Munshi.envelope -> Munshi.http_answer.

(** X24.  What the cache connector reports reaches Munshi as a cache
    error and takes the queue first.  Every report it emits, in whatever
    run, has the type [CACHE_ERROR] and a lifetime of 2592000 seconds; so
    unless its code starts with [RABBITMQ-], the Munshi service does not
    take it for a failure of the queue: it sends it to the queue before
    anything else, under the application id 1020, with that type in the
    metadata and that lifetime. *)
Theorem cache_reports_take_the_queue_first hs e w :
  e ∈ munshi_events (outbox (after hs)) ->
  Munshi.is_rabbitmq_error e = false ->
  let now := Munshi.clock w / 1000 in
  ~ Munshi.circular e /\
  exists s new rest,
    Munshi.build_system_log e now = Returned s /\
    Munshi.report_to_munshi queue http e w =
      (Returned tt,
       Munshi.extend w new (Munshi.timers w ++ Munshi.scheduled new)) /\
    Munshi.transports new =
      Munshi.SendToRabbitMQ "VT_MUNSHI_SERVICE_MAIN" (Munshi.system_message s now)
        :: rest /\
    Munshi.sl_app_id s = 1020 /\
    Munshi.sl_ttl s = 2592000 /\
    get_field (Munshi.sl_metadata s) "error_type" = Some (JStr "CACHE_ERROR").
Proof.
  intros He Hcode now.
  pose proof (outbox_after hs) as Hall. rewrite Forall_forall in Hall.
  destruct (Hall e He) as [Htype Httl].
  assert (Munshi.is_rabbitmq_error e || Munshi.is_mq_error e = false) as Hc.
  { rewrite Hcode. unfold Munshi.is_mq_error. by rewrite Htype. }
  split.
  { intros H%circular_spec. by rewrite Hc in H. }
  destruct (report_to_munshi_spec queue http e w) as (s & new & Hs & Hrun & Htr).
  rewrite Hc in Htr. fold now in Hs, Htr.
  exists s, new, (tail (Munshi.transports new)).
  split; [exact Hs|]. split; [exact Hrun|]. split.
  { rewrite Htr. by destruct (queue _ _ _). }
  revert Hs. unfold Munshi.build_system_log.
  destruct (extract_stack_trace_total (Munshi.error e)) as [t ->].
  cbn. intros [= <-]. cbn. rewrite Httl, Htype. split; [done|]. split; [done|].
  rewrite get_set_field_other by done. apply get_set_field.
Qed.

End Reports.

End Failover.

(** An instance of X21: the third failure of a [get] in a row. *)
Lemma third_failure_in_a_row_fails_over_witness :
  Memcache.getActiveClient
    (Memcache.handleOperationFailure true Cache.error_stack
       "getFromMemcache" "user:1" "Server not available" 1700000000300
       (Memcache.after true Cache.error_stack "app:" Cache.slow_primary
          [Memcache.OperationFailed "getFromMemcache" "user:1" "Server not available"
             1700000000100;
           Memcache.OperationFailed "getFromMemcache" "user:1" "Server not available"
             1700000000200]))
  = Memcache.backup.
Proof.
  apply (proj1 (third_failure_in_a_row_fails_over true Cache.error_stack "app:"
                  Cache.slow_primary
                  [Memcache.OperationFailed "getFromMemcache" "user:1"
                     "Server not available" 1700000000100;
                   Memcache.OperationFailed "getFromMemcache" "user:1"
                     "Server not available" 1700000000200]
                  "getFromMemcache" "user:1" "Server not available" 1700000000300
                  eq_refl));
    reflexivity.
Defined.

(** An instance of X22: after the failover, a failure and a success of
    the backup server and a health check that fails. *)
Lemma only_a_good_health_check_brings_the_primary_back_witness :
  Memcache.getActiveClient
    (foldl (Memcache.happen true Cache.error_stack "app:" Cache.slow_primary)
       (Memcache.after true Cache.error_stack "app:" Cache.slow_primary
          [Memcache.OperationFailed "setMemcache" "user:1" "timeout" 1700000000100;
           Memcache.OperationFailed "setMemcache" "user:1" "timeout" 1700000000200;
           Memcache.OperationFailed "setMemcache" "user:1" "timeout" 1700000000300])
       [Memcache.OperationFailed "setMemcache" "user:2" "timeout" 1700000000400;
        Memcache.OperationSucceeded;
        Memcache.HealthCheck 1700000003500;
        Memcache.HealthCheckAnswer true])
  = Memcache.backup.
Proof.
  refine (proj1 (only_a_good_health_check_brings_the_primary_back true Cache.error_stack
                   "app:" Cache.slow_primary _ _ _ _)).
  - reflexivity.
  - repeat constructor; discriminate.
Defined.

(** An instance of X23: one [get] that the primary server answers with an
    error after two seconds, when one failure was counted before. *)
Lemma late_error_counts_twice_witness :
  Memcache.getActiveClient
    (Memcache.getFromMemcache true Cache.error_stack "app:" Cache.slow_primary
       "user:1" 1700000001000
       (Memcache.after true Cache.error_stack "app:" Cache.slow_primary
          [Memcache.OperationFailed "setMemcache" "user:1" "timeout" 1700000000100])).2
  = Memcache.backup.
Proof.
  refine (proj2 (proj2 (late_error_counts_twice true Cache.error_stack "app:"
                          Cache.slow_primary
                          [Memcache.OperationFailed "setMemcache" "user:1" "timeout"
                             1700000000100]
                          "user:1" 1700000001000 2000 "Server not available" JUndefined
                          _ _ _)) _).
  - reflexivity.
  - reflexivity.
  - lia.
  - vm_compute. discriminate.
Defined.

(** An instance of X24: the report of a failover. *)
Lemma cache_reports_take_the_queue_first_witness :
  Munshi.is_rabbitmq_error
    (Memcache.munshi_event_data Cache.error_stack "MEMCACHE-FAILOVER-001"
       "Memcache Failover to Backup" "Switched to backup server: 172.18.0.82:11211"
       [("from_server", JStr "172.18.0.37:11211");
        ("to_server", JStr "172.18.0.82:11211");
        ("reason", JStr "3 consecutive failures on operation: setMemcache")]) = false /\
  ~ Munshi.circular
      (Memcache.munshi_event_data Cache.error_stack "MEMCACHE-FAILOVER-001"
         "Memcache Failover to Backup" "Switched to backup server: 172.18.0.82:11211"
         [("from_server", JStr "172.18.0.37:11211");
          ("to_server", JStr "172.18.0.82:11211");
          ("reason", JStr "3 consecutive failures on operation: setMemcache")]).
Proof.
  split; [reflexivity|].
  refine (proj1 (cache_reports_take_the_queue_first true Cache.error_stack "app:"
                   Cache.slow_primary Outage.queue_up Outage.http_up
                   [Memcache.OperationFailed "setMemcache" "user:1" "timeout"
                      1700000000100;
                    Memcache.OperationFailed "setMemcache" "user:1" "timeout"
                      1700000000200;
                    Memcache.OperationFailed "setMemcache" "user:1" "timeout"
                      1700000000300]
                   _ Outage.start _ _)).
  - vm_compute. left.
  - reflexivity.
Defined.
